(** * pracuj.pl job monitor: search identity, seen-set and the monitor loop

    A shallow embedding of [main.py].  The module is a polling loop around
    three collaborators (the job site, a Redis server, a Telegram bot); the
    embedding keeps the program's own logic as executable functions and
    threads the collaborators through an explicit monitor state and a trace
    of the calls made to them, in program order. *)

From stdpp Require Import strings list gmap.

Set Default Proof Using "Type".
Local Open Scope N_scope.

(** ** Python [str] values

    A Python string is a sequence of Unicode code points.  String literals of
    the source are written as Rocq strings and decoded from UTF-8 by [py]. *)

Abbreviation pystr := (list N).

Fixpoint utf8_decode (bs : list N) : pystr :=
  match bs with
  | [] => []
  | b :: r =>
    if b <? 0x80 then b :: utf8_decode r
    else if b <? 0xE0 then
      match r with
      | c1 :: r1 => ((b - 0xC0) * 0x40 + (c1 - 0x80)) :: utf8_decode r1
      | _ => []
      end
    else if b <? 0xF0 then
      match r with
      | c1 :: c2 :: r2 =>
        ((b - 0xE0) * 0x1000 + (c1 - 0x80) * 0x40 + (c2 - 0x80)) :: utf8_decode r2
      | _ => []
      end
    else
      match r with
      | c1 :: c2 :: c3 :: r3 =>
        ((b - 0xF0) * 0x40000 + (c1 - 0x80) * 0x1000 + (c2 - 0x80) * 0x40 + (c3 - 0x80))
          :: utf8_decode r3
      | _ => []
      end
  end.

Definition py (s : string) : pystr :=
  utf8_decode (map Ascii.N_of_ascii (String.list_ascii_of_string s)).
Global Arguments py : simpl never.

Definition colon : N := 0x3A.
Definition newline : N := 0x0A.

(** [sep.join(parts)] *)
Fixpoint join (sep : pystr) (parts : list pystr) : pystr :=
  match parts with
  | [] => []
  | [p] => p
  | p :: rest => p ++ sep ++ join sep rest
  end.

(** [s.split(":")]: cut at every separator; the result is never empty. *)
Fixpoint split (sep : N) (s : pystr) : list pystr :=
  match s with
  | [] => [[]]
  | c :: r =>
    if N.eqb c sep then [] :: split sep r
    else match split sep r with
         | seg :: segs => (c :: seg) :: segs
         | [] => [[c]]
         end
  end.

(** *** Case mapping

    [str.lower] and [str.upper] apply the full case mappings of the Unicode
    character database (version 14, the one of CPython 3.11).  A table entry
    [(lo, hi, step, d)] maps every [step]-th code point from [lo] to [hi] to
    the code point [d] further; the special tables list the code points that
    map to more than one.  [cased_ranges] and [case_ignorable_ranges] are the
    properties Cased and Case_Ignorable, which decide how [str.lower] writes
    the capital sigma. *)

Definition lower_ranges : list (N * N * N * Z) :=
  [
    (0x41, 0x5A, 1, (32)%Z); (0xC0, 0xD6, 1, (32)%Z); (0xD8, 0xDE, 1, (32)%Z);
    (0x100, 0x12E, 2, (1)%Z); (0x132, 0x136, 2, (1)%Z); (0x139, 0x147, 2, (1)%Z);
    (0x14A, 0x176, 2, (1)%Z); (0x178, 0x178, 1, (-121)%Z); (0x179, 0x17D, 2, (1)%Z);
    (0x181, 0x181, 1, (210)%Z); (0x182, 0x184, 2, (1)%Z); (0x186, 0x186, 1, (206)%Z);
    (0x187, 0x187, 1, (1)%Z); (0x189, 0x18A, 1, (205)%Z); (0x18B, 0x18B, 1, (1)%Z);
    (0x18E, 0x18E, 1, (79)%Z); (0x18F, 0x18F, 1, (202)%Z); (0x190, 0x190, 1, (203)%Z);
    (0x191, 0x191, 1, (1)%Z); (0x193, 0x193, 1, (205)%Z); (0x194, 0x194, 1, (207)%Z);
    (0x196, 0x196, 1, (211)%Z); (0x197, 0x197, 1, (209)%Z); (0x198, 0x198, 1, (1)%Z);
    (0x19C, 0x19C, 1, (211)%Z); (0x19D, 0x19D, 1, (213)%Z); (0x19F, 0x19F, 1, (214)%Z);
    (0x1A0, 0x1A4, 2, (1)%Z); (0x1A6, 0x1A6, 1, (218)%Z); (0x1A7, 0x1A7, 1, (1)%Z);
    (0x1A9, 0x1A9, 1, (218)%Z); (0x1AC, 0x1AC, 1, (1)%Z); (0x1AE, 0x1AE, 1, (218)%Z);
    (0x1AF, 0x1AF, 1, (1)%Z); (0x1B1, 0x1B2, 1, (217)%Z); (0x1B3, 0x1B5, 2, (1)%Z);
    (0x1B7, 0x1B7, 1, (219)%Z); (0x1B8, 0x1B8, 1, (1)%Z); (0x1BC, 0x1BC, 1, (1)%Z);
    (0x1C4, 0x1C4, 1, (2)%Z); (0x1C5, 0x1C5, 1, (1)%Z); (0x1C7, 0x1C7, 1, (2)%Z);
    (0x1C8, 0x1C8, 1, (1)%Z); (0x1CA, 0x1CA, 1, (2)%Z); (0x1CB, 0x1DB, 2, (1)%Z);
    (0x1DE, 0x1EE, 2, (1)%Z); (0x1F1, 0x1F1, 1, (2)%Z); (0x1F2, 0x1F4, 2, (1)%Z);
    (0x1F6, 0x1F6, 1, (-97)%Z); (0x1F7, 0x1F7, 1, (-56)%Z); (0x1F8, 0x21E, 2, (1)%Z);
    (0x220, 0x220, 1, (-130)%Z); (0x222, 0x232, 2, (1)%Z); (0x23A, 0x23A, 1, (10795)%Z);
    (0x23B, 0x23B, 1, (1)%Z); (0x23D, 0x23D, 1, (-163)%Z); (0x23E, 0x23E, 1, (10792)%Z);
    (0x241, 0x241, 1, (1)%Z); (0x243, 0x243, 1, (-195)%Z); (0x244, 0x244, 1, (69)%Z);
    (0x245, 0x245, 1, (71)%Z); (0x246, 0x24E, 2, (1)%Z); (0x370, 0x372, 2, (1)%Z);
    (0x376, 0x376, 1, (1)%Z); (0x37F, 0x37F, 1, (116)%Z); (0x386, 0x386, 1, (38)%Z);
    (0x388, 0x38A, 1, (37)%Z); (0x38C, 0x38C, 1, (64)%Z); (0x38E, 0x38F, 1, (63)%Z);
    (0x391, 0x3A1, 1, (32)%Z); (0x3A3, 0x3AB, 1, (32)%Z); (0x3CF, 0x3CF, 1, (8)%Z);
    (0x3D8, 0x3EE, 2, (1)%Z); (0x3F4, 0x3F4, 1, (-60)%Z); (0x3F7, 0x3F7, 1, (1)%Z);
    (0x3F9, 0x3F9, 1, (-7)%Z); (0x3FA, 0x3FA, 1, (1)%Z); (0x3FD, 0x3FF, 1, (-130)%Z);
    (0x400, 0x40F, 1, (80)%Z); (0x410, 0x42F, 1, (32)%Z); (0x460, 0x480, 2, (1)%Z);
    (0x48A, 0x4BE, 2, (1)%Z); (0x4C0, 0x4C0, 1, (15)%Z); (0x4C1, 0x4CD, 2, (1)%Z);
    (0x4D0, 0x52E, 2, (1)%Z); (0x531, 0x556, 1, (48)%Z); (0x10A0, 0x10C5, 1, (7264)%Z);
    (0x10C7, 0x10C7, 1, (7264)%Z); (0x10CD, 0x10CD, 1, (7264)%Z); (0x13A0, 0x13EF, 1, (38864)%Z);
    (0x13F0, 0x13F5, 1, (8)%Z); (0x1C90, 0x1CBA, 1, (-3008)%Z); (0x1CBD, 0x1CBF, 1, (-3008)%Z);
    (0x1E00, 0x1E94, 2, (1)%Z); (0x1E9E, 0x1E9E, 1, (-7615)%Z); (0x1EA0, 0x1EFE, 2, (1)%Z);
    (0x1F08, 0x1F0F, 1, (-8)%Z); (0x1F18, 0x1F1D, 1, (-8)%Z); (0x1F28, 0x1F2F, 1, (-8)%Z);
    (0x1F38, 0x1F3F, 1, (-8)%Z); (0x1F48, 0x1F4D, 1, (-8)%Z); (0x1F59, 0x1F5F, 2, (-8)%Z);
    (0x1F68, 0x1F6F, 1, (-8)%Z); (0x1F88, 0x1F8F, 1, (-8)%Z); (0x1F98, 0x1F9F, 1, (-8)%Z);
    (0x1FA8, 0x1FAF, 1, (-8)%Z); (0x1FB8, 0x1FB9, 1, (-8)%Z); (0x1FBA, 0x1FBB, 1, (-74)%Z);
    (0x1FBC, 0x1FBC, 1, (-9)%Z); (0x1FC8, 0x1FCB, 1, (-86)%Z); (0x1FCC, 0x1FCC, 1, (-9)%Z);
    (0x1FD8, 0x1FD9, 1, (-8)%Z); (0x1FDA, 0x1FDB, 1, (-100)%Z); (0x1FE8, 0x1FE9, 1, (-8)%Z);
    (0x1FEA, 0x1FEB, 1, (-112)%Z); (0x1FEC, 0x1FEC, 1, (-7)%Z); (0x1FF8, 0x1FF9, 1, (-128)%Z);
    (0x1FFA, 0x1FFB, 1, (-126)%Z); (0x1FFC, 0x1FFC, 1, (-9)%Z); (0x2126, 0x2126, 1, (-7517)%Z);
    (0x212A, 0x212A, 1, (-8383)%Z); (0x212B, 0x212B, 1, (-8262)%Z); (0x2132, 0x2132, 1, (28)%Z);
    (0x2160, 0x216F, 1, (16)%Z); (0x2183, 0x2183, 1, (1)%Z); (0x24B6, 0x24CF, 1, (26)%Z);
    (0x2C00, 0x2C2F, 1, (48)%Z); (0x2C60, 0x2C60, 1, (1)%Z); (0x2C62, 0x2C62, 1, (-10743)%Z);
    (0x2C63, 0x2C63, 1, (-3814)%Z); (0x2C64, 0x2C64, 1, (-10727)%Z); (0x2C67, 0x2C6B, 2, (1)%Z);
    (0x2C6D, 0x2C6D, 1, (-10780)%Z); (0x2C6E, 0x2C6E, 1, (-10749)%Z); (0x2C6F, 0x2C6F, 1, (-10783)%Z);
    (0x2C70, 0x2C70, 1, (-10782)%Z); (0x2C72, 0x2C72, 1, (1)%Z); (0x2C75, 0x2C75, 1, (1)%Z);
    (0x2C7E, 0x2C7F, 1, (-10815)%Z); (0x2C80, 0x2CE2, 2, (1)%Z); (0x2CEB, 0x2CED, 2, (1)%Z);
    (0x2CF2, 0x2CF2, 1, (1)%Z); (0xA640, 0xA66C, 2, (1)%Z); (0xA680, 0xA69A, 2, (1)%Z);
    (0xA722, 0xA72E, 2, (1)%Z); (0xA732, 0xA76E, 2, (1)%Z); (0xA779, 0xA77B, 2, (1)%Z);
    (0xA77D, 0xA77D, 1, (-35332)%Z); (0xA77E, 0xA786, 2, (1)%Z); (0xA78B, 0xA78B, 1, (1)%Z);
    (0xA78D, 0xA78D, 1, (-42280)%Z); (0xA790, 0xA792, 2, (1)%Z); (0xA796, 0xA7A8, 2, (1)%Z);
    (0xA7AA, 0xA7AA, 1, (-42308)%Z); (0xA7AB, 0xA7AB, 1, (-42319)%Z); (0xA7AC, 0xA7AC, 1, (-42315)%Z);
    (0xA7AD, 0xA7AD, 1, (-42305)%Z); (0xA7AE, 0xA7AE, 1, (-42308)%Z); (0xA7B0, 0xA7B0, 1, (-42258)%Z);
    (0xA7B1, 0xA7B1, 1, (-42282)%Z); (0xA7B2, 0xA7B2, 1, (-42261)%Z); (0xA7B3, 0xA7B3, 1, (928)%Z);
    (0xA7B4, 0xA7C2, 2, (1)%Z); (0xA7C4, 0xA7C4, 1, (-48)%Z); (0xA7C5, 0xA7C5, 1, (-42307)%Z);
    (0xA7C6, 0xA7C6, 1, (-35384)%Z); (0xA7C7, 0xA7C9, 2, (1)%Z); (0xA7D0, 0xA7D0, 1, (1)%Z);
    (0xA7D6, 0xA7D8, 2, (1)%Z); (0xA7F5, 0xA7F5, 1, (1)%Z); (0xFF21, 0xFF3A, 1, (32)%Z);
    (0x10400, 0x10427, 1, (40)%Z); (0x104B0, 0x104D3, 1, (40)%Z); (0x10570, 0x10594, 2, (39)%Z);
    (0x10571, 0x10579, 2, (39)%Z); (0x1057D, 0x10589, 2, (39)%Z); (0x1058D, 0x10591, 2, (39)%Z);
    (0x10595, 0x10595, 1, (39)%Z); (0x10C80, 0x10CB2, 1, (64)%Z); (0x118A0, 0x118BF, 1, (32)%Z);
    (0x16E40, 0x16E5F, 1, (32)%Z); (0x1E900, 0x1E921, 1, (34)%Z)
  ].

Definition lower_special : list (N * pystr) :=
  [
    (0x130, [0x69; 0x307])
  ].

Definition upper_ranges : list (N * N * N * Z) :=
  [
    (0x61, 0x7A, 1, (-32)%Z); (0xB5, 0xB5, 1, (743)%Z); (0xE0, 0xF6, 1, (-32)%Z);
    (0xF8, 0xFE, 1, (-32)%Z); (0xFF, 0xFF, 1, (121)%Z); (0x101, 0x12F, 2, (-1)%Z);
    (0x131, 0x131, 1, (-232)%Z); (0x133, 0x137, 2, (-1)%Z); (0x13A, 0x148, 2, (-1)%Z);
    (0x14B, 0x177, 2, (-1)%Z); (0x17A, 0x17E, 2, (-1)%Z); (0x17F, 0x17F, 1, (-300)%Z);
    (0x180, 0x180, 1, (195)%Z); (0x183, 0x185, 2, (-1)%Z); (0x188, 0x188, 1, (-1)%Z);
    (0x18C, 0x18C, 1, (-1)%Z); (0x192, 0x192, 1, (-1)%Z); (0x195, 0x195, 1, (97)%Z);
    (0x199, 0x199, 1, (-1)%Z); (0x19A, 0x19A, 1, (163)%Z); (0x19E, 0x19E, 1, (130)%Z);
    (0x1A1, 0x1A5, 2, (-1)%Z); (0x1A8, 0x1A8, 1, (-1)%Z); (0x1AD, 0x1AD, 1, (-1)%Z);
    (0x1B0, 0x1B0, 1, (-1)%Z); (0x1B4, 0x1B6, 2, (-1)%Z); (0x1B9, 0x1B9, 1, (-1)%Z);
    (0x1BD, 0x1BD, 1, (-1)%Z); (0x1BF, 0x1BF, 1, (56)%Z); (0x1C5, 0x1C5, 1, (-1)%Z);
    (0x1C6, 0x1C6, 1, (-2)%Z); (0x1C8, 0x1C8, 1, (-1)%Z); (0x1C9, 0x1C9, 1, (-2)%Z);
    (0x1CB, 0x1CB, 1, (-1)%Z); (0x1CC, 0x1CC, 1, (-2)%Z); (0x1CE, 0x1DC, 2, (-1)%Z);
    (0x1DD, 0x1DD, 1, (-79)%Z); (0x1DF, 0x1EF, 2, (-1)%Z); (0x1F2, 0x1F2, 1, (-1)%Z);
    (0x1F3, 0x1F3, 1, (-2)%Z); (0x1F5, 0x1F5, 1, (-1)%Z); (0x1F9, 0x21F, 2, (-1)%Z);
    (0x223, 0x233, 2, (-1)%Z); (0x23C, 0x23C, 1, (-1)%Z); (0x23F, 0x240, 1, (10815)%Z);
    (0x242, 0x242, 1, (-1)%Z); (0x247, 0x24F, 2, (-1)%Z); (0x250, 0x250, 1, (10783)%Z);
    (0x251, 0x251, 1, (10780)%Z); (0x252, 0x252, 1, (10782)%Z); (0x253, 0x253, 1, (-210)%Z);
    (0x254, 0x254, 1, (-206)%Z); (0x256, 0x257, 1, (-205)%Z); (0x259, 0x259, 1, (-202)%Z);
    (0x25B, 0x25B, 1, (-203)%Z); (0x25C, 0x25C, 1, (42319)%Z); (0x260, 0x260, 1, (-205)%Z);
    (0x261, 0x261, 1, (42315)%Z); (0x263, 0x263, 1, (-207)%Z); (0x265, 0x265, 1, (42280)%Z);
    (0x266, 0x266, 1, (42308)%Z); (0x268, 0x268, 1, (-209)%Z); (0x269, 0x269, 1, (-211)%Z);
    (0x26A, 0x26A, 1, (42308)%Z); (0x26B, 0x26B, 1, (10743)%Z); (0x26C, 0x26C, 1, (42305)%Z);
    (0x26F, 0x26F, 1, (-211)%Z); (0x271, 0x271, 1, (10749)%Z); (0x272, 0x272, 1, (-213)%Z);
    (0x275, 0x275, 1, (-214)%Z); (0x27D, 0x27D, 1, (10727)%Z); (0x280, 0x280, 1, (-218)%Z);
    (0x282, 0x282, 1, (42307)%Z); (0x283, 0x283, 1, (-218)%Z); (0x287, 0x287, 1, (42282)%Z);
    (0x288, 0x288, 1, (-218)%Z); (0x289, 0x289, 1, (-69)%Z); (0x28A, 0x28B, 1, (-217)%Z);
    (0x28C, 0x28C, 1, (-71)%Z); (0x292, 0x292, 1, (-219)%Z); (0x29D, 0x29D, 1, (42261)%Z);
    (0x29E, 0x29E, 1, (42258)%Z); (0x345, 0x345, 1, (84)%Z); (0x371, 0x373, 2, (-1)%Z);
    (0x377, 0x377, 1, (-1)%Z); (0x37B, 0x37D, 1, (130)%Z); (0x3AC, 0x3AC, 1, (-38)%Z);
    (0x3AD, 0x3AF, 1, (-37)%Z); (0x3B1, 0x3C1, 1, (-32)%Z); (0x3C2, 0x3C2, 1, (-31)%Z);
    (0x3C3, 0x3CB, 1, (-32)%Z); (0x3CC, 0x3CC, 1, (-64)%Z); (0x3CD, 0x3CE, 1, (-63)%Z);
    (0x3D0, 0x3D0, 1, (-62)%Z); (0x3D1, 0x3D1, 1, (-57)%Z); (0x3D5, 0x3D5, 1, (-47)%Z);
    (0x3D6, 0x3D6, 1, (-54)%Z); (0x3D7, 0x3D7, 1, (-8)%Z); (0x3D9, 0x3EF, 2, (-1)%Z);
    (0x3F0, 0x3F0, 1, (-86)%Z); (0x3F1, 0x3F1, 1, (-80)%Z); (0x3F2, 0x3F2, 1, (7)%Z);
    (0x3F3, 0x3F3, 1, (-116)%Z); (0x3F5, 0x3F5, 1, (-96)%Z); (0x3F8, 0x3F8, 1, (-1)%Z);
    (0x3FB, 0x3FB, 1, (-1)%Z); (0x430, 0x44F, 1, (-32)%Z); (0x450, 0x45F, 1, (-80)%Z);
    (0x461, 0x481, 2, (-1)%Z); (0x48B, 0x4BF, 2, (-1)%Z); (0x4C2, 0x4CE, 2, (-1)%Z);
    (0x4CF, 0x4CF, 1, (-15)%Z); (0x4D1, 0x52F, 2, (-1)%Z); (0x561, 0x586, 1, (-48)%Z);
    (0x10D0, 0x10FA, 1, (3008)%Z); (0x10FD, 0x10FF, 1, (3008)%Z); (0x13F8, 0x13FD, 1, (-8)%Z);
    (0x1C80, 0x1C80, 1, (-6254)%Z); (0x1C81, 0x1C81, 1, (-6253)%Z); (0x1C82, 0x1C82, 1, (-6244)%Z);
    (0x1C83, 0x1C84, 1, (-6242)%Z); (0x1C85, 0x1C85, 1, (-6243)%Z); (0x1C86, 0x1C86, 1, (-6236)%Z);
    (0x1C87, 0x1C87, 1, (-6181)%Z); (0x1C88, 0x1C88, 1, (35266)%Z); (0x1D79, 0x1D79, 1, (35332)%Z);
    (0x1D7D, 0x1D7D, 1, (3814)%Z); (0x1D8E, 0x1D8E, 1, (35384)%Z); (0x1E01, 0x1E95, 2, (-1)%Z);
    (0x1E9B, 0x1E9B, 1, (-59)%Z); (0x1EA1, 0x1EFF, 2, (-1)%Z); (0x1F00, 0x1F07, 1, (8)%Z);
    (0x1F10, 0x1F15, 1, (8)%Z); (0x1F20, 0x1F27, 1, (8)%Z); (0x1F30, 0x1F37, 1, (8)%Z);
    (0x1F40, 0x1F45, 1, (8)%Z); (0x1F51, 0x1F57, 2, (8)%Z); (0x1F60, 0x1F67, 1, (8)%Z);
    (0x1F70, 0x1F71, 1, (74)%Z); (0x1F72, 0x1F75, 1, (86)%Z); (0x1F76, 0x1F77, 1, (100)%Z);
    (0x1F78, 0x1F79, 1, (128)%Z); (0x1F7A, 0x1F7B, 1, (112)%Z); (0x1F7C, 0x1F7D, 1, (126)%Z);
    (0x1FB0, 0x1FB1, 1, (8)%Z); (0x1FBE, 0x1FBE, 1, (-7205)%Z); (0x1FD0, 0x1FD1, 1, (8)%Z);
    (0x1FE0, 0x1FE1, 1, (8)%Z); (0x1FE5, 0x1FE5, 1, (7)%Z); (0x214E, 0x214E, 1, (-28)%Z);
    (0x2170, 0x217F, 1, (-16)%Z); (0x2184, 0x2184, 1, (-1)%Z); (0x24D0, 0x24E9, 1, (-26)%Z);
    (0x2C30, 0x2C5F, 1, (-48)%Z); (0x2C61, 0x2C61, 1, (-1)%Z); (0x2C65, 0x2C65, 1, (-10795)%Z);
    (0x2C66, 0x2C66, 1, (-10792)%Z); (0x2C68, 0x2C6C, 2, (-1)%Z); (0x2C73, 0x2C73, 1, (-1)%Z);
    (0x2C76, 0x2C76, 1, (-1)%Z); (0x2C81, 0x2CE3, 2, (-1)%Z); (0x2CEC, 0x2CEE, 2, (-1)%Z);
    (0x2CF3, 0x2CF3, 1, (-1)%Z); (0x2D00, 0x2D25, 1, (-7264)%Z); (0x2D27, 0x2D27, 1, (-7264)%Z);
    (0x2D2D, 0x2D2D, 1, (-7264)%Z); (0xA641, 0xA66D, 2, (-1)%Z); (0xA681, 0xA69B, 2, (-1)%Z);
    (0xA723, 0xA72F, 2, (-1)%Z); (0xA733, 0xA76F, 2, (-1)%Z); (0xA77A, 0xA77C, 2, (-1)%Z);
    (0xA77F, 0xA787, 2, (-1)%Z); (0xA78C, 0xA78C, 1, (-1)%Z); (0xA791, 0xA793, 2, (-1)%Z);
    (0xA794, 0xA794, 1, (48)%Z); (0xA797, 0xA7A9, 2, (-1)%Z); (0xA7B5, 0xA7C3, 2, (-1)%Z);
    (0xA7C8, 0xA7CA, 2, (-1)%Z); (0xA7D1, 0xA7D1, 1, (-1)%Z); (0xA7D7, 0xA7D9, 2, (-1)%Z);
    (0xA7F6, 0xA7F6, 1, (-1)%Z); (0xAB53, 0xAB53, 1, (-928)%Z); (0xAB70, 0xABBF, 1, (-38864)%Z);
    (0xFF41, 0xFF5A, 1, (-32)%Z); (0x10428, 0x1044F, 1, (-40)%Z); (0x104D8, 0x104FB, 1, (-40)%Z);
    (0x10597, 0x105BB, 2, (-39)%Z); (0x10598, 0x105A0, 2, (-39)%Z); (0x105A4, 0x105B0, 2, (-39)%Z);
    (0x105B4, 0x105B8, 2, (-39)%Z); (0x105BC, 0x105BC, 1, (-39)%Z); (0x10CC0, 0x10CF2, 1, (-64)%Z);
    (0x118C0, 0x118DF, 1, (-32)%Z); (0x16E60, 0x16E7F, 1, (-32)%Z); (0x1E922, 0x1E943, 1, (-34)%Z)
  ].

Definition upper_special : list (N * pystr) :=
  [
    (0xDF, [0x53; 0x53]); (0x149, [0x2BC; 0x4E]); (0x1F0, [0x4A; 0x30C]);
    (0x390, [0x399; 0x308; 0x301]); (0x3B0, [0x3A5; 0x308; 0x301]); (0x587, [0x535; 0x552]);
    (0x1E96, [0x48; 0x331]); (0x1E97, [0x54; 0x308]); (0x1E98, [0x57; 0x30A]);
    (0x1E99, [0x59; 0x30A]); (0x1E9A, [0x41; 0x2BE]); (0x1F50, [0x3A5; 0x313]);
    (0x1F52, [0x3A5; 0x313; 0x300]); (0x1F54, [0x3A5; 0x313; 0x301]); (0x1F56, [0x3A5; 0x313; 0x342]);
    (0x1F80, [0x1F08; 0x399]); (0x1F81, [0x1F09; 0x399]); (0x1F82, [0x1F0A; 0x399]);
    (0x1F83, [0x1F0B; 0x399]); (0x1F84, [0x1F0C; 0x399]); (0x1F85, [0x1F0D; 0x399]);
    (0x1F86, [0x1F0E; 0x399]); (0x1F87, [0x1F0F; 0x399]); (0x1F88, [0x1F08; 0x399]);
    (0x1F89, [0x1F09; 0x399]); (0x1F8A, [0x1F0A; 0x399]); (0x1F8B, [0x1F0B; 0x399]);
    (0x1F8C, [0x1F0C; 0x399]); (0x1F8D, [0x1F0D; 0x399]); (0x1F8E, [0x1F0E; 0x399]);
    (0x1F8F, [0x1F0F; 0x399]); (0x1F90, [0x1F28; 0x399]); (0x1F91, [0x1F29; 0x399]);
    (0x1F92, [0x1F2A; 0x399]); (0x1F93, [0x1F2B; 0x399]); (0x1F94, [0x1F2C; 0x399]);
    (0x1F95, [0x1F2D; 0x399]); (0x1F96, [0x1F2E; 0x399]); (0x1F97, [0x1F2F; 0x399]);
    (0x1F98, [0x1F28; 0x399]); (0x1F99, [0x1F29; 0x399]); (0x1F9A, [0x1F2A; 0x399]);
    (0x1F9B, [0x1F2B; 0x399]); (0x1F9C, [0x1F2C; 0x399]); (0x1F9D, [0x1F2D; 0x399]);
    (0x1F9E, [0x1F2E; 0x399]); (0x1F9F, [0x1F2F; 0x399]); (0x1FA0, [0x1F68; 0x399]);
    (0x1FA1, [0x1F69; 0x399]); (0x1FA2, [0x1F6A; 0x399]); (0x1FA3, [0x1F6B; 0x399]);
    (0x1FA4, [0x1F6C; 0x399]); (0x1FA5, [0x1F6D; 0x399]); (0x1FA6, [0x1F6E; 0x399]);
    (0x1FA7, [0x1F6F; 0x399]); (0x1FA8, [0x1F68; 0x399]); (0x1FA9, [0x1F69; 0x399]);
    (0x1FAA, [0x1F6A; 0x399]); (0x1FAB, [0x1F6B; 0x399]); (0x1FAC, [0x1F6C; 0x399]);
    (0x1FAD, [0x1F6D; 0x399]); (0x1FAE, [0x1F6E; 0x399]); (0x1FAF, [0x1F6F; 0x399]);
    (0x1FB2, [0x1FBA; 0x399]); (0x1FB3, [0x391; 0x399]); (0x1FB4, [0x386; 0x399]);
    (0x1FB6, [0x391; 0x342]); (0x1FB7, [0x391; 0x342; 0x399]); (0x1FBC, [0x391; 0x399]);
    (0x1FC2, [0x1FCA; 0x399]); (0x1FC3, [0x397; 0x399]); (0x1FC4, [0x389; 0x399]);
    (0x1FC6, [0x397; 0x342]); (0x1FC7, [0x397; 0x342; 0x399]); (0x1FCC, [0x397; 0x399]);
    (0x1FD2, [0x399; 0x308; 0x300]); (0x1FD3, [0x399; 0x308; 0x301]); (0x1FD6, [0x399; 0x342]);
    (0x1FD7, [0x399; 0x308; 0x342]); (0x1FE2, [0x3A5; 0x308; 0x300]); (0x1FE3, [0x3A5; 0x308; 0x301]);
    (0x1FE4, [0x3A1; 0x313]); (0x1FE6, [0x3A5; 0x342]); (0x1FE7, [0x3A5; 0x308; 0x342]);
    (0x1FF2, [0x1FFA; 0x399]); (0x1FF3, [0x3A9; 0x399]); (0x1FF4, [0x38F; 0x399]);
    (0x1FF6, [0x3A9; 0x342]); (0x1FF7, [0x3A9; 0x342; 0x399]); (0x1FFC, [0x3A9; 0x399]);
    (0xFB00, [0x46; 0x46]); (0xFB01, [0x46; 0x49]); (0xFB02, [0x46; 0x4C]);
    (0xFB03, [0x46; 0x46; 0x49]); (0xFB04, [0x46; 0x46; 0x4C]); (0xFB05, [0x53; 0x54]);
    (0xFB06, [0x53; 0x54]); (0xFB13, [0x544; 0x546]); (0xFB14, [0x544; 0x535]);
    (0xFB15, [0x544; 0x53B]); (0xFB16, [0x54E; 0x546]); (0xFB17, [0x544; 0x53D])
  ].

Definition cased_ranges : list (N * N) :=
  [
    (0x41, 0x5A); (0x61, 0x7A); (0xAA, 0xAA); (0xB5, 0xB5); (0xBA, 0xBA);
    (0xC0, 0xD6); (0xD8, 0xF6); (0xF8, 0x1BA); (0x1BC, 0x1BF); (0x1C4, 0x293);
    (0x295, 0x2B8); (0x2C0, 0x2C1); (0x2E0, 0x2E4); (0x345, 0x345); (0x370, 0x373);
    (0x376, 0x377); (0x37A, 0x37D); (0x37F, 0x37F); (0x386, 0x386); (0x388, 0x38A);
    (0x38C, 0x38C); (0x38E, 0x3A1); (0x3A3, 0x3F5); (0x3F7, 0x481); (0x48A, 0x52F);
    (0x531, 0x556); (0x560, 0x588); (0x10A0, 0x10C5); (0x10C7, 0x10C7); (0x10CD, 0x10CD);
    (0x10D0, 0x10FA); (0x10FD, 0x10FF); (0x13A0, 0x13F5); (0x13F8, 0x13FD); (0x1C80, 0x1C88);
    (0x1C90, 0x1CBA); (0x1CBD, 0x1CBF); (0x1D00, 0x1DBF); (0x1E00, 0x1F15); (0x1F18, 0x1F1D);
    (0x1F20, 0x1F45); (0x1F48, 0x1F4D); (0x1F50, 0x1F57); (0x1F59, 0x1F59); (0x1F5B, 0x1F5B);
    (0x1F5D, 0x1F5D); (0x1F5F, 0x1F7D); (0x1F80, 0x1FB4); (0x1FB6, 0x1FBC); (0x1FBE, 0x1FBE);
    (0x1FC2, 0x1FC4); (0x1FC6, 0x1FCC); (0x1FD0, 0x1FD3); (0x1FD6, 0x1FDB); (0x1FE0, 0x1FEC);
    (0x1FF2, 0x1FF4); (0x1FF6, 0x1FFC); (0x2071, 0x2071); (0x207F, 0x207F); (0x2090, 0x209C);
    (0x2102, 0x2102); (0x2107, 0x2107); (0x210A, 0x2113); (0x2115, 0x2115); (0x2119, 0x211D);
    (0x2124, 0x2124); (0x2126, 0x2126); (0x2128, 0x2128); (0x212A, 0x212D); (0x212F, 0x2134);
    (0x2139, 0x2139); (0x213C, 0x213F); (0x2145, 0x2149); (0x214E, 0x214E); (0x2160, 0x217F);
    (0x2183, 0x2184); (0x24B6, 0x24E9); (0x2C00, 0x2CE4); (0x2CEB, 0x2CEE); (0x2CF2, 0x2CF3);
    (0x2D00, 0x2D25); (0x2D27, 0x2D27); (0x2D2D, 0x2D2D); (0xA640, 0xA66D); (0xA680, 0xA69D);
    (0xA722, 0xA787); (0xA78B, 0xA78E); (0xA790, 0xA7CA); (0xA7D0, 0xA7D1); (0xA7D3, 0xA7D3);
    (0xA7D5, 0xA7D9); (0xA7F5, 0xA7F6); (0xA7F8, 0xA7FA); (0xAB30, 0xAB5A); (0xAB5C, 0xAB68);
    (0xAB70, 0xABBF); (0xFB00, 0xFB06); (0xFB13, 0xFB17); (0xFF21, 0xFF3A); (0xFF41, 0xFF5A);
    (0x10400, 0x1044F); (0x104B0, 0x104D3); (0x104D8, 0x104FB); (0x10570, 0x1057A); (0x1057C, 0x1058A);
    (0x1058C, 0x10592); (0x10594, 0x10595); (0x10597, 0x105A1); (0x105A3, 0x105B1); (0x105B3, 0x105B9);
    (0x105BB, 0x105BC); (0x10780, 0x10780); (0x10783, 0x10785); (0x10787, 0x107B0); (0x107B2, 0x107BA);
    (0x10C80, 0x10CB2); (0x10CC0, 0x10CF2); (0x118A0, 0x118DF); (0x16E40, 0x16E7F); (0x1D400, 0x1D454);
    (0x1D456, 0x1D49C); (0x1D49E, 0x1D49F); (0x1D4A2, 0x1D4A2); (0x1D4A5, 0x1D4A6); (0x1D4A9, 0x1D4AC);
    (0x1D4AE, 0x1D4B9); (0x1D4BB, 0x1D4BB); (0x1D4BD, 0x1D4C3); (0x1D4C5, 0x1D505); (0x1D507, 0x1D50A);
    (0x1D50D, 0x1D514); (0x1D516, 0x1D51C); (0x1D51E, 0x1D539); (0x1D53B, 0x1D53E); (0x1D540, 0x1D544);
    (0x1D546, 0x1D546); (0x1D54A, 0x1D550); (0x1D552, 0x1D6A5); (0x1D6A8, 0x1D6C0); (0x1D6C2, 0x1D6DA);
    (0x1D6DC, 0x1D6FA); (0x1D6FC, 0x1D714); (0x1D716, 0x1D734); (0x1D736, 0x1D74E); (0x1D750, 0x1D76E);
    (0x1D770, 0x1D788); (0x1D78A, 0x1D7A8); (0x1D7AA, 0x1D7C2); (0x1D7C4, 0x1D7CB); (0x1DF00, 0x1DF09);
    (0x1DF0B, 0x1DF1E); (0x1E900, 0x1E943); (0x1F130, 0x1F149); (0x1F150, 0x1F169); (0x1F170, 0x1F189)
  ].

Definition case_ignorable_ranges : list (N * N) :=
  [
    (0x27, 0x27); (0x2E, 0x2E); (0x3A, 0x3A); (0x5E, 0x5E); (0x60, 0x60);
    (0xA8, 0xA8); (0xAD, 0xAD); (0xAF, 0xAF); (0xB4, 0xB4); (0xB7, 0xB8);
    (0x2B0, 0x36F); (0x374, 0x375); (0x37A, 0x37A); (0x384, 0x385); (0x387, 0x387);
    (0x483, 0x489); (0x559, 0x559); (0x55F, 0x55F); (0x591, 0x5BD); (0x5BF, 0x5BF);
    (0x5C1, 0x5C2); (0x5C4, 0x5C5); (0x5C7, 0x5C7); (0x5F4, 0x5F4); (0x600, 0x605);
    (0x610, 0x61A); (0x61C, 0x61C); (0x640, 0x640); (0x64B, 0x65F); (0x670, 0x670);
    (0x6D6, 0x6DD); (0x6DF, 0x6E8); (0x6EA, 0x6ED); (0x70F, 0x70F); (0x711, 0x711);
    (0x730, 0x74A); (0x7A6, 0x7B0); (0x7EB, 0x7F5); (0x7FA, 0x7FA); (0x7FD, 0x7FD);
    (0x816, 0x82D); (0x859, 0x85B); (0x888, 0x888); (0x890, 0x891); (0x898, 0x89F);
    (0x8C9, 0x902); (0x93A, 0x93A); (0x93C, 0x93C); (0x941, 0x948); (0x94D, 0x94D);
    (0x951, 0x957); (0x962, 0x963); (0x971, 0x971); (0x981, 0x981); (0x9BC, 0x9BC);
    (0x9C1, 0x9C4); (0x9CD, 0x9CD); (0x9E2, 0x9E3); (0x9FE, 0x9FE); (0xA01, 0xA02);
    (0xA3C, 0xA3C); (0xA41, 0xA42); (0xA47, 0xA48); (0xA4B, 0xA4D); (0xA51, 0xA51);
    (0xA70, 0xA71); (0xA75, 0xA75); (0xA81, 0xA82); (0xABC, 0xABC); (0xAC1, 0xAC5);
    (0xAC7, 0xAC8); (0xACD, 0xACD); (0xAE2, 0xAE3); (0xAFA, 0xAFF); (0xB01, 0xB01);
    (0xB3C, 0xB3C); (0xB3F, 0xB3F); (0xB41, 0xB44); (0xB4D, 0xB4D); (0xB55, 0xB56);
    (0xB62, 0xB63); (0xB82, 0xB82); (0xBC0, 0xBC0); (0xBCD, 0xBCD); (0xC00, 0xC00);
    (0xC04, 0xC04); (0xC3C, 0xC3C); (0xC3E, 0xC40); (0xC46, 0xC48); (0xC4A, 0xC4D);
    (0xC55, 0xC56); (0xC62, 0xC63); (0xC81, 0xC81); (0xCBC, 0xCBC); (0xCBF, 0xCBF);
    (0xCC6, 0xCC6); (0xCCC, 0xCCD); (0xCE2, 0xCE3); (0xD00, 0xD01); (0xD3B, 0xD3C);
    (0xD41, 0xD44); (0xD4D, 0xD4D); (0xD62, 0xD63); (0xD81, 0xD81); (0xDCA, 0xDCA);
    (0xDD2, 0xDD4); (0xDD6, 0xDD6); (0xE31, 0xE31); (0xE34, 0xE3A); (0xE46, 0xE4E);
    (0xEB1, 0xEB1); (0xEB4, 0xEBC); (0xEC6, 0xEC6); (0xEC8, 0xECD); (0xF18, 0xF19);
    (0xF35, 0xF35); (0xF37, 0xF37); (0xF39, 0xF39); (0xF71, 0xF7E); (0xF80, 0xF84);
    (0xF86, 0xF87); (0xF8D, 0xF97); (0xF99, 0xFBC); (0xFC6, 0xFC6); (0x102D, 0x1030);
    (0x1032, 0x1037); (0x1039, 0x103A); (0x103D, 0x103E); (0x1058, 0x1059); (0x105E, 0x1060);
    (0x1071, 0x1074); (0x1082, 0x1082); (0x1085, 0x1086); (0x108D, 0x108D); (0x109D, 0x109D);
    (0x10FC, 0x10FC); (0x135D, 0x135F); (0x1712, 0x1714); (0x1732, 0x1733); (0x1752, 0x1753);
    (0x1772, 0x1773); (0x17B4, 0x17B5); (0x17B7, 0x17BD); (0x17C6, 0x17C6); (0x17C9, 0x17D3);
    (0x17D7, 0x17D7); (0x17DD, 0x17DD); (0x180B, 0x180F); (0x1843, 0x1843); (0x1885, 0x1886);
    (0x18A9, 0x18A9); (0x1920, 0x1922); (0x1927, 0x1928); (0x1932, 0x1932); (0x1939, 0x193B);
    (0x1A17, 0x1A18); (0x1A1B, 0x1A1B); (0x1A56, 0x1A56); (0x1A58, 0x1A5E); (0x1A60, 0x1A60);
    (0x1A62, 0x1A62); (0x1A65, 0x1A6C); (0x1A73, 0x1A7C); (0x1A7F, 0x1A7F); (0x1AA7, 0x1AA7);
    (0x1AB0, 0x1ACE); (0x1B00, 0x1B03); (0x1B34, 0x1B34); (0x1B36, 0x1B3A); (0x1B3C, 0x1B3C);
    (0x1B42, 0x1B42); (0x1B6B, 0x1B73); (0x1B80, 0x1B81); (0x1BA2, 0x1BA5); (0x1BA8, 0x1BA9);
    (0x1BAB, 0x1BAD); (0x1BE6, 0x1BE6); (0x1BE8, 0x1BE9); (0x1BED, 0x1BED); (0x1BEF, 0x1BF1);
    (0x1C2C, 0x1C33); (0x1C36, 0x1C37); (0x1C78, 0x1C7D); (0x1CD0, 0x1CD2); (0x1CD4, 0x1CE0);
    (0x1CE2, 0x1CE8); (0x1CED, 0x1CED); (0x1CF4, 0x1CF4); (0x1CF8, 0x1CF9); (0x1D2C, 0x1D6A);
    (0x1D78, 0x1D78); (0x1D9B, 0x1DFF); (0x1FBD, 0x1FBD); (0x1FBF, 0x1FC1); (0x1FCD, 0x1FCF);
    (0x1FDD, 0x1FDF); (0x1FED, 0x1FEF); (0x1FFD, 0x1FFE); (0x200B, 0x200F); (0x2018, 0x2019);
    (0x2024, 0x2024); (0x2027, 0x2027); (0x202A, 0x202E); (0x2060, 0x2064); (0x2066, 0x206F);
    (0x2071, 0x2071); (0x207F, 0x207F); (0x2090, 0x209C); (0x20D0, 0x20F0); (0x2C7C, 0x2C7D);
    (0x2CEF, 0x2CF1); (0x2D6F, 0x2D6F); (0x2D7F, 0x2D7F); (0x2DE0, 0x2DFF); (0x2E2F, 0x2E2F);
    (0x3005, 0x3005); (0x302A, 0x302D); (0x3031, 0x3035); (0x303B, 0x303B); (0x3099, 0x309E);
    (0x30FC, 0x30FE); (0xA015, 0xA015); (0xA4F8, 0xA4FD); (0xA60C, 0xA60C); (0xA66F, 0xA672);
    (0xA674, 0xA67D); (0xA67F, 0xA67F); (0xA69C, 0xA69F); (0xA6F0, 0xA6F1); (0xA700, 0xA721);
    (0xA770, 0xA770); (0xA788, 0xA78A); (0xA7F2, 0xA7F4); (0xA7F8, 0xA7F9); (0xA802, 0xA802);
    (0xA806, 0xA806); (0xA80B, 0xA80B); (0xA825, 0xA826); (0xA82C, 0xA82C); (0xA8C4, 0xA8C5);
    (0xA8E0, 0xA8F1); (0xA8FF, 0xA8FF); (0xA926, 0xA92D); (0xA947, 0xA951); (0xA980, 0xA982);
    (0xA9B3, 0xA9B3); (0xA9B6, 0xA9B9); (0xA9BC, 0xA9BD); (0xA9CF, 0xA9CF); (0xA9E5, 0xA9E6);
    (0xAA29, 0xAA2E); (0xAA31, 0xAA32); (0xAA35, 0xAA36); (0xAA43, 0xAA43); (0xAA4C, 0xAA4C);
    (0xAA70, 0xAA70); (0xAA7C, 0xAA7C); (0xAAB0, 0xAAB0); (0xAAB2, 0xAAB4); (0xAAB7, 0xAAB8);
    (0xAABE, 0xAABF); (0xAAC1, 0xAAC1); (0xAADD, 0xAADD); (0xAAEC, 0xAAED); (0xAAF3, 0xAAF4);
    (0xAAF6, 0xAAF6); (0xAB5B, 0xAB5F); (0xAB69, 0xAB6B); (0xABE5, 0xABE5); (0xABE8, 0xABE8);
    (0xABED, 0xABED); (0xFB1E, 0xFB1E); (0xFBB2, 0xFBC2); (0xFE00, 0xFE0F); (0xFE13, 0xFE13);
    (0xFE20, 0xFE2F); (0xFE52, 0xFE52); (0xFE55, 0xFE55); (0xFEFF, 0xFEFF); (0xFF07, 0xFF07);
    (0xFF0E, 0xFF0E); (0xFF1A, 0xFF1A); (0xFF3E, 0xFF3E); (0xFF40, 0xFF40); (0xFF70, 0xFF70);
    (0xFF9E, 0xFF9F); (0xFFE3, 0xFFE3); (0xFFF9, 0xFFFB); (0x101FD, 0x101FD); (0x102E0, 0x102E0);
    (0x10376, 0x1037A); (0x10780, 0x10785); (0x10787, 0x107B0); (0x107B2, 0x107BA); (0x10A01, 0x10A03);
    (0x10A05, 0x10A06); (0x10A0C, 0x10A0F); (0x10A38, 0x10A3A); (0x10A3F, 0x10A3F); (0x10AE5, 0x10AE6);
    (0x10D24, 0x10D27); (0x10EAB, 0x10EAC); (0x10F46, 0x10F50); (0x10F82, 0x10F85); (0x11001, 0x11001);
    (0x11038, 0x11046); (0x11070, 0x11070); (0x11073, 0x11074); (0x1107F, 0x11081); (0x110B3, 0x110B6);
    (0x110B9, 0x110BA); (0x110BD, 0x110BD); (0x110C2, 0x110C2); (0x110CD, 0x110CD); (0x11100, 0x11102);
    (0x11127, 0x1112B); (0x1112D, 0x11134); (0x11173, 0x11173); (0x11180, 0x11181); (0x111B6, 0x111BE);
    (0x111C9, 0x111CC); (0x111CF, 0x111CF); (0x1122F, 0x11231); (0x11234, 0x11234); (0x11236, 0x11237);
    (0x1123E, 0x1123E); (0x112DF, 0x112DF); (0x112E3, 0x112EA); (0x11300, 0x11301); (0x1133B, 0x1133C);
    (0x11340, 0x11340); (0x11366, 0x1136C); (0x11370, 0x11374); (0x11438, 0x1143F); (0x11442, 0x11444);
    (0x11446, 0x11446); (0x1145E, 0x1145E); (0x114B3, 0x114B8); (0x114BA, 0x114BA); (0x114BF, 0x114C0);
    (0x114C2, 0x114C3); (0x115B2, 0x115B5); (0x115BC, 0x115BD); (0x115BF, 0x115C0); (0x115DC, 0x115DD);
    (0x11633, 0x1163A); (0x1163D, 0x1163D); (0x1163F, 0x11640); (0x116AB, 0x116AB); (0x116AD, 0x116AD);
    (0x116B0, 0x116B5); (0x116B7, 0x116B7); (0x1171D, 0x1171F); (0x11722, 0x11725); (0x11727, 0x1172B);
    (0x1182F, 0x11837); (0x11839, 0x1183A); (0x1193B, 0x1193C); (0x1193E, 0x1193E); (0x11943, 0x11943);
    (0x119D4, 0x119D7); (0x119DA, 0x119DB); (0x119E0, 0x119E0); (0x11A01, 0x11A0A); (0x11A33, 0x11A38);
    (0x11A3B, 0x11A3E); (0x11A47, 0x11A47); (0x11A51, 0x11A56); (0x11A59, 0x11A5B); (0x11A8A, 0x11A96);
    (0x11A98, 0x11A99); (0x11C30, 0x11C36); (0x11C38, 0x11C3D); (0x11C3F, 0x11C3F); (0x11C92, 0x11CA7);
    (0x11CAA, 0x11CB0); (0x11CB2, 0x11CB3); (0x11CB5, 0x11CB6); (0x11D31, 0x11D36); (0x11D3A, 0x11D3A);
    (0x11D3C, 0x11D3D); (0x11D3F, 0x11D45); (0x11D47, 0x11D47); (0x11D90, 0x11D91); (0x11D95, 0x11D95);
    (0x11D97, 0x11D97); (0x11EF3, 0x11EF4); (0x13430, 0x13438); (0x16AF0, 0x16AF4); (0x16B30, 0x16B36);
    (0x16B40, 0x16B43); (0x16F4F, 0x16F4F); (0x16F8F, 0x16F9F); (0x16FE0, 0x16FE1); (0x16FE3, 0x16FE4);
    (0x1AFF0, 0x1AFF3); (0x1AFF5, 0x1AFFB); (0x1AFFD, 0x1AFFE); (0x1BC9D, 0x1BC9E); (0x1BCA0, 0x1BCA3);
    (0x1CF00, 0x1CF2D); (0x1CF30, 0x1CF46); (0x1D167, 0x1D169); (0x1D173, 0x1D182); (0x1D185, 0x1D18B);
    (0x1D1AA, 0x1D1AD); (0x1D242, 0x1D244); (0x1DA00, 0x1DA36); (0x1DA3B, 0x1DA6C); (0x1DA75, 0x1DA75);
    (0x1DA84, 0x1DA84); (0x1DA9B, 0x1DA9F); (0x1DAA1, 0x1DAAF); (0x1E000, 0x1E006); (0x1E008, 0x1E018);
    (0x1E01B, 0x1E021); (0x1E023, 0x1E024); (0x1E026, 0x1E02A); (0x1E130, 0x1E13D); (0x1E2AE, 0x1E2AE);
    (0x1E2EC, 0x1E2EF); (0x1E8D0, 0x1E8D6); (0x1E944, 0x1E94B); (0x1F3FB, 0x1F3FF); (0xE0001, 0xE0001);
    (0xE0020, 0xE007F); (0xE0100, 0xE01EF)
  ].

Fixpoint case_delta (t : list (N * N * N * Z)) (c : N) : option N :=
  match t with
  | [] => None
  | (lo, hi, step, d) :: r =>
    if (lo <=? c) && (c <=? hi) && ((c - lo) mod step =? 0)
    then Some (Z.to_N (Z.of_N c + d))
    else case_delta r c
  end.

Fixpoint case_special (t : list (N * pystr)) (c : N) : option pystr :=
  match t with
  | [] => None
  | (k, v) :: r => if k =? c then Some v else case_special r c
  end.

Definition in_ranges (t : list (N * N)) (c : N) : bool :=
  existsb (λ r, (r.1 <=? c) && (c <=? r.2)) t.

Definition cased (c : N) : bool := in_ranges cased_ranges c.
Definition case_ignorable (c : N) : bool := in_ranges case_ignorable_ranges c.

Definition case_map (special : list (N * pystr)) (ranges : list (N * N * N * Z)) (c : N)
  : pystr :=
  match case_special special c with
  | Some v => v
  | None => match case_delta ranges c with
            | Some x => [x]
            | None => [c]
            end
  end.

Definition lower_cp (c : N) : pystr := case_map lower_special lower_ranges c.
Definition upper_cp (c : N) : pystr := case_map upper_special upper_ranges c.

Definition capital_sigma : N := 0x3A3.

(** The capital sigma becomes the final small sigma when a cased letter
    stands before it and none after it, case-ignorable characters (the colon
    is one) being skipped on both sides. *)
Fixpoint no_cased_after (s : pystr) : bool :=
  match s with
  | [] => true
  | c :: r => if case_ignorable c then no_cased_after r else negb (cased c)
  end.

Fixpoint lower_from (cased_before : bool) (s : pystr) : pystr :=
  match s with
  | [] => []
  | c :: r =>
    (if c =? capital_sigma
     then [if cased_before && no_cased_after r then 0x3C2 else 0x3C3]
     else lower_cp c)
    ++ lower_from (if case_ignorable c then cased_before else cased c) r
  end.

Definition lower (s : pystr) : pystr := lower_from false s.
Definition upper (s : pystr) : pystr := flat_map upper_cp s.

Definition latin1 (s : pystr) : Prop := Forall (λ c, c < 0x100) s.

(** Substring test, [needle in hay]. *)
Fixpoint starts_with (needle hay : pystr) : bool :=
  match needle, hay with
  | [], _ => true
  | _ :: _, [] => false
  | a :: n', b :: h' => N.eqb a b && starts_with n' h'
  end.

Fixpoint contains (hay needle : pystr) : bool :=
  starts_with needle hay ||
  match hay with
  | [] => false
  | _ :: h' => contains h' needle
  end.

(** A character that lower-casing restores after upper-casing: its capital
    form has no capital sigma, and lower-cased gives what the character
    itself gives.  The letters of ASCII and of Polish are such; [ß] (capital
    [SS]), [µ] and the small sigmas are not. *)
Definition case_stable_cp (c : N) : bool :=
  forallb (λ u, negb (u =? capital_sigma)) (upper_cp c)
  && bool_decide (flat_map lower_cp (upper_cp c) = lower_cp c).


Definition sigma_free (s : pystr) : Prop := capital_sigma ∉ s.

(** [str.isspace] characters, those [str.strip] removes. *)
Definition is_space (c : N) : bool :=
  (0x09 <=? c) && (c <=? 0x0D) || (0x1C <=? c) && (c <=? 0x20)
  || (c =? 0x85) || (c =? 0xA0) || (c =? 0x1680)
  || (0x2000 <=? c) && (c <=? 0x200A)
  || (c =? 0x2028) || (c =? 0x2029) || (c =? 0x202F) || (c =? 0x205F) || (c =? 0x3000).

(** A position that is empty after trimming, in the words of the
    specification. *)
Definition blank (p : pystr) : bool := forallb is_space p.

(** ** Search identity ([JobSearch]) *)

Record JobSearch := { position : pystr; city : option pystr }.

Global Instance JobSearch_eq_dec : EqDecision JobSearch.
Proof. solve_decision. Defined.

(** Truthiness of an [Optional[str]]: [None] and the empty string are
    false. *)
Definition truthy (c : option pystr) : bool :=
  match c with
  | Some (_ :: _) => true
  | _ => false
  end.

(** [get_search_id]: the f-string is built first and lower-cased as a
    whole. *)
Definition get_search_id (self : JobSearch) : pystr :=
  if truthy (city self) then
    lower (position self ++ colon :: default [] (city self))
  else lower (position self).

(** The key under which an offer of a search is remembered,
    [f"{search.get_search_id()}:{offer['groupId']}"]. *)
Definition offer_id_of (search : JobSearch) (group_id : pystr) : pystr :=
  get_search_id search ++ colon :: group_id.


(** The split as the specification words it: what is left of the first
    colon, and, if there is a colon, all that is right of it. *)
Fixpoint split_first (s : pystr) : pystr * option pystr :=
  match s with
  | [] => ([], None)
  | c :: r =>
    if N.eqb c colon then ([], Some r)
    else let (left, right) := split_first r in (c :: left, right)
  end.

(** ** The fetch address ([get_url])

    [urllib.parse.quote] encodes the string as UTF-8 (which fails on a
    surrogate code point, [None] here) and writes every byte that is not a
    letter, a digit or one of [_.-~/] as [%XX]. *)

Definition utf8_encode_cp (c : N) : option (list N) :=
  if c <? 0x80 then Some [c]
  else if c <? 0x800 then Some [0xC0 + c / 0x40; 0x80 + c mod 0x40]
  else if (0xD800 <=? c) && (c <=? 0xDFFF) then None
  else if c <? 0x10000 then
    Some [0xE0 + c / 0x1000; 0x80 + (c / 0x40) mod 0x40; 0x80 + c mod 0x40]
  else if c <? 0x110000 then
    Some [0xF0 + c / 0x40000; 0x80 + (c / 0x1000) mod 0x40;
          0x80 + (c / 0x40) mod 0x40; 0x80 + c mod 0x40]
  else None.

Fixpoint utf8_encode (s : pystr) : option (list N) :=
  match s with
  | [] => Some []
  | c :: r =>
    bs ← utf8_encode_cp c;
    rest ← utf8_encode r;
    Some (bs ++ rest)
  end.

Definition always_safe (b : N) : bool :=
  (0x41 <=? b) && (b <=? 0x5A) || (0x61 <=? b) && (b <=? 0x7A)
  || (0x30 <=? b) && (b <=? 0x39)
  || (b =? 0x5F) || (b =? 0x2E) || (b =? 0x2D) || (b =? 0x7E).

(** One digit of [{:02X}]. *)
Definition hex_digit (n : N) : N :=
  if n <? 10 then 0x30 + n else 0x41 + (n - 10).

Definition quote_byte (b : N) : pystr :=
  if always_safe b || (b =? 0x2F) then [b]
  else [0x25; hex_digit (b / 16); hex_digit (b mod 16)].

Definition quote (s : pystr) : option pystr :=
  bs ← utf8_encode s;
  Some (flat_map quote_byte bs).

Definition get_url (self : JobSearch) : option pystr :=
  let base_url := py "https://it.pracuj.pl/praca" in
  position_encoded ← quote (position self);
  if truthy (city self) then
    city_encoded ← quote (default [] (city self));
    Some (base_url ++ py "/" ++ position_encoded ++ py ";kw/" ++ city_encoded
          ++ py ";wp?rd=30")
  else Some (base_url ++ py "/" ++ position_encoded ++ py ";kw").

(** ** Offer records

    An offer is a JSON object of the site's payload.  Every key may be
    missing (reading it then raises [KeyError]); a value that is there has the
    type of the site's schema. *)

Inductive exn :=
| KeyError (key : pystr)
| IndexError
| ValueError
| OverflowError.

Inductive result (A : Type) :=
| Ok (value : A)
| Raise (e : exn).
Arguments Ok {A} value.
Arguments Raise {A} e.

Global Instance result_ret : MRet result := λ A, Ok.
Global Instance result_bind : MBind result := λ A B f r,
  match r with
  | Ok a => f a
  | Raise e => Raise e
  end.

(** [d[key]] on a dict, and [l[0]] on a list. *)
Definition getitem {A} (key : string) (field : option A) : result A :=
  match field with
  | Some v => Ok v
  | None => Raise (KeyError (py key))
  end.

Definition first_item {A} (l : list A) : result A :=
  match l with
  | x :: _ => Ok x
  | [] => Raise IndexError
  end.

Module Listing.
Record t := {
  displayWorkplace : option pystr;
  offerAbsoluteUri : option pystr }.
End Listing.

Module Offer.
Record t := {
  groupId : option pystr;
  companyName : option pystr;
  jobTitle : option pystr;
  lastPublicated : option pystr;
  technologies : option (list pystr);
  offers : option (list Listing.t);
  positionLevels : option (list pystr);
  salaryDisplayText : option pystr }.
End Offer.

(** The dict [offer_data] written to the store: always these eight keys. *)
Module OfferData.
Record t := {
  companyName : pystr;
  jobTitle : pystr;
  lastPublicated : pystr;
  technologies : pystr;
  displayWorkplace : pystr;
  offerAbsoluteUri : pystr;
  positionLevels : pystr;
  salaryDisplayText : pystr }.
End OfferData.

(** The dict [job] received by [send_telegram_alert]; the salary is read with
    [job.get], so that key alone may be missing. *)
Module Job.
Record t := {
  companyName : pystr;
  jobTitle : pystr;
  lastPublicated : pystr;
  technologies : list pystr;
  displayWorkplace : pystr;
  offerAbsoluteUri : pystr;
  positionLevels : list pystr;
  salaryDisplayText : option pystr }.
End Job.

Global Instance OfferData_eq_dec : EqDecision OfferData.t.
Proof. solve_decision. Defined.

(** The dict display of [process_offers], evaluated entry by entry. *)
Definition build_offer_data (offer : Offer.t) : result OfferData.t :=
  companyName ← getitem "companyName" (Offer.companyName offer);
  jobTitle ← getitem "jobTitle" (Offer.jobTitle offer);
  lastPublicated ← getitem "lastPublicated" (Offer.lastPublicated offer);
  technologies ← getitem "technologies" (Offer.technologies offer);
  listings ← getitem "offers" (Offer.offers offer);
  listing ← first_item listings;
  displayWorkplace ← getitem "displayWorkplace" (Listing.displayWorkplace listing);
  listings' ← getitem "offers" (Offer.offers offer);
  listing' ← first_item listings';
  offerAbsoluteUri ← getitem "offerAbsoluteUri" (Listing.offerAbsoluteUri listing');
  positionLevels ← getitem "positionLevels" (Offer.positionLevels offer);
  Ok {| OfferData.companyName := companyName;
        OfferData.jobTitle := jobTitle;
        OfferData.lastPublicated := lastPublicated;
        OfferData.technologies := join (py ",") technologies;
        OfferData.displayWorkplace := displayWorkplace;
        OfferData.offerAbsoluteUri := offerAbsoluteUri;
        OfferData.positionLevels := join (py ",") positionLevels;
        OfferData.salaryDisplayText := default [] (Offer.salaryDisplayText offer) |}.

(** [{**offer_data, 'technologies': ..., 'positionLevels': ...}] *)
Definition job_of (offer_data : OfferData.t) (technologies positionLevels : list pystr)
  : Job.t :=
  {| Job.companyName := OfferData.companyName offer_data;
     Job.jobTitle := OfferData.jobTitle offer_data;
     Job.lastPublicated := OfferData.lastPublicated offer_data;
     Job.technologies := technologies;
     Job.displayWorkplace := OfferData.displayWorkplace offer_data;
     Job.offerAbsoluteUri := OfferData.offerAbsoluteUri offer_data;
     Job.positionLevels := positionLevels;
     Job.salaryDisplayText := Some (OfferData.salaryDisplayText offer_data) |}.

(** The text of the alert, as [send_telegram_alert] formats it. *)
Definition salary_line (job : Job.t) : pystr :=
  py "💰 Salary: " ++ default (py "Not specified") (Job.salaryDisplayText job).

Definition alert_message (job : Job.t) (search : JobSearch) : pystr :=
  py "🚨 New job offer: " ++ Job.jobTitle job ++ py "!" ++ [newline; newline]
  ++ py "🔍 Search: " ++ position search
  ++ (if truthy (city search) then py " in " ++ default [] (city search) else [])
  ++ [newline; newline]
  ++ py "🏢 Company: " ++ Job.companyName job ++ [newline]
  ++ py "📍 Location: " ++ Job.displayWorkplace job ++ [newline]
  ++ py "💼 Level: " ++ join (py ", ") (Job.positionLevels job) ++ [newline]
  ++ py "🔧 Technologies: " ++ join (py ", ") (Job.technologies job) ++ [newline]
  ++ salary_line job ++ [newline]
  ++ py "🔗 Link: " ++ Job.offerAbsoluteUri job ++ [newline; newline]
  ++ py "📅 Published: " ++ Job.lastPublicated job.

(** ** The collaborators

    The Redis server holds the set [job_searches] and one hash per offer,
    under keys [offer:...]; the two live under different keys and are kept in
    two fields.  The server is taken to answer every command. *)

Record redis := {
  job_searches : gset pystr;
  hashes : gmap pystr OfferData.t }.

Definition r_exists (key : pystr) (r : redis) : bool :=
  bool_decide (is_Some (hashes r !! key)).

Definition r_hmset (key : pystr) (mapping : OfferData.t) (r : redis) : redis :=
  {| job_searches := job_searches r; hashes := <[key := mapping]> (hashes r) |}.

Definition r_sadd (member : pystr) (r : redis) : redis :=
  {| job_searches := {[member]} ∪ job_searches r; hashes := hashes r |}.

Definition r_srem (member : pystr) (r : redis) : redis :=
  {| job_searches := job_searches r ∖ {[member]}; hashes := hashes r |}.

(** What one page fetch of [get_job_offers] can come to. *)
Inductive page :=
| RequestFailed
| NoNextData
| BadJson
| MissingPath
| GroupedOffers (offers : list Offer.t).

Inductive log_line :=
| InfoAdded (search_id : pystr)
| InfoRemoved (search_id : pystr)
| InfoInitialized (count : nat)
| InfoSentAlert (jobTitle : pystr)
| InfoProcessed (count : nat) (search_id : pystr)
| ErrorSendingAlert
| ErrorNoJson
| ErrorGettingOffers (search_id : pystr)
| ErrorProcessingOffer (offer_id : pystr) (e : exn)
| ErrorOccurred (e : exn).

(** Everything the monitor does to the outside, in program order. *)
Inductive event :=
| Hmset (key : pystr) (mapping : OfferData.t)
| Sadd (member : pystr)
| Srem (member : pystr)
| SendMessage (chat : pystr) (text : pystr) (delivered : bool)
| Get (search : JobSearch)
| Log (line : log_line)
| Sleep (seconds : Z).

Definition is_write (e : event) : bool :=
  match e with Hmset _ _ => true | _ => false end.
Definition is_notification (e : event) : bool :=
  match e with SendMessage _ _ _ => true | _ => false end.

Definition writes (t : list event) : list event := List.filter is_write t.
Definition notifications (t : list event) : list event := List.filter is_notification t.

(** ** The monitor ([JobMonitor])

    [searches] is a Python dict: an association list in insertion order, with
    one entry per key. *)

Record JobMonitor := {
  redis_client : option redis;
  chat_id : pystr;
  check_interval : Z;
  searches : list (pystr * JobSearch);
  trace : list event }.

Definition with_redis (r : option redis) (self : JobMonitor) : JobMonitor :=
  {| redis_client := r; chat_id := chat_id self; check_interval := check_interval self;
     searches := searches self; trace := trace self |}.

Definition with_searches (d : list (pystr * JobSearch)) (self : JobMonitor) : JobMonitor :=
  {| redis_client := redis_client self; chat_id := chat_id self;
     check_interval := check_interval self; searches := d; trace := trace self |}.

Definition with_event (e : event) (self : JobMonitor) : JobMonitor :=
  {| redis_client := redis_client self; chat_id := chat_id self;
     check_interval := check_interval self; searches := searches self;
     trace := trace self ++ [e] |}.

(** [d[k] = v], [d.pop(k, None)], [d.get(k)] and [d.values()]. *)
Fixpoint dict_set (k : pystr) (v : JobSearch) (d : list (pystr * JobSearch))
  : list (pystr * JobSearch) :=
  match d with
  | [] => [(k, v)]
  | (k', v') :: rest =>
    if decide (k = k') then (k', v) :: rest else (k', v') :: dict_set k v rest
  end.

Definition dict_pop (k : pystr) (d : list (pystr * JobSearch)) : list (pystr * JobSearch) :=
  List.filter (λ kv, negb (bool_decide (kv.1 = k))) d.

Fixpoint dict_get (k : pystr) (d : list (pystr * JobSearch)) : option JobSearch :=
  match d with
  | [] => None
  | (k', v') :: rest => if decide (k = k') then Some v' else dict_get k rest
  end.

Definition values (d : list (pystr * JobSearch)) : list JobSearch := map snd d.

Definition DEFAULT_SEARCHES : list (pystr * option pystr) :=
  [ (py "DevOps Engineer", Some (py "Wroclaw"));
    (py "Cloud Engineer", Some (py "Warszawa"));
    (py "DevOps Engineer", None) ].

(** Methods run in a state monad over the monitor, with exceptions; what a
    method did before it raised stays done. *)
Definition M (A : Type) : Type := JobMonitor → result A * JobMonitor.

Global Instance M_ret : MRet M := λ A a self, (Ok a, self).
Global Instance M_bind : MBind M := λ A B f m self,
  match m self with
  | (Ok a, self') => f a self'
  | (Raise e, self') => (Raise e, self')
  end.

Definition lift {A} (r : result A) : M A := λ self, (r, self).
Definition get_self : M JobMonitor := λ self, (Ok self, self).
Definition modify (f : JobMonitor → JobMonitor) : M unit := λ self, (Ok (), f self).
Definition emit (e : event) : M unit := modify (with_event e).
Definition log (line : log_line) : M unit := emit (Log line).

(** [time.sleep]: a negative duration raises [ValueError], one that in
    nanoseconds does not fit in 64 bits raises [OverflowError].  Close to that
    limit the operating system's clock may refuse the duration too; what is
    said of a sleep that returns is said for durations that are [sleepable]. *)
Definition SLEEP_MAX : Z := 9223372036.

Definition sleep (seconds : Z) : M unit :=
  if (seconds <? 0)%Z then lift (Raise ValueError)
  else if (SLEEP_MAX <? seconds)%Z then lift (Raise OverflowError)
  else emit (Sleep seconds).

Definition sleepable (seconds : Z) : Prop := (0 ≤ seconds ≤ 1000000000)%Z.

(** [try: body / except Exception as e: handler] *)
Definition try_except {A} (body : M A) (handler : exn → M A) : M A := λ self,
  match body self with
  | (Ok a, self') => (Ok a, self')
  | (Raise e, self') => handler e self'
  end.

(** The state a method leaves behind. *)
Definition exec {A} (m : M A) (self : JobMonitor) : JobMonitor := (m self).2.

(** [position, *city = search_str.split(":")] and [city[0] if city else
    None], the two expressions by which [setup] rebuilds a search. *)
Definition parse_saved (search_str : pystr) : pystr * option pystr :=
  match split colon search_str with
  | position :: city => (position, head city)
  | [] => ([], None)
  end.

Section Monitor.

(** The answers of the outside world: whether [bot.send_message] returns
    ([true]) or raises ([false]), and what a page fetch comes to.  Both may
    depend on all that happened before. *)
Variable bot_send_message : list event → pystr → pystr → bool.
Variable fetch_page : list event → JobSearch → page.

Definition add_search (position : pystr) (city : option pystr) : M unit :=
  let search := {| position := position; city := city |} in
  let search_id := get_search_id search in
  modify (λ self, with_searches (dict_set search_id search (searches self)) self);;
  self ← get_self;
  match redis_client self with
  | Some r => modify (with_redis (Some (r_sadd search_id r)));; emit (Sadd search_id)
  | None => mret ()
  end;;
  log (InfoAdded search_id).

Definition remove_search (position : pystr) (city : option pystr) : M unit :=
  let search := {| position := position; city := city |} in
  let search_id := get_search_id search in
  modify (λ self, with_searches (dict_pop search_id (searches self)) self);;
  self ← get_self;
  match redis_client self with
  | Some r => modify (with_redis (Some (r_srem search_id r)));; emit (Srem search_id)
  | None => mret ()
  end;;
  log (InfoRemoved search_id).

Fixpoint add_all (l : list (pystr * option pystr)) : M unit :=
  match l with
  | [] => mret ()
  | (position, city) :: rest => add_search position city;; add_all rest
  end.

(** [smembers] gives a set; its members are visited in no particular
    order, here the order of [elements]. *)
Definition setup : M unit :=
  self ← get_self;
  match redis_client self with
  | Some r =>
    let saved_searches := elements (job_searches r) in
    match saved_searches with
    | _ :: _ => add_all (map parse_saved saved_searches)
    | [] => add_all DEFAULT_SEARCHES
    end
  | None => add_all DEFAULT_SEARCHES
  end;;
  self ← get_self;
  log (InfoInitialized (length (searches self))).

Definition send_telegram_alert (job : Job.t) (search : JobSearch) : M unit :=
  self ← get_self;
  let message := alert_message job search in
  let delivered := bot_send_message (trace self) (chat_id self) message in
  emit (SendMessage (chat_id self) message delivered);;
  if delivered then log (InfoSentAlert (Job.jobTitle job))
  else log ErrorSendingAlert.

(** The address is built inside the [try]: when [get_url] raises, no request
    is made.  [Get search] is the request for the address of [search]. *)
Definition get_job_offers (search : JobSearch) : M (list Offer.t) :=
  match get_url search with
  | None => log (ErrorGettingOffers (get_search_id search));; mret []
  | Some url =>
    self ← get_self;
    emit (Get search);;
    match fetch_page (trace self) search with
    | GroupedOffers offers => mret offers
    | NoNextData => log ErrorNoJson;; mret []
    | RequestFailed | BadJson | MissingPath =>
      log (ErrorGettingOffers (get_search_id search));; mret []
    end
  end.

(** [not self.redis_client or not self.redis_client.exists(key)] *)
Definition offer_is_new (key : pystr) (self : JobMonitor) : bool :=
  match redis_client self with
  | Some r => negb (r_exists key r)
  | None => true
  end.

(** [if self.redis_client: self.redis_client.hmset(key, offer_data)] *)
Definition record_offer (key : pystr) (offer_data : OfferData.t) : M unit :=
  self ← get_self;
  match redis_client self with
  | Some r =>
    modify (with_redis (Some (r_hmset key offer_data r)));; emit (Hmset key offer_data)
  | None => mret ()
  end.

(** The body of the [for] loop of [process_offers]; the offer's key is
    computed before the [try]. *)
Definition process_offer (search : JobSearch) (offer : Offer.t) : M unit :=
  group_id ← lift (getitem "groupId" (Offer.groupId offer));
  let offer_id := get_search_id search ++ colon :: group_id in
  try_except
    (self ← get_self;
     if offer_is_new (py "offer:" ++ offer_id) self then
       offer_data ← lift (build_offer_data offer);
       record_offer (py "offer:" ++ offer_id) offer_data;;
       technologies ← lift (getitem "technologies" (Offer.technologies offer));
       positionLevels ← lift (getitem "positionLevels" (Offer.positionLevels offer));
       send_telegram_alert (job_of offer_data technologies positionLevels) search
     else mret ())
    (λ e, log (ErrorProcessingOffer offer_id e)).

Fixpoint process_offers (offers : list Offer.t) (search : JobSearch) : M unit :=
  match offers with
  | [] => mret ()
  | offer :: rest => process_offer search offer;; process_offers rest search
  end.

(** The [for search in self.searches.values()] loop of [run]. *)
Fixpoint poll (todo : list JobSearch) : M unit :=
  match todo with
  | [] => mret ()
  | search :: rest =>
    offers ← get_job_offers search;
    match offers with
    | _ :: _ =>
      process_offers offers search;;
      log (InfoProcessed (length offers) (get_search_id search))
    | [] => mret ()
    end;;
    sleep 1;;
    poll rest
  end.

(** One turn of the [while True] loop of [run]. *)
Definition run_cycle : M unit :=
  self ← get_self;
  try_except
    (poll (values (searches self));;
     sleep (check_interval self))
    (λ e, log (ErrorOccurred e);; sleep (check_interval self)).

(** The first [n] turns of [run]; the loop itself never ends. *)
Fixpoint run (n : nat) : M unit :=
  match n with
  | O => mret ()
  | S n' => run_cycle;; run n'
  end.

End Monitor.

(** ** Vocabulary of the statements *)

(** The alert sent for an offer whose snapshot is [d]. *)
Definition alert_of (offer : Offer.t) (d : OfferData.t) (search : JobSearch) : pystr :=
  alert_message
    (job_of d (default [] (Offer.technologies offer))
              (default [] (Offer.positionLevels offer))) search.

(** The monitor after the alert for [offer] went out from [self]. *)
Definition alerted (bot_send_message : list event → pystr → pystr → bool)
    (offer : Offer.t) (d : OfferData.t) (search : JobSearch)
    (self : JobMonitor) : JobMonitor :=
  let text := alert_of offer d search in
  let delivered := bot_send_message (trace self) (chat_id self) text in
  with_event (Log (if delivered then InfoSentAlert (OfferData.jobTitle d)
                   else ErrorSendingAlert))
    (with_event (SendMessage (chat_id self) text delivered) self).

(** The monitor after [key] was written. *)
Definition recorded (key : pystr) (d : OfferData.t) (r : redis) (self : JobMonitor)
  : JobMonitor :=
  with_event (Hmset key d) (with_redis (Some (r_hmset key d r)) self).

Definition new_events (before after : JobMonitor) : list event :=
  drop (length (trace before)) (trace after).

(** The store is there and holds a record under [key]. *)
Definition seen (key : pystr) (self : JobMonitor) : Prop :=
  ∃ r, redis_client self = Some r ∧ r_exists key r = true.

Definition keeps (key : pystr) {A} (m : M A) : Prop :=
  ∀ self, seen key self → seen key (m self).2.

(** Whatever the monitor does next: any of its methods, any number of
    polling cycles. *)
Inductive method_call (bot_send_message : list event → pystr → pystr → bool)
    (fetch_page : list event → JobSearch → page) : JobMonitor → JobMonitor → Prop :=
| call_add_search p c self :
    method_call bot_send_message fetch_page self (exec (add_search p c) self)
| call_remove_search p c self :
    method_call bot_send_message fetch_page self (exec (remove_search p c) self)
| call_setup self :
    method_call bot_send_message fetch_page self (exec setup self)
| call_process_offers offers search self :
    method_call bot_send_message fetch_page self
      (exec (process_offers bot_send_message offers search) self)
| call_run n self :
    method_call bot_send_message fetch_page self
      (exec (run bot_send_message fetch_page n) self).

Definition later bot_send_message fetch_page : JobMonitor → JobMonitor → Prop :=
  rtc (method_call bot_send_message fetch_page).

(** The same call made in [n] successive cycles. *)
Fixpoint times {A} (n : nat) (m : M A) (self : JobMonitor) : JobMonitor :=
  match n with
  | O => self
  | S n' => exec m (times n' m self)
  end.


(** ** Sample data *)

Definition demo_listing : Listing.t :=
  {| Listing.displayWorkplace := Some (py "Wroclaw");
     Listing.offerAbsoluteUri := Some (py "https://www.pracuj.pl/praca/devops,oferta,42") |}.

Definition demo_offer : Offer.t :=
  {| Offer.groupId := Some (py "42");
     Offer.companyName := Some (py "ACME");
     Offer.jobTitle := Some (py "DevOps Engineer");
     Offer.lastPublicated := Some (py "2024-05-06T07:08:09Z");
     Offer.technologies := Some [py "AWS"; py "Terraform"];
     Offer.offers := Some [demo_listing];
     Offer.positionLevels := Some [py "Senior"];
     Offer.salaryDisplayText := None |}.

Definition demo_offer_paid : Offer.t :=
  {| Offer.groupId := Some (py "43");
     Offer.companyName := Some (py "ACME");
     Offer.jobTitle := Some (py "Cloud Engineer");
     Offer.lastPublicated := Some (py "2024-05-06T07:08:09Z");
     Offer.technologies := Some [py "GCP"];
     Offer.offers := Some [demo_listing];
     Offer.positionLevels := Some [py "Mid"; py "Senior"];
     Offer.salaryDisplayText := Some (py "20 000 zl") |}.

(** An offer record without [companyName], one with an empty [offers] list,
    and one without [groupId]. *)
Definition demo_offer_broken : Offer.t :=
  {| Offer.groupId := Some (py "44");
     Offer.companyName := None;
     Offer.jobTitle := Some (py "DevOps Engineer");
     Offer.lastPublicated := Some (py "2024-05-06T07:08:09Z");
     Offer.technologies := Some [];
     Offer.offers := Some [demo_listing];
     Offer.positionLevels := Some [];
     Offer.salaryDisplayText := None |}.

Definition demo_offer_unlisted : Offer.t :=
  {| Offer.groupId := Some (py "45");
     Offer.companyName := Some (py "ACME");
     Offer.jobTitle := Some (py "DevOps Engineer");
     Offer.lastPublicated := Some (py "2024-05-06T07:08:09Z");
     Offer.technologies := Some [];
     Offer.offers := Some [];
     Offer.positionLevels := Some [];
     Offer.salaryDisplayText := None |}.

Definition demo_offer_anonymous : Offer.t :=
  {| Offer.groupId := None;
     Offer.companyName := Some (py "ACME");
     Offer.jobTitle := Some (py "DevOps Engineer");
     Offer.lastPublicated := Some (py "2024-05-06T07:08:09Z");
     Offer.technologies := Some [];
     Offer.offers := Some [demo_listing];
     Offer.positionLevels := Some [];
     Offer.salaryDisplayText := None |}.

Definition demo_data : OfferData.t :=
  {| OfferData.companyName := py "ACME";
     OfferData.jobTitle := py "DevOps Engineer";
     OfferData.lastPublicated := py "2024-05-06T07:08:09Z";
     OfferData.technologies := py "AWS,Terraform";
     OfferData.displayWorkplace := py "Wroclaw";
     OfferData.offerAbsoluteUri := py "https://www.pracuj.pl/praca/devops,oferta,42";
     OfferData.positionLevels := py "Senior";
     OfferData.salaryDisplayText := [] |}.

Definition demo_search : JobSearch :=
  {| position := py "DevOps Engineer"; city := Some (py "Wroclaw") |}.

Definition empty_redis : redis := {| job_searches := ∅; hashes := ∅ |}.

Definition demo_monitor (r : option redis) : JobMonitor :=
  {| redis_client := r; chat_id := py "1234"; check_interval := 300;
     searches := []; trace := [] |}.

Definition bot_up : list event → pystr → pystr → bool := λ _ _ _, true.
Definition bot_down : list event → pystr → pystr → bool := λ _ _ _, false.
Definition site_down : list event → JobSearch → page := λ _ _, RequestFailed.

Definition site_down_for (bad : JobSearch) (offers : list Offer.t)
  : list event → JobSearch → page :=
  λ _ search, if decide (search = bad) then RequestFailed else GroupedOffers offers.

(** The characters a quoted string is made of. *)
Definition quoted_char (c : N) : bool := always_safe c || (c =? 0x2F) || (c =? 0x25).

(** A string [str.encode] accepts: code points of the Unicode range that are
    no surrogates. *)
Definition scalar (c : N) : Prop := c < 0x110000 ∧ ¬ (0xD800 ≤ c ∧ c ≤ 0xDFFF).

(** Printable ASCII without the space. *)
Definition plain_char (c : N) : Prop := 0x20 < c ∧ c < 0x7F.

(** The city as [get_url] and [get_search_id] look at it. *)
Definition city_text (self : JobSearch) : pystr :=
  if truthy (city self) then default [] (city self) else [].

(** ** Vocabulary for the registry *)

Definition search_of (p : pystr) (c : option pystr) : JobSearch :=
  {| position := p; city := c |}.

Definition keys (d : list (pystr * JobSearch)) : list pystr := map fst d.

(** Every entry is filed under the identifier of its search, and no
    identifier is there twice. *)
Definition registry_ok (d : list (pystr * JobSearch)) : Prop :=
  NoDup (keys d) ∧ Forall (λ kv, kv.1 = get_search_id kv.2) d.

(** What the store has under [job_searches], if there is a store. *)
Definition saved (self : JobMonitor) : option (gset pystr) :=
  job_searches <$> redis_client self.

(** Every search of the registry is also saved in the store, when there is
    one. *)
Definition all_saved (self : JobMonitor) : Prop :=
  ∀ r k, redis_client self = Some r →
         is_Some (dict_get k (searches self)) → k ∈ job_searches r.

(** ** Vocabulary for the loop *)

(** A search for which [get_url] gives an address. *)
Definition has_url (search : JobSearch) : bool := bool_decide (is_Some (get_url search)).

(** The searches fetched and the keys written, as a trace shows them. *)
Definition fetched (t : list event) : list JobSearch :=
  omap (λ e, match e with Get search => Some search | _ => None end) t.

Definition written_keys (t : list event) : list pystr :=
  omap (λ e, match e with Hmset key _ => Some key | _ => None end) t.

(** The key of an offer in the store. *)
Definition store_key (search : JobSearch) (g : pystr) : pystr :=
  py "offer:" ++ offer_id_of search g.

(** The record the store holds under [key], if any. *)
Definition stored (key : pystr) (self : JobMonitor) : option OfferData.t :=
  r ← redis_client self; hashes r !! key.

(** The same offer with another title, and a monitor whose store has the
    record of [demo_offer]. *)
Definition demo_offer_retitled : Offer.t :=
  {| Offer.groupId := Some (py "42");
     Offer.companyName := Some (py "ACME");
     Offer.jobTitle := Some (py "Senior DevOps Engineer");
     Offer.lastPublicated := Some (py "2024-06-01T00:00:00Z");
     Offer.technologies := Some [py "AWS"];
     Offer.offers := Some [demo_listing];
     Offer.positionLevels := Some [py "Senior"];
     Offer.salaryDisplayText := Some (py "25 000 zl") |}.

Definition demo_monitor_seen : JobMonitor :=
  demo_monitor (Some {| job_searches := ∅;
                        hashes := {[ store_key demo_search (py "42") := demo_data ]} |}).

(** The commands that change the store. *)
Definition is_store_event (e : event) : bool :=
  match e with
  | Hmset _ _ | Sadd _ | Srem _ => true
  | _ => false
  end.

(** An event that is no message, or a message to [chat]. *)
Definition sent_to (chat : pystr) (e : event) : Prop :=
  match e with
  | SendMessage c _ _ => c = chat
  | _ => True
  end.

(** The site serves the same offers for every search. *)
Definition site_with (offers : list Offer.t) : list event → JobSearch → page :=
  λ _ _, GroupedOffers offers.

(** Arithmetic with division, and boolean tests read as facts. *)
Ltac div_lia := Z.to_euclidean_division_equations; lia.

Ltac bool_arith :=
  repeat match goal with
  | H : _ && _ = true |- _ => apply andb_true_iff in H; destruct H
  | H : _ || _ = true |- _ => apply orb_true_iff in H; destruct H
  | H : _ && _ = false |- _ => apply andb_false_iff in H; destruct H
  | H : _ || _ = false |- _ => apply orb_false_iff in H; destruct H
  | H : (_ <? _) = true |- _ => apply N.ltb_lt in H
  | H : (_ <? _) = false |- _ => apply N.ltb_ge in H
  | H : (_ <=? _) = true |- _ => apply N.leb_le in H
  | H : (_ <=? _) = false |- _ => apply N.leb_gt in H
  | H : (_ =? _) = true |- _ => apply N.eqb_eq in H
  | H : (_ =? _) = false |- _ => apply N.eqb_neq in H
  end.

(** * Properties *)

Ltac unfold_m :=
  unfold process_offer, record_offer, send_telegram_alert, get_job_offers,
    add_search, remove_search, sleep, log, emit, modify, get_self, lift,
    try_except, exec, mbind, M_bind, mret, M_ret in *.

Create HintDb keeps.

(** ** Stepping through the monad *)

Lemma build_offer_data_inv offer d :
  build_offer_data offer = Ok d →
  ∃ cn jt lp ts li lis dw uri pls,
    Offer.companyName offer = Some cn ∧ Offer.jobTitle offer = Some jt
    ∧ Offer.lastPublicated offer = Some lp ∧ Offer.technologies offer = Some ts
    ∧ Offer.offers offer = Some (li :: lis)
    ∧ Listing.displayWorkplace li = Some dw ∧ Listing.offerAbsoluteUri li = Some uri
    ∧ Offer.positionLevels offer = Some pls
    ∧ d = {| OfferData.companyName := cn; OfferData.jobTitle := jt;
             OfferData.lastPublicated := lp;
             OfferData.technologies := join (py ",") ts;
             OfferData.displayWorkplace := dw; OfferData.offerAbsoluteUri := uri;
             OfferData.positionLevels := join (py ",") pls;
             OfferData.salaryDisplayText := default [] (Offer.salaryDisplayText offer) |}.
Proof.
  unfold build_offer_data. intros H.
  destruct (Offer.companyName offer) as [cn|]; [|discriminate].
  destruct (Offer.jobTitle offer) as [jt|]; [|discriminate].
  destruct (Offer.lastPublicated offer) as [lp|]; [|discriminate].
  destruct (Offer.technologies offer) as [ts|]; [|discriminate].
  destruct (Offer.offers offer) as [[|li lis]|]; try discriminate.
  simpl in H.
  destruct (Listing.displayWorkplace li) as [dw|] eqn:Hdw; [|discriminate].
  destruct (Listing.offerAbsoluteUri li) as [uri|] eqn:Huri; [|discriminate].
  destruct (Offer.positionLevels offer) as [pls|]; [|discriminate].
  simpl in H. inversion H. exists cn, jt, lp, ts, li, lis, dw, uri, pls. by repeat split.
Qed.

Lemma build_offer_data_fields offer d :
  build_offer_data offer = Ok d →
  ∃ technologies positionLevels,
    Offer.technologies offer = Some technologies
    ∧ Offer.positionLevels offer = Some positionLevels.
Proof.
  intros H. apply build_offer_data_inv in H.
  destruct H as (?&?&?&ts&?&?&?&?&pls&?&?&?&?&?&?&?&?&?). eauto.
Qed.

Lemma build_offer_data_salary offer d :
  build_offer_data offer = Ok d →
  OfferData.salaryDisplayText d = default [] (Offer.salaryDisplayText offer).
Proof.
  intros H. apply build_offer_data_inv in H.
  destruct H as (?&?&?&?&?&?&?&?&?&?&?&?&?&?&?&?&?&->). reflexivity.
Qed.

Section Steps.

Variable bot_send_message : list event → pystr → pystr → bool.

Lemma process_offer_no_group_id search offer self :
  Offer.groupId offer = None →
  process_offer bot_send_message search offer self
  = (Raise (KeyError (py "groupId")), self).
Proof. intros H. unfold_m. by rewrite H. Qed.

Lemma process_offer_seen search offer g r self :
  Offer.groupId offer = Some g →
  redis_client self = Some r →
  r_exists (py "offer:" ++ offer_id_of search g) r = true →
  process_offer bot_send_message search offer self = (Ok (), self).
Proof.
  intros Hg Hr Hx. unfold_m. rewrite Hg. cbn.
  unfold offer_is_new, offer_id_of in *. by rewrite Hr, Hx.
Qed.

Lemma process_offer_malformed search offer g e self :
  Offer.groupId offer = Some g →
  offer_is_new (py "offer:" ++ offer_id_of search g) self = true →
  build_offer_data offer = Raise e →
  process_offer bot_send_message search offer self
  = (Ok (), with_event (Log (ErrorProcessingOffer (offer_id_of search g) e)) self).
Proof.
  intros Hg Hn Hb. unfold_m. rewrite Hg. cbn.
  unfold offer_id_of in *. by rewrite Hn, Hb.
Qed.

Lemma process_offer_new_stored search offer g d r self :
  Offer.groupId offer = Some g →
  redis_client self = Some r →
  r_exists (py "offer:" ++ offer_id_of search g) r = false →
  build_offer_data offer = Ok d →
  process_offer bot_send_message search offer self
  = (Ok (), alerted bot_send_message offer d search
              (recorded (py "offer:" ++ offer_id_of search g) d r self)).
Proof.
  intros Hg Hr Hx Hb.
  destruct (build_offer_data_fields _ _ Hb) as (t & p & Ht & Hp).
  unfold_m. rewrite Hg. cbn.
  unfold offer_is_new, offer_id_of, alerted, recorded, alert_of in *.
  rewrite Hr, Hx, Hb. cbn. rewrite Hr, Ht, Hp. cbn.
  by destruct (bot_send_message _ _ _).
Qed.

Lemma process_offer_new_no_store search offer g d self :
  Offer.groupId offer = Some g →
  redis_client self = None →
  build_offer_data offer = Ok d →
  process_offer bot_send_message search offer self
  = (Ok (), alerted bot_send_message offer d search self).
Proof.
  intros Hg Hr Hb.
  destruct (build_offer_data_fields _ _ Hb) as (t & p & Ht & Hp).
  unfold_m. rewrite Hg. cbn.
  unfold offer_is_new, offer_id_of, alerted, alert_of in *.
  rewrite Hr, Hb. cbn. rewrite Hr, Ht, Hp. cbn.
  by destruct (bot_send_message _ _ _).
Qed.

Lemma process_offers_cons offer rest search self :
  process_offers bot_send_message (offer :: rest) search self
  = match process_offer bot_send_message search offer self with
    | (Ok _, self') => process_offers bot_send_message rest search self'
    | (Raise e, self') => (Raise e, self')
    end.
Proof. reflexivity. Qed.

End Steps.

(** ** What is seen stays seen *)

Lemma r_exists_true key r : r_exists key r = true ↔ is_Some (hashes r !! key).
Proof. unfold r_exists. apply bool_decide_eq_true. Qed.

Lemma r_exists_hmset key d r : r_exists key (r_hmset key d r) = true.
Proof. apply r_exists_true. simpl. rewrite lookup_insert_eq. eauto. Qed.

Lemma r_exists_hmset_mono key key' d r :
  r_exists key r = true → r_exists key (r_hmset key' d r) = true.
Proof.
  rewrite !r_exists_true. simpl. intros H.
  destruct (decide (key' = key)) as [->|Hne].
  - rewrite lookup_insert_eq. eauto.
  - by rewrite lookup_insert_ne.
Qed.

Section Keeps.

Variable bot_send_message : list event → pystr → pystr → bool.
Variable fetch_page : list event → JobSearch → page.
Variable key : pystr.

Lemma keeps_ret {A} (a : A) : keeps key (mret a : M A).
Proof. by intros self H. Qed.

Lemma keeps_bind {A B} (m : M A) (f : A → M B) :
  keeps key m → (∀ a, keeps key (f a)) → keeps key (m ≫= f).
Proof.
  intros Hm Hf self H. specialize (Hm self H).
  unfold mbind, M_bind. destruct (m self) as [[a|e] self']; simpl in *.
  - by apply Hf.
  - done.
Qed.

Lemma keeps_try_except {A} (body : M A) (handler : exn → M A) :
  keeps key body → (∀ e, keeps key (handler e)) → keeps key (try_except body handler).
Proof.
  intros Hm Hf self H. specialize (Hm self H).
  unfold try_except. destruct (body self) as [[a|e] self']; simpl in *.
  - done.
  - by apply Hf.
Qed.

Lemma keeps_lift {A} (r : result A) : keeps key (lift r).
Proof. by intros self H. Qed.

Lemma keeps_get_self : keeps key get_self.
Proof. by intros self H. Qed.

Lemma keeps_emit e : keeps key (emit e).
Proof. by intros self H. Qed.

Lemma keeps_with_searches (f : JobMonitor → list (pystr * JobSearch)) :
  keeps key (modify (λ self, with_searches (f self) self)).
Proof. by intros self H. Qed.

Lemma keeps_read {A} (f : JobMonitor → M A) :
  (∀ self, seen key self → seen key (f self self).2) →
  keeps key (get_self ≫= f).
Proof. intros Hf self H. unfold mbind, M_bind, get_self. by apply Hf. Qed.

Local Hint Resolve keeps_ret keeps_lift keeps_get_self keeps_emit keeps_with_searches : keeps.

Lemma keeps_with_redis r :
  r_exists key r = true → keeps key (modify (with_redis (Some r))).
Proof. intros Hx self H. exists r. by split. Qed.

Lemma keeps_add_search p c : keeps key (add_search p c).
Proof.
  unfold add_search. apply keeps_bind; [auto with keeps|intros ?].
  apply keeps_read. intros self H.
  apply keeps_bind; [|intros ?; apply keeps_emit|done].
  destruct H as (r & -> & Hx).
  apply keeps_bind; [by apply keeps_with_redis|intros ?; apply keeps_emit].
Qed.

Lemma keeps_remove_search p c : keeps key (remove_search p c).
Proof.
  unfold remove_search. apply keeps_bind; [auto with keeps|intros ?].
  apply keeps_read. intros self H.
  apply keeps_bind; [|intros ?; apply keeps_emit|done].
  destruct H as (r & -> & Hx).
  apply keeps_bind; [by apply keeps_with_redis|intros ?; apply keeps_emit].
Qed.

Lemma keeps_add_all l : keeps key (add_all l).
Proof.
  induction l as [|[p c] l IH]; simpl; [auto with keeps|].
  apply keeps_bind; [apply keeps_add_search|done].
Qed.

Lemma keeps_setup : keeps key setup.
Proof.
  unfold setup. apply keeps_read. intros self H.
  apply keeps_bind; [| |done].
  - destruct (redis_client self) as [r|]; [|by apply keeps_add_all].
    destruct (elements (job_searches r)); by apply keeps_add_all.
  - intros ?. apply keeps_read. intros self' H'. by apply keeps_emit.
Qed.

Lemma keeps_record_offer key' d : keeps key (record_offer key' d).
Proof.
  unfold record_offer. apply keeps_read. intros self (r & Hr & Hx).
  rewrite Hr.
  apply keeps_bind; [|intros ?; apply keeps_emit|by exists r].
  apply keeps_with_redis. by apply r_exists_hmset_mono.
Qed.

Lemma keeps_send_telegram_alert job search :
  keeps key (send_telegram_alert bot_send_message job search).
Proof.
  unfold send_telegram_alert. apply keeps_read. intros self H.
  apply keeps_bind; [apply keeps_emit| |done].
  intros ?. destruct (bot_send_message _ _ _); apply keeps_emit.
Qed.

Lemma keeps_process_offer search offer :
  keeps key (process_offer bot_send_message search offer).
Proof.
  unfold process_offer. apply keeps_bind; [apply keeps_lift|intros g].
  apply keeps_try_except; [|intros e; apply keeps_emit].
  apply keeps_read. intros self H.
  destruct (offer_is_new _ self); [|done].
  revert self H. apply keeps_bind; [apply keeps_lift|intros d].
  apply keeps_bind; [apply keeps_record_offer|intros ?].
  apply keeps_bind; [apply keeps_lift|intros t].
  apply keeps_bind; [apply keeps_lift|intros p].
  apply keeps_send_telegram_alert.
Qed.

Lemma keeps_process_offers offers search :
  keeps key (process_offers bot_send_message offers search).
Proof.
  induction offers as [|offer rest IH]; simpl; [apply keeps_ret|].
  apply keeps_bind; [apply keeps_process_offer|done].
Qed.

Lemma keeps_sleep seconds : keeps key (sleep seconds).
Proof. unfold sleep. repeat case_match; [apply keeps_lift..|apply keeps_emit]. Qed.

Lemma keeps_get_job_offers search : keeps key (get_job_offers fetch_page search).
Proof.
  unfold get_job_offers. destruct (get_url search) as [url|];
    [|apply keeps_bind; [apply keeps_emit|intros ?; apply keeps_ret]].
  apply keeps_read. intros self H.
  apply keeps_bind; [apply keeps_emit| |done].
  intros ?. destruct (fetch_page _ _);
    first [apply keeps_ret | apply keeps_bind; [apply keeps_emit|intros ?; apply keeps_ret]].
Qed.

Lemma keeps_poll todo : keeps key (poll bot_send_message fetch_page todo).
Proof.
  induction todo as [|search rest IH]; simpl; [apply keeps_ret|].
  apply keeps_bind; [apply keeps_get_job_offers|intros offers].
  apply keeps_bind; [|intros ?; apply keeps_bind; [apply keeps_sleep|done]].
  destruct offers; [apply keeps_ret|].
  apply keeps_bind; [apply keeps_process_offers|intros ?; apply keeps_emit].
Qed.

Lemma keeps_run_cycle : keeps key (run_cycle bot_send_message fetch_page).
Proof.
  unfold run_cycle. apply keeps_read. intros self H.
  apply keeps_try_except; [| |done].
  - apply keeps_bind; [apply keeps_poll|intros ?; apply keeps_sleep].
  - intros e. apply keeps_bind; [apply keeps_emit|intros ?; apply keeps_sleep].
Qed.

Lemma keeps_run n : keeps key (run bot_send_message fetch_page n).
Proof.
  induction n as [|n IH]; simpl; [apply keeps_ret|].
  apply keeps_bind; [apply keeps_run_cycle|done].
Qed.

End Keeps.

Lemma seen_later bot_send_message fetch_page key self self' :
  later bot_send_message fetch_page self self' → seen key self → seen key self'.
Proof.
  induction 1 as [|self mid self' Hcall _ IH]; [done|].
  intros H. apply IH. clear IH.
  destruct Hcall; unfold exec.
  - by apply keeps_add_search.
  - by apply keeps_remove_search.
  - by apply keeps_setup.
  - by apply keeps_process_offers.
  - by apply keeps_run.
Qed.

Lemma trace_alerted bot offer d search self :
  trace (alerted bot offer d search self)
  = trace self
    ++ [SendMessage (chat_id self) (alert_of offer d search)
          (bot (trace self) (chat_id self) (alert_of offer d search));
        Log (if bot (trace self) (chat_id self) (alert_of offer d search)
             then InfoSentAlert (OfferData.jobTitle d) else ErrorSendingAlert)].
Proof. unfold alerted. simpl. by rewrite <- app_assoc. Qed.

Lemma new_events_app self self' l :
  trace self' = trace self ++ l → new_events self self' = l.
Proof. intros H. unfold new_events. rewrite H. apply drop_app_length. Qed.

(** C1. A well-formed offer whose key the store does not hold yet is written
    once, under [offer:<offerKey>], and notified once; whatever the monitor
    does afterwards, an offer with the same key is passed over: the monitor
    is left as it was, with no write and no notification. *)
Theorem first_sighting_recorded_and_notified_once
    bot_send_message fetch_page self r offer search g d :
  redis_client self = Some r →
  Offer.groupId offer = Some g →
  build_offer_data offer = Ok d →
  r_exists (py "offer:" ++ offer_id_of search g) r = false →
  let self1 := exec (process_offers bot_send_message [offer] search) self in
  writes (new_events self self1) = [Hmset (py "offer:" ++ offer_id_of search g) d]
  ∧ (∃ delivered,
       notifications (new_events self self1)
       = [SendMessage (chat_id self) (alert_of offer d search) delivered])
  ∧ ∀ self2 offer' search' g',
      later bot_send_message fetch_page self1 self2 →
      Offer.groupId offer' = Some g' →
      offer_id_of search' g' = offer_id_of search g →
      process_offers bot_send_message [offer'] search' self2 = (Ok (), self2).
Proof.
  intros Hr Hg Hb Hx self1.
  assert (Hself1 : self1 = alerted bot_send_message offer d search
            (recorded (py "offer:" ++ offer_id_of search g) d r self)).
  { unfold self1, exec. rewrite process_offers_cons.
    by rewrite (process_offer_new_stored _ _ _ g d r). }
  pose proof (trace_alerted bot_send_message offer d search
                (recorded (py "offer:" ++ offer_id_of search g) d r self)) as Ht.
  rewrite <- Hself1 in Ht. simpl in Ht. rewrite <- app_assoc in Ht. simpl in Ht.
  apply new_events_app in Ht. rewrite Ht.
  split; [done|]. split; [by eauto|].
  intros self2 offer' search' g' Hlater Hg' Hid.
  assert (Hseen : seen (py "offer:" ++ offer_id_of search g) self1).
  { rewrite Hself1. eexists. split; [reflexivity|]. apply r_exists_hmset. }
  apply (seen_later _ _ _ _ _ Hlater) in Hseen. destruct Hseen as (r2 & Hr2 & Hx2).
  rewrite process_offers_cons.
  rewrite (process_offer_seen _ _ _ g' r2); [done..|by rewrite Hid].
Qed.

Lemma first_sighting_recorded_and_notified_once_witness :
  redis_client (demo_monitor (Some empty_redis)) = Some empty_redis
  ∧ Offer.groupId demo_offer = Some (py "42")
  ∧ build_offer_data demo_offer = Ok demo_data
  ∧ r_exists (py "offer:" ++ offer_id_of demo_search (py "42")) empty_redis = false
  ∧ writes (new_events (demo_monitor (Some empty_redis))
              (exec (process_offers bot_up [demo_offer] demo_search)
                 (demo_monitor (Some empty_redis))))
    = [Hmset (py "offer:devops engineer:wroclaw:42") demo_data].
Proof.
  assert (H1 : redis_client (demo_monitor (Some empty_redis)) = Some empty_redis)
    by reflexivity.
  assert (H2 : Offer.groupId demo_offer = Some (py "42")) by reflexivity.
  assert (H3 : build_offer_data demo_offer = Ok demo_data) by (vm_compute; reflexivity).
  assert (H4 : r_exists (py "offer:" ++ offer_id_of demo_search (py "42")) empty_redis
               = false) by (vm_compute; reflexivity).
  split; [exact H1|]. split; [exact H2|]. split; [exact H3|]. split; [exact H4|].
  exact (proj1 (first_sighting_recorded_and_notified_once bot_up site_down
                  _ _ _ _ _ _ H1 H2 H3 H4)).
Defined.



Lemma no_store_step bot_send_message self offer search g d :
  redis_client self = None →
  Offer.groupId offer = Some g →
  build_offer_data offer = Ok d →
  exec (process_offers bot_send_message [offer] search) self
  = alerted bot_send_message offer d search self.
Proof.
  intros Hr Hg Hb. unfold exec. rewrite process_offers_cons.
  by rewrite (process_offer_new_no_store _ _ _ g d).
Qed.

Lemma no_store_cycles bot_send_message self offer search g d n :
  redis_client self = None →
  Offer.groupId offer = Some g →
  build_offer_data offer = Ok d →
  let selfn := times n (process_offers bot_send_message [offer] search) self in
  ∃ l, trace selfn = trace self ++ l
       ∧ redis_client selfn = None
       ∧ writes l = []
       ∧ length (notifications l) = n.
Proof.
  intros Hr Hg Hb. induction n as [|n IH]; cbn [times].
  - exists []. by rewrite app_nil_r.
  - destruct IH as (l & Ht & Hr' & Hw & Hn).
    set (prev := times n _ self) in *.
    rewrite (no_store_step _ _ _ _ g d) by done.
    rewrite trace_alerted, Ht, <- app_assoc.
    eexists. split; [reflexivity|]. split; [done|].
    unfold writes, notifications in *.
    rewrite !List.filter_app, Hw. simpl. split; [done|].
    rewrite length_app. simpl. lia.
Qed.

(** C3. Without a store client every key counts as new and recording does
    nothing: an offer processed in [n] successive cycles is notified [n]
    times, and nothing is ever written. *)
Theorem without_store_every_cycle_notifies
    bot_send_message self offer search g d n :
  redis_client self = None →
  Offer.groupId offer = Some g →
  build_offer_data offer = Ok d →
  let selfn := times n (process_offers bot_send_message [offer] search) self in
  (∀ key, offer_is_new key selfn = true)
  ∧ (∀ key data, record_offer key data selfn = (Ok (), selfn))
  ∧ writes (new_events self selfn) = []
  ∧ length (notifications (new_events self selfn)) = n.
Proof.
  intros Hr Hg Hb selfn.
  destruct (no_store_cycles bot_send_message self offer search g d n Hr Hg Hb)
    as (l & Ht & Hr' & Hw & Hn).
  fold selfn in Ht, Hr'.
  rewrite (new_events_app _ _ _ Ht).
  repeat split; try done.
  - intros key. unfold offer_is_new. by rewrite Hr'.
  - intros key data. unfold_m. by rewrite Hr'.
Qed.

Lemma without_store_every_cycle_notifies_witness :
  redis_client (demo_monitor None) = None
  ∧ Offer.groupId demo_offer = Some (py "42")
  ∧ build_offer_data demo_offer = Ok demo_data
  ∧ length (notifications (new_events (demo_monitor None)
      (times 3 (process_offers bot_up [demo_offer] demo_search)
         (demo_monitor None)))) = 3%nat.
Proof.
  assert (H1 : redis_client (demo_monitor None) = None) by reflexivity.
  assert (H2 : Offer.groupId demo_offer = Some (py "42")) by reflexivity.
  assert (H3 : build_offer_data demo_offer = Ok demo_data) by (vm_compute; reflexivity).
  split; [exact H1|]. split; [exact H2|]. split; [exact H3|].
  exact (proj2 (proj2 (proj2
    (without_store_every_cycle_notifies bot_up _ _ demo_search _ _ 3%nat H1 H2 H3)))).
Defined.



(** C10. An offer that has its [groupId] but whose snapshot cannot be built
    (a field of the record is missing) is skipped: it leaves at most the log
    line of the error, nothing is written, nothing is sent, and the loop goes
    on with the offers after it; an offer that follows, well formed and new,
    is recorded and notified as if the failed one had not been there. *)
Theorem malformed_offer_skipped bot_send_message self offer rest search g e :
  Offer.groupId offer = Some g →
  build_offer_data offer = Raise e →
  ∃ self1,
    self1 = (if offer_is_new (store_key search g) self
             then with_event (Log (ErrorProcessingOffer (offer_id_of search g) e)) self
             else self)
    ∧ process_offers bot_send_message (offer :: rest) search self
      = process_offers bot_send_message rest search self1
    ∧ redis_client self1 = redis_client self
    ∧ writes (new_events self self1) = []
    ∧ notifications (new_events self self1) = []
    ∧ ∀ next g' d' more,
        Offer.groupId next = Some g' →
        build_offer_data next = Ok d' →
        offer_is_new (store_key search g') self = true →
        process_offers bot_send_message (offer :: next :: more) search self
        = process_offers bot_send_message more search
            (alerted bot_send_message next d' search
               match redis_client self with
               | Some r => recorded (store_key search g') d' r self1
               | None => self1
               end).
Proof.
  intros Hg Hb. eexists. split; [reflexivity|].
  assert (Hstep : process_offer bot_send_message search offer self
                  = (Ok (), if offer_is_new (store_key search g) self
                            then with_event
                                   (Log (ErrorProcessingOffer (offer_id_of search g) e)) self
                            else self)).
  { unfold store_key. destruct (offer_is_new _ self) eqn:Hnew.
    - by apply (process_offer_malformed _ _ _ g e).
    - unfold offer_is_new in Hnew.
      destruct (redis_client self) as [r|] eqn:Hr; [|discriminate].
      apply negb_false_iff in Hnew. by apply (process_offer_seen _ _ _ g r). }
  split; [by rewrite process_offers_cons, Hstep|].
  split; [by destruct (offer_is_new _ self)|].
  split; [|split].
  - destruct (offer_is_new _ self).
    + by rewrite (new_events_app self _
                    [Log (ErrorProcessingOffer (offer_id_of search g) e)]).
    + rewrite (new_events_app self self []); [done|]. by rewrite app_nil_r.
  - destruct (offer_is_new _ self).
    + by rewrite (new_events_app self _
                    [Log (ErrorProcessingOffer (offer_id_of search g) e)]).
    + rewrite (new_events_app self self []); [done|]. by rewrite app_nil_r.
  - intros next g' d' more Hg' Hb' Hnew'.
    rewrite process_offers_cons, Hstep, process_offers_cons.
    set (self1 := if offer_is_new (store_key search g) self then _ else self).
    assert (Hr1 : redis_client self1 = redis_client self)
      by (unfold self1; by destruct (offer_is_new _ self)).
    unfold offer_is_new, store_key in Hnew'.
    destruct (redis_client self) as [r|] eqn:Hr.
    + apply negb_true_iff in Hnew'.
      by rewrite (process_offer_new_stored _ _ _ g' d' r).
    + by rewrite (process_offer_new_no_store _ _ _ g' d').
Qed.

Example build_offer_data_without_listing :
  build_offer_data demo_offer_unlisted = Raise IndexError.
Proof. reflexivity. Qed.

(** The key of an offer is computed before the [try]: a record without
    [groupId] ends the loop over the offers, and the cycle with it. *)
Example offer_without_group_id_ends_cycle :
  process_offers bot_up [demo_offer_anonymous; demo_offer] demo_search
    (demo_monitor (Some empty_redis))
  = (Raise (KeyError (py "groupId")), demo_monitor (Some empty_redis))
  ∧ trace (exec (run_cycle bot_up (λ _ _, GroupedOffers [demo_offer_anonymous; demo_offer]))
             (exec (add_all [(py "a", None); (py "b", None)]) (demo_monitor None)))
    = [Log (InfoAdded (py "a")); Log (InfoAdded (py "b"));
       Get {| position := py "a"; city := None |};
       Log (ErrorOccurred (KeyError (py "groupId"))); Sleep 300].
Proof. split; vm_compute; reflexivity. Qed.

Lemma malformed_offer_skipped_witness :
  Offer.groupId demo_offer_broken = Some (py "44")
  ∧ build_offer_data demo_offer_broken = Raise (KeyError (py "companyName"))
  ∧ process_offers bot_up [demo_offer_broken; demo_offer] demo_search
      (demo_monitor (Some empty_redis))
    = (Ok (),
       alerted bot_up demo_offer demo_data demo_search
         (recorded (store_key demo_search (py "42")) demo_data empty_redis
            (with_event
               (Log (ErrorProcessingOffer (offer_id_of demo_search (py "44"))
                       (KeyError (py "companyName"))))
               (demo_monitor (Some empty_redis))))).
Proof.
  assert (H1 : Offer.groupId demo_offer_broken = Some (py "44")) by reflexivity.
  assert (H2 : build_offer_data demo_offer_broken = Raise (KeyError (py "companyName")))
    by (vm_compute; reflexivity).
  split; [exact H1|]. split; [exact H2|].
  destruct (malformed_offer_skipped bot_up (demo_monitor (Some empty_redis))
              demo_offer_broken [demo_offer] demo_search _ _ H1 H2)
    as (self1 & -> & _ & _ & _ & _ & Hnext).
  rewrite (Hnext demo_offer (py "42") demo_data []);
    [vm_compute; reflexivity|reflexivity|vm_compute; reflexivity|vm_compute; reflexivity].
Defined.

(** ** The alert text *)

Lemma starts_with_app (needle post : pystr) : starts_with needle (needle ++ post) = true.
Proof. induction needle as [|c n IH]; simpl; [done|]. by rewrite N.eqb_refl. Qed.

Lemma contains_here (hay needle : pystr) :
  starts_with needle hay = true → contains hay needle = true.
Proof. intros H. destruct hay; simpl; by rewrite H. Qed.

Lemma contains_skip (pre hay needle : pystr) :
  contains hay needle = true → contains (pre ++ hay) needle = true.
Proof.
  intros H. induction pre as [|c pre IH]; simpl; [done|].
  rewrite IH. apply orb_true_r.
Qed.

Lemma contains_middle (pre needle post : pystr) :
  contains (pre ++ needle ++ post) needle = true.
Proof. apply contains_skip, contains_here, starts_with_app. Qed.

(** The alert reads the salary with a default, for a [job] without the
    key. *)
Lemma salary_line_default job :
  Job.salaryDisplayText job = None → salary_line job = py "💰 Salary: Not specified".
Proof. intros H. unfold salary_line. rewrite H. vm_compute. reflexivity. Qed.

(** [process_offers] hands over a [job] that always has the key. *)
Lemma salary_line_of_snapshot offer d search :
  build_offer_data offer = Ok d →
  ∃ pre post,
    alert_of offer d search
    = pre ++ (py "💰 Salary: " ++ default [] (Offer.salaryDisplayText offer)) ++ post.
Proof.
  intros Hb. rewrite <- (build_offer_data_salary _ _ Hb).
  unfold alert_of, alert_message, salary_line. simpl Job.salaryDisplayText.
  cbn [default from_option].
  set (job := job_of d _ _).
  exists (py "🚨 New job offer: " ++ Job.jobTitle job ++ py "!" ++ [newline; newline]
          ++ py "🔍 Search: " ++ position search
          ++ (if truthy (city search) then py " in " ++ default [] (city search) else [])
          ++ [newline; newline]
          ++ py "🏢 Company: " ++ Job.companyName job ++ [newline]
          ++ py "📍 Location: " ++ Job.displayWorkplace job ++ [newline]
          ++ py "💼 Level: " ++ join (py ", ") (Job.positionLevels job) ++ [newline]
          ++ py "🔧 Technologies: " ++ join (py ", ") (Job.technologies job) ++ [newline]).
  eexists. rewrite <- !app_assoc. reflexivity.
Qed.

(** A salary text that the record has is in the alert. *)
Lemma salary_text_in_alert offer d search v :
  build_offer_data offer = Ok d →
  Offer.salaryDisplayText offer = Some v →
  contains (alert_of offer d search) v = true.
Proof.
  intros Hb Hv. destruct (salary_line_of_snapshot offer d search Hb) as (pre & post & ->).
  rewrite Hv. change (default [] (Some v)) with v.
  replace (pre ++ (py "💰 Salary: " ++ v) ++ post)
    with ((pre ++ py "💰 Salary: ") ++ v ++ post) by (by rewrite <- !app_assoc).
  apply contains_middle.
Qed.

(** C8, at an offer record without [salaryDisplayText]: the alert that goes
    out has an empty salary line, directly followed by the link line, and the
    words [Not specified] are nowhere in it. *)
Theorem alert_for_offer_without_salary :
  Offer.salaryDisplayText demo_offer = None
  ∧ ∃ text,
      notifications (trace (exec (process_offers bot_up [demo_offer] demo_search)
                              (demo_monitor (Some empty_redis))))
      = [SendMessage (py "1234") text true]
      ∧ contains text (py "💰 Salary: " ++ [newline] ++ py "🔗 Link: ") = true
      ∧ contains text (py "Not specified") = false.
Proof.
  split; [reflexivity|]. eexists. split; [vm_compute; reflexivity|].
  split; vm_compute; reflexivity.
Qed.

(** ** Search identifiers *)

Lemma forall_below (n : nat) (P : N → bool) :
  forallb P (map N.of_nat (seq 0 n)) = true → ∀ c, c < N.of_nat n → P c = true.
Proof.
  intros H c Hc. rewrite forallb_forall in H. apply H.
  apply in_map_iff. exists (N.to_nat c). split; [apply N2Nat.id|].
  apply in_seq. lia.
Qed.

Lemma case_special_in t c v : case_special t c = Some v → In v (map snd t).
Proof.
  induction t as [|[k w] t IH]; [done|]. cbn [case_special map snd].
  destruct (k =? c); [|by right; apply IH].
  intros [= ->]. by left.
Qed.

Lemma case_map_nonempty special ranges c :
  forallb (λ kv, match kv.2 with [] => false | _ => true end) special = true →
  case_map special ranges c ≠ [].
Proof.
  intros H. unfold case_map. destruct (case_special special c) as [v|] eqn:E.
  - apply case_special_in, in_map_iff in E. destruct E as ([k w] & <- & Hin).
    rewrite forallb_forall in H. apply H in Hin. by destruct w.
  - by destruct (case_delta ranges c).
Qed.


Lemma lower_cp_nonempty c : lower_cp c ≠ [].
Proof. apply case_map_nonempty. vm_compute. reflexivity. Qed.

Lemma lower_cp_colon_eq : lower_cp colon = [colon].
Proof. vm_compute. reflexivity. Qed.

Lemma sigma_free_cons c s : sigma_free (c :: s) ↔ c ≠ capital_sigma ∧ sigma_free s.
Proof.
  unfold sigma_free. rewrite not_elem_of_cons. split; intros [H1 H2]; split; congruence.
Qed.

Lemma sigma_free_app s t : sigma_free (s ++ t) ↔ sigma_free s ∧ sigma_free t.
Proof. unfold sigma_free. apply not_elem_of_app. Qed.

(** Without a capital sigma lower-casing goes character by character. *)
Lemma lower_from_sigma_free b s : sigma_free s → lower_from b s = flat_map lower_cp s.
Proof.
  revert b. induction s as [|c s IH]; intros b H; [done|].
  apply sigma_free_cons in H as [Hc Hs]. cbn [lower_from flat_map].
  apply N.eqb_neq in Hc. rewrite Hc. by rewrite IH.
Qed.

Lemma lower_sigma_free s : sigma_free s → lower s = flat_map lower_cp s.
Proof. apply lower_from_sigma_free. Qed.

Lemma lower_app s t : sigma_free s → sigma_free t → lower (s ++ t) = lower s ++ lower t.
Proof.
  intros Hs Ht. rewrite !lower_sigma_free by (try apply sigma_free_app; done).
  apply flat_map_app.
Qed.

Lemma lower_colon s t :
  sigma_free s → sigma_free t → lower (s ++ colon :: t) = lower s ++ colon :: lower t.
Proof.
  intros Hs Ht. rewrite lower_app; [|done|by apply sigma_free_cons].
  reflexivity.
Qed.








(** Which characters are restored: up to the end of the Latin Extended-B
    block all but six, [µ], [ß], the dotless [ı], [ŉ], the long [ſ] and
    [ǰ]. *)
Lemma case_stable_latin c :
  c < 0x250 →
  case_stable_cp c = negb (bool_decide (c ∈ [0xB5; 0xDF; 0x131; 0x149; 0x17F; 0x1F0])).
Proof.
  intros Hc.
  assert (H : forallb
                (λ c, bool_decide
                        (case_stable_cp c
                         = negb (bool_decide (c ∈ [0xB5; 0xDF; 0x131; 0x149; 0x17F; 0x1F0]))))
                (map N.of_nat (seq 0 592)) = true) by (vm_compute; reflexivity).
  apply (forall_below 592 _ H c) in Hc. by apply bool_decide_eq_true in Hc.
Qed.




(** The condition on the characters is the one the code forces: a character
    that lower-casing does not restore gives, alone, a position whose
    identifier changes with its case. *)
Lemma case_unstable_differs c :
  sigma_free (upper_cp c) →
  case_stable_cp c = false →
  get_search_id {| position := upper [c]; city := None |}
  ≠ get_search_id {| position := [c]; city := None |}.
Proof.
  intros Hsig Hc. unfold get_search_id. cbn [truthy city position].
  assert (Hne : c ≠ capital_sigma).
  { intros ->. apply Hsig. vm_compute. constructor. }
  assert (Hup : upper [c] = upper_cp c) by (unfold upper; cbn [flat_map]; apply app_nil_r).
  rewrite Hup, (lower_sigma_free (upper_cp c)) by done.
  rewrite (lower_sigma_free [c]) by (apply sigma_free_cons; split; [done|apply not_elem_of_nil]).
  cbn [flat_map]. rewrite app_nil_r.
  unfold case_stable_cp in Hc. apply andb_false_iff in Hc as [Hc|Hc].
  - exfalso. apply (f_equal negb) in Hc. cbn in Hc. apply negb_true_iff in Hc.
    assert (forallb (λ u, negb (u =? capital_sigma)) (upper_cp c) = true); [|congruence].
    apply forallb_forall. intros u Hu. apply negb_true_iff, N.eqb_neq. intros ->.
    by apply Hsig, list_elem_of_In.
  - by apply bool_decide_eq_false in Hc.
Qed.

(** ** Offer keys *)

Lemma app_sep_inj (x : N) (a b g1 g2 : pystr) :
  x ∉ g1 → x ∉ g2 → a ++ x :: g1 = b ++ x :: g2 → a = b ∧ g1 = g2.
Proof.
  intros H1 H2. revert b. induction a as [|y a IH]; intros [|z b] H; simpl in H.
  - by inversion H.
  - inversion H; subst. exfalso. apply H1, elem_of_app. right. constructor.
  - inversion H; subst. exfalso. apply H2, elem_of_app. right. constructor.
  - inversion H as [[Hyz Hab]]. destruct (IH b Hab) as [Ha Hg]. by subst.
Qed.

(** C5, as the code has it: among group ids without a colon, equal offer
    keys come from equal search identifiers and equal group ids. *)
Theorem offer_id_injective search1 g1 search2 g2 :
  colon ∉ g1 → colon ∉ g2 →
  offer_id_of search1 g1 = offer_id_of search2 g2 →
  get_search_id search1 = get_search_id search2 ∧ g1 = g2.
Proof. unfold offer_id_of. apply app_sep_inj. Qed.

Lemma offer_id_injective_witness :
  (colon ∉ py "42")
  ∧ (colon ∉ py "42")
  ∧ offer_id_of demo_search (py "42")
    = offer_id_of {| position := py "DEVOPS ENGINEER"; city := Some (py "WROCLAW") |}
        (py "42")
  ∧ get_search_id demo_search
    = get_search_id {| position := py "DEVOPS ENGINEER"; city := Some (py "WROCLAW") |}.
Proof.
  assert (H1 : colon ∉ py "42").
  { intros Hin. apply list_elem_of_In in Hin. vm_compute in Hin. intuition discriminate. }
  assert (H3 : offer_id_of demo_search (py "42")
               = offer_id_of {| position := py "DEVOPS ENGINEER";
                                city := Some (py "WROCLAW") |} (py "42"))
    by (vm_compute; reflexivity).
  split; [exact H1|]. split; [exact H1|]. split; [exact H3|].
  exact (proj1 (offer_id_injective _ _ _ _ H1 H1 H3)).
Defined.

(** C5 as stated fails: a group id with a colon in it moves the border
    between the search and the offer. *)
Lemma offer_id_collision :
  offer_id_of {| position := py "devops"; city := None |} (py "wroclaw:7")
  = offer_id_of {| position := py "devops"; city := Some (py "wroclaw") |} (py "7")
  ∧ get_search_id {| position := py "devops"; city := None |}
    ≠ get_search_id {| position := py "devops"; city := Some (py "wroclaw") |}
  ∧ py "wroclaw:7" ≠ py "7".
Proof. repeat split; vm_compute; (reflexivity || discriminate). Qed.

(** ** Rebuilding a search from its identifier *)

Lemma split_split_first s :
  split colon s
  = (split_first s).1 :: match (split_first s).2 with
                         | Some r => split colon r
                         | None => []
                         end.
Proof.
  induction s as [|c r IH]; [done|]. simpl.
  destruct (N.eqb c colon); [done|].
  rewrite IH. by destruct (split_first r).
Qed.

(** C6, as the code has it: the position is what is left of the first colon;
    the city, if there is a colon, is what lies between the first colon and
    the next (all that is right of the first colon when there is no other). *)
Theorem parse_saved_segments s :
  parse_saved s
  = ((split_first s).1, (λ r, (split_first r).1) <$> (split_first s).2).
Proof.
  unfold parse_saved. rewrite split_split_first.
  destruct (split_first s) as [left [r|]]; simpl; [|done].
  by rewrite split_split_first.
Qed.

(** C6 as stated fails: of [devops:a:b] the city kept is [a], not [a:b],
    and the search set up from it is registered under [devops:a]. *)
Lemma parse_saved_drops_after_second_colon :
  split_first (py "devops:a:b") = (py "devops", Some (py "a:b"))
  ∧ parse_saved (py "devops:a:b") = (py "devops", Some (py "a"))
  ∧ searches (exec setup (demo_monitor
       (Some {| job_searches := {[ py "devops:a:b" ]}; hashes := ∅ |})))
    = [(py "devops:a", {| position := py "devops"; city := Some (py "a") |})].
Proof. repeat split; vm_compute; reflexivity. Qed.

(** ** Adding a search *)

Lemma dict_get_set k v d : dict_get k (dict_set k v d) = Some v.
Proof.
  induction d as [|[k' v'] d IH]; simpl.
  - by rewrite decide_True.
  - destruct (decide (k = k')) as [->|Hne]; simpl.
    + by rewrite decide_True.
    + by rewrite decide_False.
Qed.

(** C7, as the code has it: nothing checks the position.  For every position,
    blank ones included, and every city, [add_search] returns normally and the
    search is in the registry under its identifier. *)
Theorem add_search_accepts_any_position p c self :
  ∃ self',
    add_search p c self = (Ok (), self')
    ∧ dict_get (get_search_id {| position := p; city := c |}) (searches self')
      = Some {| position := p; city := c |}.
Proof.
  unfold_m. destruct (redis_client self) as [r|] eqn:Hr; simpl; rewrite Hr;
    eexists; (split; [reflexivity|]); simpl; apply dict_get_set.
Qed.

(** C7 as stated fails: an empty position and one made of spaces are both
    registered. *)
Lemma blank_position_registered :
  blank (py "") = true
  ∧ blank (py "  ") = true
  ∧ add_search (py "") (Some (py "Wroclaw")) (demo_monitor None)
    = (Ok (), {| redis_client := None; chat_id := py "1234"; check_interval := 300;
                 searches := [(py ":wroclaw",
                               {| position := py ""; city := Some (py "Wroclaw") |})];
                 trace := [Log (InfoAdded (py ":wroclaw"))] |})
  ∧ searches (exec (add_search (py "  ") None) (demo_monitor None))
    = [(py "  ", {| position := py "  "; city := None |})].
Proof. repeat split; vm_compute; reflexivity. Qed.

(** * Further properties of the code *)

(** ** The fetch address *)

Lemma utf8_decode_encode_cp c bs rest :
  utf8_encode_cp c = Some bs → utf8_decode (bs ++ rest) = c :: utf8_decode rest.
Proof.
  unfold utf8_encode_cp. intros H.
  destruct (c <? 0x80) eqn:H1.
  { inversion H; subst. simpl. by rewrite H1. }
  destruct (c <? 0x800) eqn:H2.
  { inversion H; subst. bool_arith. cbn [app utf8_decode].
    replace (0xC0 + c / 0x40 <? 0x80) with false by (symmetry; apply N.ltb_ge; zify; div_lia).
    replace (0xC0 + c / 0x40 <? 0xE0) with true
      by (symmetry; apply N.ltb_lt; zify; div_lia).
    f_equal. zify; div_lia. }
  destruct ((0xD800 <=? c) && (c <=? 0xDFFF)) eqn:H3; [discriminate|].
  destruct (c <? 0x10000) eqn:H4.
  { inversion H; subst. bool_arith; cbn [app utf8_decode];
      (replace (0xE0 + c / 0x1000 <? 0x80) with false
         by (symmetry; apply N.ltb_ge; zify; div_lia));
      (replace (0xE0 + c / 0x1000 <? 0xE0) with false
         by (symmetry; apply N.ltb_ge; zify; div_lia));
      (replace (0xE0 + c / 0x1000 <? 0xF0) with true
         by (symmetry; apply N.ltb_lt; zify; div_lia));
      f_equal; zify; div_lia. }
  destruct (c <? 0x110000) eqn:H5; [|discriminate].
  inversion H; subst. bool_arith; cbn [app utf8_decode];
    (replace (0xF0 + c / 0x40000 <? 0x80) with false
       by (symmetry; apply N.ltb_ge; zify; div_lia));
    (replace (0xF0 + c / 0x40000 <? 0xE0) with false
       by (symmetry; apply N.ltb_ge; zify; div_lia));
    (replace (0xF0 + c / 0x40000 <? 0xF0) with false
       by (symmetry; apply N.ltb_ge; zify; div_lia));
    f_equal; zify; div_lia.
Qed.

Lemma utf8_decode_encode s bs : utf8_encode s = Some bs → utf8_decode bs = s.
Proof.
  revert bs. induction s as [|c s IH]; intros bs H; simpl in H.
  - by inversion H.
  - destruct (utf8_encode_cp c) as [b|] eqn:Hc; [|discriminate]. simpl in H.
    destruct (utf8_encode s) as [rest|]; [|discriminate]. simpl in H.
    inversion H; subst. rewrite (utf8_decode_encode_cp c b rest Hc). by rewrite IH.
Qed.

Lemma utf8_encode_cp_bytes c bs :
  utf8_encode_cp c = Some bs → Forall (λ b, b < 0x100) bs.
Proof.
  unfold utf8_encode_cp. intros H.
  repeat case_match; try discriminate; inversion H; subst; bool_arith;
    repeat constructor; zify; div_lia.
Qed.

Lemma utf8_encode_bytes s bs : utf8_encode s = Some bs → Forall (λ b, b < 0x100) bs.
Proof.
  revert bs. induction s as [|c s IH]; intros bs H; simpl in H.
  - inversion H. constructor.
  - destruct (utf8_encode_cp c) as [b|] eqn:Hc; [|discriminate]. simpl in H.
    destruct (utf8_encode s) as [rest|]; [|discriminate]. simpl in H.
    inversion H; subst. apply Forall_app. split; [by eapply utf8_encode_cp_bytes|by apply IH].
Qed.

Lemma hex_digit_inj a b : a < 16 → b < 16 → hex_digit a = hex_digit b → a = b.
Proof.
  unfold hex_digit. intros Ha Hb.
  destruct (a <? 10) eqn:H1, (b <? 10) eqn:H2; bool_arith; lia.
Qed.

Lemma hex_digit_safe n : n < 16 → always_safe (hex_digit n) = true.
Proof.
  intros Hn. unfold hex_digit, always_safe.
  destruct (n <? 10) eqn:H1; bool_arith.
  - replace ((0x30 <=? 0x30 + n) && (0x30 + n <=? 0x39)) with true; [by rewrite orb_true_r|].
    symmetry. apply andb_true_iff. split; apply N.leb_le; lia.
  - replace ((0x41 <=? 0x41 + (n - 10)) && (0x41 + (n - 10) <=? 0x5A)) with true; [done|].
    symmetry. apply andb_true_iff. split; apply N.leb_le; lia.
Qed.

Lemma always_safe_ascii b : always_safe b || (b =? 0x2F) = true → 0x20 < b ∧ b < 0x7F ∧ b ≠ 0x25 ∧ b ≠ 0x3B.
Proof. unfold always_safe. intros H. bool_arith; lia. Qed.

Lemma quote_byte_chars b :
  b < 0x100 → Forall (λ c, quoted_char c = true) (quote_byte b).
Proof.
  intros Hb. unfold quote_byte, quoted_char.
  destruct (always_safe b || (b =? 0x2F)) eqn:Hs.
  - constructor; [|constructor]. by rewrite Hs.
  - constructor; [done|]. constructor; [|constructor; [|constructor]].
    + rewrite hex_digit_safe; [done|]. zify; div_lia.
    + rewrite hex_digit_safe; [done|]. zify; div_lia.
Qed.

Lemma quote_bytes_inj bs1 bs2 :
  Forall (λ b, b < 0x100) bs1 → Forall (λ b, b < 0x100) bs2 →
  flat_map quote_byte bs1 = flat_map quote_byte bs2 → bs1 = bs2.
Proof.
  intros H1. revert bs2. induction H1 as [|b1 bs1 Hb1 _ IH]; intros bs2 H2 H.
  - destruct H2 as [|b2 bs2 Hb2 _]; [done|]. simpl in H. unfold quote_byte in H.
    by destruct (always_safe b2 || (b2 =? 0x2F)).
  - destruct H2 as [|b2 bs2 Hb2 H2].
    { simpl in H. unfold quote_byte in H. by destruct (always_safe b1 || (b1 =? 0x2F)). }
    simpl in H. unfold quote_byte in H.
    destruct (always_safe b1 || (b1 =? 0x2F)) eqn:S1,
             (always_safe b2 || (b2 =? 0x2F)) eqn:S2; simpl in H.
    + inversion H; subst. f_equal. by apply IH.
    + inversion H; subst. apply always_safe_ascii in S1. lia.
    + inversion H; subst. apply always_safe_ascii in S2. lia.
    + inversion H as [[Hhi Hlo Hrest]].
      apply hex_digit_inj in Hhi; [|zify; div_lia..].
      apply hex_digit_inj in Hlo; [|zify; div_lia..].
      assert (b1 = b2) by (zify; div_lia). subst. f_equal. by apply IH.
Qed.

Lemma quote_Some s q :
  quote s = Some q ↔ ∃ bs, utf8_encode s = Some bs ∧ q = flat_map quote_byte bs.
Proof.
  unfold quote. destruct (utf8_encode s) as [bs|]; simpl; split.
  - intros H. inversion H. eauto.
  - intros (bs' & H & ->). by inversion H.
  - done.
  - by intros (bs' & H & _).
Qed.

Lemma utf8_encode_cp_Some c : is_Some (utf8_encode_cp c) ↔ scalar c.
Proof.
  unfold utf8_encode_cp, scalar. split.
  - intros [bs H]. repeat case_match; try discriminate; bool_arith; lia.
  - intros [H1 H2]. repeat case_match; try (by eexists); bool_arith; lia.
Qed.

Lemma utf8_encode_Some s : is_Some (utf8_encode s) ↔ Forall scalar s.
Proof.
  induction s as [|c s IH]; simpl.
  - split; [constructor|by eexists].
  - rewrite Forall_cons, <- IH, <- utf8_encode_cp_Some.
    destruct (utf8_encode_cp c) as [b|], (utf8_encode s) as [r|]; simpl; split;
      try (intros [? ?]; discriminate); try (intros [[? ?] [? ?]]; discriminate);
      eauto.
Qed.

(** [quote] fails exactly on strings that cannot be encoded as UTF-8, those
    with a surrogate code point. *)
Lemma quote_defined_iff_encodable s : is_Some (quote s) ↔ Forall scalar s.
Proof.
  rewrite <- utf8_encode_Some. unfold quote.
  destruct (utf8_encode s); simpl; split; intros [? ?]; try discriminate; eauto.
Qed.

(** Two strings with the same quoted form are the same string. *)
Lemma quote_injective s1 s2 q : quote s1 = Some q → quote s2 = Some q → s1 = s2.
Proof.
  rewrite !quote_Some. intros (bs1 & H1 & ->) (bs2 & H2 & Hq).
  apply quote_bytes_inj in Hq; [|by eapply utf8_encode_bytes..]. subst.
  by rewrite <- (utf8_decode_encode _ _ H1), <- (utf8_decode_encode _ _ H2).
Qed.

Lemma quote_chars s q : quote s = Some q → Forall (λ c, quoted_char c = true) q.
Proof.
  rewrite quote_Some. intros (bs & H & ->).
  apply utf8_encode_bytes in H. induction H as [|b bs Hb _ IH]; simpl; [constructor|].
  apply Forall_app. split; [by apply quote_byte_chars|done].
Qed.

Lemma quoted_char_plain c : quoted_char c = true → plain_char c ∧ c ≠ 0x3B.
Proof.
  unfold quoted_char, plain_char. intros H. apply orb_true_iff in H.
  destruct H as [H|H]; [apply always_safe_ascii in H; lia|]. bool_arith. lia.
Qed.

Lemma get_url_Some self u :
  get_url self = Some u ↔
  ∃ qp, quote (position self) = Some qp
        ∧ if truthy (city self)
          then ∃ qc, quote (city_text self) = Some qc
                     ∧ u = py "https://it.pracuj.pl/praca" ++ py "/" ++ qp
                           ++ py ";kw/" ++ qc ++ py ";wp?rd=30"
          else u = py "https://it.pracuj.pl/praca" ++ py "/" ++ qp ++ py ";kw".
Proof.
  unfold get_url, city_text.
  destruct (quote (position self)) as [qp|]; cbn;
    [|split; [done|by intros (? & ? & _)]].
  destruct (truthy (city self)).
  - destruct (quote (default [] (city self))) as [qc|]; cbn; split.
    + intros H. inversion H. eauto.
    + intros (qp' & Hp & qc' & Hc & ->). by inversion Hp; inversion Hc; subst.
    + done.
    + by intros (? & ? & ? & ? & _).
  - split.
    + intros H. inversion H. eauto.
    + intros (qp' & Hp & ->). by inversion Hp; subst.
Qed.

(** X1. [get_url] raises (from the UTF-8 encoding inside [quote]) exactly
    when the position, or a city that is given and not empty, has a surrogate
    code point; otherwise it returns the address. *)
Theorem get_url_defined_iff_encodable self :
  is_Some (get_url self)
  ↔ Forall scalar (position self) ∧ Forall scalar (city_text self).
Proof.
  rewrite <- !quote_defined_iff_encodable. unfold get_url, city_text.
  destruct (quote (position self)) as [qp|]; simpl.
  - destruct (truthy (city self)).
    + destruct (quote (default [] (city self))); simpl; split;
        try (intros [? ?]; discriminate); try (intros [_ [? ?]]; discriminate); eauto.
    + split; [intros _; split; by eexists|by eexists].
  - split; [intros [? ?]; discriminate|intros [[? ?] _]; discriminate].
Qed.

Lemma plain_literal (l : pystr) :
  forallb (λ c, (0x20 <? c) && (c <? 0x7F)) l = true → Forall plain_char l.
Proof.
  rewrite forallb_forall, Forall_forall. intros H c Hc.
  apply list_elem_of_In, H in Hc. unfold plain_char. bool_arith. lia.
Qed.

(** X2. The address [get_url] returns is plain ASCII: every character is
    printable and none is a space, whatever the position and the city. *)
Theorem get_url_plain_ascii self u : get_url self = Some u → Forall plain_char u.
Proof.
  rewrite get_url_Some. intros (qp & Hp & H).
  assert (Hq : ∀ s q, quote s = Some q → Forall plain_char q).
  { intros s q Hs. apply quote_chars in Hs. eapply Forall_impl; [exact Hs|].
    intros c Hc. by apply quoted_char_plain in Hc as [? _]. }
  destruct (truthy (city self)).
  - destruct H as (qc & Hc & ->).
    repeat (apply Forall_app; split); try (by eapply Hq);
      apply plain_literal; vm_compute; reflexivity.
  - subst u.
    repeat (apply Forall_app; split); try (by eapply Hq);
      apply plain_literal; vm_compute; reflexivity.
Qed.

Lemma get_url_plain_ascii_witness :
  get_url {| position := py "Inżynier DevOps"; city := Some (py "Kraków") |}
  = Some (py "https://it.pracuj.pl/praca/In%C5%BCynier%20DevOps;kw/Krak%C3%B3w;wp?rd=30")
  ∧ Forall plain_char
      (py "https://it.pracuj.pl/praca/In%C5%BCynier%20DevOps;kw/Krak%C3%B3w;wp?rd=30").
Proof.
  assert (H : get_url {| position := py "Inżynier DevOps"; city := Some (py "Kraków") |}
              = Some (py "https://it.pracuj.pl/praca/In%C5%BCynier%20DevOps;kw/Krak%C3%B3w;wp?rd=30"))
    by (vm_compute; reflexivity).
  split; [exact H|]. exact (get_url_plain_ascii _ _ H).
Defined.

Lemma app_first_sep_inj (x : N) (a b r1 r2 : pystr) :
  x ∉ a → x ∉ b → a ++ x :: r1 = b ++ x :: r2 → a = b ∧ r1 = r2.
Proof.
  revert b. induction a as [|y a IH]; intros [|z b] Ha Hb H; simpl in H.
  - by inversion H.
  - inversion H; subst. exfalso. apply Hb. constructor.
  - inversion H; subst. exfalso. apply Ha. constructor.
  - inversion H as [[Hyz Hab]]. subst z.
    destruct (IH b) as [-> ->]; [| |done|done].
    + intros Hin. apply Ha. by constructor.
    + intros Hin. apply Hb. by constructor.
Qed.

Lemma quote_no_semicolon s q : quote s = Some q → 0x3B ∉ q.
Proof.
  intros H Hin. apply quote_chars in H. rewrite Forall_forall in H.
  apply H, quoted_char_plain in Hin. by destruct Hin.
Qed.

Lemma city_text_id self :
  get_search_id self
  = match city_text self with
    | [] => lower (position self)
    | c => lower (position self ++ colon :: c)
    end.
Proof.
  unfold get_search_id, city_text. destruct (city self) as [[|c s]|]; reflexivity.
Qed.

(** X3. Two searches that are fetched from the same address have the same
    position and the same city (a missing city and an empty one taken as the
    same), and so the same identifier. *)
Theorem get_url_injective self1 self2 u :
  get_url self1 = Some u → get_url self2 = Some u →
  position self1 = position self2
  ∧ city_text self1 = city_text self2
  ∧ get_search_id self1 = get_search_id self2.
Proof.
  rewrite !get_url_Some. intros (qp1 & Hp1 & H1) (qp2 & Hp2 & H2).
  assert (Hpc : position self1 = position self2 ∧ city_text self1 = city_text self2).
  { pose proof (quote_no_semicolon _ _ Hp1) as N1.
    pose proof (quote_no_semicolon _ _ Hp2) as N2.
    unfold city_text in *.
    destruct (truthy (city self1)) eqn:T1, (truthy (city self2)) eqn:T2.
    - destruct H1 as (qc1 & Hc1 & ->), H2 as (qc2 & Hc2 & H2).
      do 2 apply app_inv_head in H2.
      change (py ";kw/") with (0x3B :: py "kw/") in H2.
      apply app_first_sep_inj in H2 as [-> H2]; [|done..].
      apply app_inv_head in H2.
      change (py ";wp?rd=30") with (0x3B :: py "wp?rd=30") in H2.
      apply app_first_sep_inj in H2 as [-> _]; [|by eapply quote_no_semicolon..].
      split; [by eapply quote_injective|by eapply quote_injective].
    - subst u. destruct H1 as (qc1 & Hc1 & H1).
      do 2 apply app_inv_head in H1.
      change (py ";kw/") with (0x3B :: py "kw/") in H1.
      change (py ";kw") with (0x3B :: py "kw") in H1.
      apply app_first_sep_inj in H1 as [_ H1]; [|done..].
      apply (f_equal (take 3)) in H1. vm_compute in H1. discriminate.
    - subst u. destruct H2 as (qc2 & Hc2 & H2).
      do 2 apply app_inv_head in H2.
      change (py ";kw/") with (0x3B :: py "kw/") in H2.
      change (py ";kw") with (0x3B :: py "kw") in H2.
      apply app_first_sep_inj in H2 as [_ H2]; [|done..].
      apply (f_equal (take 3)) in H2. vm_compute in H2. discriminate.
    - subst u. do 2 apply app_inv_head in H2.
      change (py ";kw") with (0x3B :: py "kw") in H2.
      apply app_first_sep_inj in H2 as [-> _]; [|done..].
      split; [by eapply quote_injective|done]. }
  destruct Hpc as [Hp Hc]. split; [done|]. split; [done|].
  by rewrite !city_text_id, Hp, Hc.
Qed.

Lemma get_url_injective_witness :
  get_url {| position := py "DevOps Engineer"; city := None |}
  = Some (py "https://it.pracuj.pl/praca/DevOps%20Engineer;kw")
  ∧ get_url {| position := py "DevOps Engineer"; city := Some (py "") |}
    = Some (py "https://it.pracuj.pl/praca/DevOps%20Engineer;kw")
  ∧ get_search_id {| position := py "DevOps Engineer"; city := None |}
    = get_search_id {| position := py "DevOps Engineer"; city := Some (py "") |}.
Proof.
  assert (H1 : get_url {| position := py "DevOps Engineer"; city := None |}
               = Some (py "https://it.pracuj.pl/praca/DevOps%20Engineer;kw"))
    by (vm_compute; reflexivity).
  assert (H2 : get_url {| position := py "DevOps Engineer"; city := Some (py "") |}
               = Some (py "https://it.pracuj.pl/praca/DevOps%20Engineer;kw"))
    by (vm_compute; reflexivity).
  split; [exact H1|]. split; [exact H2|].
  exact (proj2 (proj2 (get_url_injective _ _ _ H1 H2))).
Defined.

(** ** The registry of searches *)

Lemma dict_get_set_ne k k' v d : k ≠ k' → dict_get k' (dict_set k v d) = dict_get k' d.
Proof.
  intros Hne. induction d as [|[k0 v0] d IH]; simpl.
  - by rewrite decide_False.
  - destruct (decide (k = k0)) as [->|Hk]; simpl.
    + by rewrite !decide_False.
    + destruct (decide (k' = k0)); [done|apply IH].
Qed.

Lemma dict_get_pop k d : dict_get k (dict_pop k d) = None.
Proof.
  unfold dict_pop. induction d as [|[k0 v0] d IH]; simpl; [done|].
  destruct (bool_decide (k0 = k)) eqn:Hk; simpl; [done|].
  apply bool_decide_eq_false in Hk. rewrite decide_False; [done|congruence].
Qed.

Lemma dict_get_pop_ne k k' d : k ≠ k' → dict_get k' (dict_pop k d) = dict_get k' d.
Proof.
  intros Hne. unfold dict_pop. induction d as [|[k0 v0] d IH]; simpl; [done|].
  destruct (bool_decide (k0 = k)) eqn:Hk; simpl.
  - apply bool_decide_eq_true in Hk. subst. by rewrite decide_False.
  - by rewrite IH.
Qed.

Lemma dict_pop_absent k d : dict_get k d = None → dict_pop k d = d.
Proof.
  unfold dict_pop. induction d as [|[k0 v0] d IH]; simpl; [done|].
  destruct (decide (k = k0)) as [->|Hne]; [done|]. intros H.
  rewrite bool_decide_eq_false_2 by congruence. simpl. by rewrite IH.
Qed.

Lemma dict_get_keys k d : is_Some (dict_get k d) ↔ k ∈ keys d.
Proof.
  unfold keys. induction d as [|[k0 v0] d IH]; simpl.
  - split; [by intros [? ?]|by intros ?%elem_of_nil].
  - destruct (decide (k = k0)) as [->|Hne].
    + split; [intros _; constructor|by eexists].
    + rewrite IH, elem_of_cons. split; [by right|]. by intros [?|?].
Qed.

Lemma dict_set_keys k v d :
  keys (dict_set k v d) = if decide (k ∈ keys d) then keys d else keys d ++ [k].
Proof.
  unfold keys. induction d as [|[k0 v0] d IH]; [done|].
  cbn [dict_set map fst].
  - destruct (decide (k = k0)) as [->|Hne]; cbn [map fst].
    + destruct (decide (k0 ∈ k0 :: map fst d)) as [Hin|Hin]; [reflexivity|].
      exfalso. apply Hin. constructor.
    + rewrite IH. destruct (decide (k ∈ map fst d)) as [Hin|Hin].
      * destruct (decide (k ∈ k0 :: map fst d)) as [Hin'|Hin']; [reflexivity|].
        exfalso. apply Hin'. by constructor.
      * destruct (decide (k ∈ k0 :: map fst d)) as [Hin'|Hin']; [|reflexivity].
        apply elem_of_cons in Hin' as [?|?]; done.
Qed.

Lemma dict_set_set k v1 v2 d : dict_set k v2 (dict_set k v1 d) = dict_set k v2 d.
Proof.
  induction d as [|[k0 v0] d IH]; simpl.
  - by rewrite decide_True.
  - destruct (decide (k = k0)) as [->|Hne]; simpl.
    + by rewrite decide_True.
    + by rewrite decide_False, IH.
Qed.

Lemma dict_set_entries k v d kv :
  kv ∈ dict_set k v d → kv ∈ d ∨ kv = (k, v).
Proof.
  induction d as [|[k0 v0] d IH]; simpl.
  - intros ?%list_elem_of_singleton. by right.
  - destruct (decide (k = k0)) as [->|Hne]; rewrite !elem_of_cons.
    + intros [->|?]; [by right|by left; right].
    + intros [->|Hin]; [by left; left|]. destruct (IH Hin); [by left; right|by right].
Qed.

Lemma registry_ok_set search d :
  registry_ok d → registry_ok (dict_set (get_search_id search) search d).
Proof.
  intros [Hnd Hid]. split.
  - rewrite dict_set_keys. case_decide; [done|].
    apply NoDup_app. split; [done|]. split; [|apply NoDup_singleton].
    intros x Hx ?%list_elem_of_singleton. by subst.
  - rewrite Forall_forall in *. intros kv Hin.
    apply dict_set_entries in Hin as [Hin| ->]; [by apply Hid|done].
Qed.

Lemma registry_ok_pop k d : registry_ok d → registry_ok (dict_pop k d).
Proof.
  intros [Hnd Hid]. unfold dict_pop, keys in *. split.
  - induction d as [|[k0 v0] d IH]; simpl in *; [constructor|].
    apply NoDup_cons in Hnd as [Hk0 Hnd]. apply Forall_cons in Hid as [_ Hid].
    destruct (bool_decide (k0 = k)); simpl; [by apply IH|].
    apply NoDup_cons. split; [|by apply IH].
    intros Hin. apply Hk0. apply list_elem_of_fmap in Hin as ([k1 v1] & -> & Hin).
    apply list_elem_of_In, filter_In in Hin as [Hin _].
    apply list_elem_of_fmap. exists (k1, v1). split; [done|by apply list_elem_of_In].
  - rewrite Forall_forall in *. intros kv Hin. apply Hid.
    apply list_elem_of_In, filter_In in Hin as [Hin _]. by apply list_elem_of_In.
Qed.

(** What [add_search] and [remove_search] leave behind. *)
Lemma add_search_exec p c self :
  add_search p c self
  = (Ok (),
     with_event (Log (InfoAdded (get_search_id (search_of p c))))
       (let self1 := with_searches (dict_set (get_search_id (search_of p c))
                                      (search_of p c) (searches self)) self in
        match redis_client self with
        | Some r =>
          with_event (Sadd (get_search_id (search_of p c)))
            (with_redis (Some (r_sadd (get_search_id (search_of p c)) r)) self1)
        | None => self1
        end)).
Proof. unfold_m. cbn. by destruct (redis_client self). Qed.

Lemma remove_search_exec p c self :
  remove_search p c self
  = (Ok (),
     with_event (Log (InfoRemoved (get_search_id (search_of p c))))
       (let self1 := with_searches (dict_pop (get_search_id (search_of p c))
                                      (searches self)) self in
        match redis_client self with
        | Some r =>
          with_event (Srem (get_search_id (search_of p c)))
            (with_redis (Some (r_srem (get_search_id (search_of p c)) r)) self1)
        | None => self1
        end)).
Proof. unfold_m. cbn. by destruct (redis_client self). Qed.

Lemma add_search_searches p c self :
  searches (exec (add_search p c) self)
  = dict_set (get_search_id (search_of p c)) (search_of p c) (searches self).
Proof. unfold exec. rewrite add_search_exec. by destruct (redis_client self). Qed.

Lemma remove_search_searches p c self :
  searches (exec (remove_search p c) self)
  = dict_pop (get_search_id (search_of p c)) (searches self).
Proof. unfold exec. rewrite remove_search_exec. by destruct (redis_client self). Qed.

Lemma add_search_saved p c self :
  saved (exec (add_search p c) self)
  = (λ s, {[get_search_id (search_of p c)]} ∪ s) <$> saved self.
Proof.
  unfold exec, saved. rewrite add_search_exec.
  destruct (redis_client self) eqn:Hr; cbn; by rewrite ?Hr.
Qed.

Lemma remove_search_saved p c self :
  saved (exec (remove_search p c) self)
  = (λ s, s ∖ {[get_search_id (search_of p c)]}) <$> saved self.
Proof.
  unfold exec, saved. rewrite remove_search_exec.
  destruct (redis_client self) eqn:Hr; cbn; by rewrite ?Hr.
Qed.

(** X4. [remove_search] returns normally whatever the registry holds; afterwards
    the identifier is neither in the registry nor in the saved set, and when
    it was not in the registry to begin with, the registry is as before.  So
    [add_search] followed by [remove_search] of the same position and city
    leaves no entry, with or without a store. *)
Theorem remove_search_clears p c self :
  let search_id := get_search_id (search_of p c) in
  let self' := exec (remove_search p c) self in
  (remove_search p c self).1 = Ok ()
  ∧ dict_get search_id (searches self') = None
  ∧ (∀ s, saved self' = Some s → search_id ∉ s)
  ∧ (dict_get search_id (searches self) = None → searches self' = searches self)
  ∧ dict_get search_id (searches (exec (remove_search p c) (exec (add_search p c) self)))
    = None.
Proof.
  intros search_id self'. split; [by rewrite remove_search_exec|].
  split; [unfold self'; rewrite remove_search_searches; apply dict_get_pop|].
  split.
  { intros s. unfold self'. rewrite remove_search_saved.
    destruct (saved self) as [s0|]; simpl; [|done].
    intros [= <-]. rewrite elem_of_difference, elem_of_singleton. by intros [_ ?]. }
  split.
  { intros H. unfold self'. rewrite remove_search_searches. by apply dict_pop_absent. }
  rewrite remove_search_searches. apply dict_get_pop.
Qed.

(** X5. [add_search] and [remove_search] leave the entries and the saved state of
    every other identifier as they were. *)
Theorem other_searches_untouched p c k self :
  k ≠ get_search_id (search_of p c) →
  dict_get k (searches (exec (add_search p c) self)) = dict_get k (searches self)
  ∧ dict_get k (searches (exec (remove_search p c) self)) = dict_get k (searches self)
  ∧ (∀ s s', saved self = Some s → saved (exec (add_search p c) self) = Some s' →
             (k ∈ s' ↔ k ∈ s))
  ∧ (∀ s s', saved self = Some s → saved (exec (remove_search p c) self) = Some s' →
             (k ∈ s' ↔ k ∈ s)).
Proof.
  intros Hne. rewrite add_search_searches, remove_search_searches.
  rewrite add_search_saved, remove_search_saved.
  split; [by apply dict_get_set_ne|]. split; [by apply dict_get_pop_ne|].
  split; intros s s' -> [= <-].
  - rewrite elem_of_union, elem_of_singleton. tauto.
  - rewrite elem_of_difference, elem_of_singleton. tauto.
Qed.

Lemma other_searches_untouched_witness :
  py "cloud engineer" ≠ get_search_id (search_of (py "DevOps Engineer") None)
  ∧ dict_get (py "cloud engineer")
      (searches (exec (remove_search (py "DevOps Engineer") None)
                   (exec (add_search (py "Cloud Engineer") None) (demo_monitor None))))
    = Some (search_of (py "Cloud Engineer") None).
Proof.
  assert (H : py "cloud engineer" ≠ get_search_id (search_of (py "DevOps Engineer") None))
    by (vm_compute; discriminate).
  split; [exact H|].
  rewrite (proj1 (proj2 (other_searches_untouched _ _ _ _ H))).
  vm_compute. reflexivity.
Defined.

(** X6. Searches with the same identifier share one entry: adding the second
    replaces the first and the last one added stays, in the place of the
    first. *)
Theorem add_search_last_write_wins p1 c1 p2 c2 self :
  get_search_id (search_of p1 c1) = get_search_id (search_of p2 c2) →
  let self' := exec (add_search p2 c2) (exec (add_search p1 c1) self) in
  searches self' = searches (exec (add_search p2 c2) self)
  ∧ keys (searches self') = keys (searches (exec (add_search p1 c1) self))
  ∧ dict_get (get_search_id (search_of p1 c1)) (searches self') = Some (search_of p2 c2).
Proof.
  intros Hid self'. unfold self'. rewrite !add_search_searches, Hid.
  split; [apply dict_set_set|]. split; [|apply dict_get_set].
  rewrite !dict_set_keys. rewrite decide_True; [done|].
  case_decide; [done|]. apply elem_of_app. right. constructor.
Qed.

Lemma add_search_last_write_wins_witness :
  get_search_id (search_of (py "DevOps Engineer") (Some (py "Wroclaw")))
  = get_search_id (search_of (py "DEVOPS ENGINEER") (Some (py "WROCLAW")))
  ∧ searches (exec (add_search (py "DEVOPS ENGINEER") (Some (py "WROCLAW")))
                (exec (add_search (py "DevOps Engineer") (Some (py "Wroclaw")))
                   (demo_monitor None)))
    = [(py "devops engineer:wroclaw",
        search_of (py "DEVOPS ENGINEER") (Some (py "WROCLAW")))].
Proof.
  assert (H : get_search_id (search_of (py "DevOps Engineer") (Some (py "Wroclaw")))
              = get_search_id (search_of (py "DEVOPS ENGINEER") (Some (py "WROCLAW"))))
    by (vm_compute; reflexivity).
  split; [exact H|].
  rewrite (proj1 (add_search_last_write_wins _ _ _ _ (demo_monitor None) H)).
  vm_compute. reflexivity.
Defined.

(** X7. A search with a new identifier goes to the end of the registry, the
    order in which a cycle visits it; adding one whose identifier is there
    already changes neither the identifiers nor their order. *)
Theorem add_search_order p c self :
  keys (searches (exec (add_search p c) self))
  = if decide (get_search_id (search_of p c) ∈ keys (searches self))
    then keys (searches self)
    else keys (searches self) ++ [get_search_id (search_of p c)].
Proof. rewrite add_search_searches. apply dict_set_keys. Qed.

(** ** What a method can change *)

Lemma process_offer_cases bot_send_message search offer self :
  (Offer.groupId offer = None
   ∧ process_offer bot_send_message search offer self
     = (Raise (KeyError (py "groupId")), self))
  ∨ ∃ g, Offer.groupId offer = Some g
    ∧ (process_offer bot_send_message search offer self = (Ok (), self)
       ∨ (∃ e, process_offer bot_send_message search offer self
               = (Ok (), with_event (Log (ErrorProcessingOffer (offer_id_of search g) e))
                           self))
       ∨ (∃ r d, redis_client self = Some r
                 ∧ r_exists (store_key search g) r = false
                 ∧ build_offer_data offer = Ok d
                 ∧ process_offer bot_send_message search offer self
                   = (Ok (), alerted bot_send_message offer d search
                               (recorded (store_key search g) d r self)))
       ∨ (∃ d, redis_client self = None
               ∧ build_offer_data offer = Ok d
               ∧ process_offer bot_send_message search offer self
                 = (Ok (), alerted bot_send_message offer d search self))).
Proof.
  unfold store_key.
  destruct (Offer.groupId offer) as [g|] eqn:Hg;
    [right; exists g; split; [done|]|left; split; [done|by apply process_offer_no_group_id]].
  destruct (redis_client self) as [r|] eqn:Hr.
  - destruct (r_exists (py "offer:" ++ offer_id_of search g) r) eqn:Hx.
    { left. by apply (process_offer_seen _ _ _ g r). }
    destruct (build_offer_data offer) as [d|e] eqn:Hb.
    + right; right; left. exists r, d. repeat split; try done.
      by apply (process_offer_new_stored _ _ _ g d r).
    + right; left. exists e. apply (process_offer_malformed _ _ _ g e); [done| |done].
      unfold offer_is_new. by rewrite Hr, Hx.
  - destruct (build_offer_data offer) as [d|e] eqn:Hb.
    + right; right; right. exists d. repeat split; try done.
      by apply (process_offer_new_no_store _ _ _ g d).
    + right; left. exists e. apply (process_offer_malformed _ _ _ g e); [done| |done].
      unfold offer_is_new. by rewrite Hr.
Qed.

Lemma get_job_offers_cases fetch_page search self :
  (get_url search = None
   ∧ ∃ line, get_job_offers fetch_page search self = (Ok [], with_event (Log line) self))
  ∨ (is_Some (get_url search)
     ∧ ((∃ offers, get_job_offers fetch_page search self
                   = (Ok offers, with_event (Get search) self))
        ∨ (∃ line, get_job_offers fetch_page search self
                   = (Ok [], with_event (Log line) (with_event (Get search) self))))).
Proof.
  unfold get_job_offers. destruct (get_url search) as [url|].
  - right. split; [done|]. unfold_m. destruct (fetch_page (trace self) search); eauto.
  - left. split; [done|]. unfold_m. eauto.
Qed.

Lemma sleep_ok seconds self :
  (0 ≤ seconds ≤ SLEEP_MAX)%Z → sleep seconds self = (Ok (), with_event (Sleep seconds) self).
Proof.
  intros [H1 H2]. unfold sleep.
  destruct (Z.ltb_spec seconds 0); [lia|]. by destruct (Z.ltb_spec SLEEP_MAX seconds); [lia|].
Qed.


Lemma sleep_cases seconds self :
  sleep seconds self = (Ok (), with_event (Sleep seconds) self)
  ∨ ∃ e, sleep seconds self = (Raise e, self).
Proof.
  unfold sleep. destruct (seconds <? 0)%Z; [right; by eexists|].
  destruct (SLEEP_MAX <? seconds)%Z; [right; by eexists|by left].
Qed.

Lemma sleepable_ok seconds self :
  sleepable seconds → sleep seconds self = (Ok (), with_event (Sleep seconds) self).
Proof. intros [H1 H2]. apply sleep_ok. unfold SLEEP_MAX. lia. Qed.

Lemma poll_cons bot_send_message fetch_page search rest self :
  poll bot_send_message fetch_page (search :: rest) self
  = match get_job_offers fetch_page search self with
    | (Ok [], self1) => poll bot_send_message fetch_page rest (with_event (Sleep 1) self1)
    | (Ok offers, self1) =>
      match process_offers bot_send_message offers search self1 with
      | (Ok _, self2) =>
        poll bot_send_message fetch_page rest
          (with_event (Sleep 1)
             (with_event (Log (InfoProcessed (length offers) (get_search_id search))) self2))
      | (Raise e, self2) => (Raise e, self2)
      end
    | (Raise e, self1) => (Raise e, self1)
    end.
Proof.
  cbn [poll]. unfold mbind at 1, M_bind at 1.
  destruct (get_job_offers fetch_page search self) as [[[|o os]|e] self1]; [done| |done].
  unfold mbind at 1, M_bind at 1. unfold mbind at 1, M_bind at 1.
  by destruct (process_offers bot_send_message (o :: os) search self1) as [[[]|e] self2].
Qed.

Lemma run_cycle_cases bot_send_message fetch_page self :
  run_cycle bot_send_message fetch_page self
  = match poll bot_send_message fetch_page (values (searches self)) self with
    | (Ok _, self1) =>
      match sleep (check_interval self) self1 with
      | (Ok _, self2) => (Ok (), self2)
      | (Raise e, self2) =>
        sleep (check_interval self) (with_event (Log (ErrorOccurred e)) self2)
      end
    | (Raise e, self1) =>
      sleep (check_interval self) (with_event (Log (ErrorOccurred e)) self1)
    end.
Proof.
  unfold run_cycle, try_except, get_self. unfold mbind at 1, M_bind at 1.
  unfold mbind at 1, M_bind at 1.
  destruct (poll bot_send_message fetch_page (values (searches self)) self)
    as [[[]|e] self1]; [|done].
  by destruct (sleep (check_interval self) self1) as [[[]|e] self2].
Qed.

Lemma run_S bot_send_message fetch_page n self :
  run bot_send_message fetch_page (S n) self
  = match run_cycle bot_send_message fetch_page self with
    | (Ok _, self1) => run bot_send_message fetch_page n self1
    | (Raise e, self1) => (Raise e, self1)
    end.
Proof.
  cbn [run]. unfold mbind at 1, M_bind at 1.
  by destruct (run_cycle bot_send_message fetch_page self) as [[[]|e] self1].
Qed.

Lemma setup_cases self :
  ∃ l, exec setup self
       = with_event (Log (InfoInitialized (length (searches (exec (add_all l) self)))))
           (exec (add_all l) self)
       ∧ l = match redis_client self with
             | Some r => match elements (job_searches r) with
                         | [] => DEFAULT_SEARCHES
                         | saved_searches => map parse_saved saved_searches
                         end
             | None => DEFAULT_SEARCHES
             end.
Proof.
  eexists. split; [|reflexivity].
  assert (Hok : ∀ l s, (add_all l s).1 = Ok ()).
  { induction l as [|[p c] l IH]; intros s; [done|].
    cbn [add_all]. unfold mbind, M_bind. rewrite add_search_exec. apply IH. }
  unfold setup, exec, get_self, log, emit, modify.
  unfold mbind at 1, M_bind at 1. unfold mbind at 1, M_bind at 1.
  destruct (redis_client self) as [r|]; [destruct (elements (job_searches r)) as [|s0 ss]|].
  - pose proof (Hok DEFAULT_SEARCHES self) as H.
    destruct (add_all DEFAULT_SEARCHES self) as [[[]|e] self1]; [done|discriminate].
  - pose proof (Hok (map parse_saved (s0 :: ss)) self) as H.
    destruct (add_all (map parse_saved (s0 :: ss)) self) as [[[]|e] self1];
      [done|discriminate].
  - pose proof (Hok DEFAULT_SEARCHES self) as H.
    destruct (add_all DEFAULT_SEARCHES self) as [[[]|e] self1]; [done|discriminate].
Qed.

Section Footprint.

(** A relation between the monitor before and after that holds across every
    single thing the loop does holds across the loop. *)
Variable bot_send_message : list event → pystr → pystr → bool.
Variable fetch_page : list event → JobSearch → page.
Variable R : JobMonitor → JobMonitor → Prop.
Hypothesis R_refl : ∀ self, R self self.
Hypothesis R_trans : ∀ a b c, R a b → R b c → R a c.
Hypothesis R_log : ∀ line self, R self (with_event (Log line) self).
Hypothesis R_stored : ∀ offer d search key r self,
  redis_client self = Some r → r_exists key r = false →
  R self (alerted bot_send_message offer d search (recorded key d r self)).
Hypothesis R_unstored : ∀ offer d search self,
  redis_client self = None → R self (alerted bot_send_message offer d search self).

Lemma across_process_offer search offer self :
  R self (exec (process_offer bot_send_message search offer) self).
Proof using R_refl R_trans R_log R_stored R_unstored.
  unfold exec.
  destruct (process_offer_cases bot_send_message search offer self)
    as [[_ ->]|(g & _ & [->|[(e & ->)|[(r & d & Hr & Hx & _ & ->)|(d & Hr & _ & ->)]]])];
    simpl; eauto.
Qed.

Lemma across_process_offers offers search self :
  R self (exec (process_offers bot_send_message offers search) self).
Proof using R_refl R_trans R_log R_stored R_unstored.
  revert self. induction offers as [|offer rest IH]; intros self; [apply R_refl|].
  unfold exec. rewrite process_offers_cons.
  pose proof (across_process_offer search offer self) as H1. unfold exec in H1.
  destruct (process_offer bot_send_message search offer self) as [[[]|e] self1]; [|done].
  eapply R_trans; [exact H1|apply IH].
Qed.

Hypothesis R_get : ∀ search self, R self (with_event (Get search) self).
Hypothesis R_sleep : ∀ seconds self, R self (with_event (Sleep seconds) self).

Lemma across_get_job_offers search self :
  R self (exec (get_job_offers fetch_page search) self).
Proof using All.
  unfold exec.
  destruct (get_job_offers_cases fetch_page search self)
    as [[_ [l ->]]|[_ [[os ->]|[l ->]]]]; simpl; eauto.
Qed.

Lemma across_sleep seconds self : R self (exec (sleep seconds) self).
Proof using R_refl R_sleep.
  unfold exec. destruct (sleep_cases seconds self) as [->|[e ->]]; simpl; eauto.
Qed.

Lemma across_poll todo self : R self (exec (poll bot_send_message fetch_page todo) self).
Proof using All.
  revert self. induction todo as [|search rest IH]; intros self; [apply R_refl|].
  unfold exec. rewrite poll_cons.
  pose proof (across_get_job_offers search self) as H1. unfold exec in H1.
  destruct (get_job_offers fetch_page search self) as [[[|o os]|e] self1]; [| |done].
  - eapply R_trans; [exact H1|]. eapply R_trans; [apply R_sleep|apply IH].
  - pose proof (across_process_offers (o :: os) search self1) as H2. unfold exec in H2.
    destruct (process_offers bot_send_message (o :: os) search self1) as [[[]|e] self2].
    + eapply R_trans; [exact H1|]. eapply R_trans; [exact H2|].
      eapply R_trans; [apply R_log|]. eapply R_trans; [apply R_sleep|apply IH].
    + eapply R_trans; [exact H1|exact H2].
Qed.

Lemma across_run_cycle self : R self (exec (run_cycle bot_send_message fetch_page) self).
Proof using All.
  unfold exec. rewrite run_cycle_cases.
  pose proof (across_poll (values (searches self)) self) as H. unfold exec in H.
  destruct (poll bot_send_message fetch_page (values (searches self)) self)
    as [[[]|e] self1].
  - pose proof (across_sleep (check_interval self) self1) as H1. unfold exec in H1.
    destruct (sleep (check_interval self) self1) as [[[]|e] self2].
    + eapply R_trans; [exact H|exact H1].
    + eapply R_trans; [exact H|]. eapply R_trans; [exact H1|].
      eapply R_trans; [apply R_log|apply across_sleep].
  - eapply R_trans; [exact H|]. eapply R_trans; [apply R_log|apply across_sleep].
Qed.

Lemma across_run n self : R self (exec (run bot_send_message fetch_page n) self).
Proof using All.
  revert self. induction n as [|n IH]; intros self; [apply R_refl|].
  unfold exec. rewrite run_S.
  pose proof (across_run_cycle self) as H. unfold exec in H.
  destruct (run_cycle bot_send_message fetch_page self) as [[[]|e] self1]; [|done].
  eapply R_trans; [exact H|apply IH].
Qed.

Hypothesis R_add : ∀ p c self, R self (exec (add_search p c) self).
Hypothesis R_remove : ∀ p c self, R self (exec (remove_search p c) self).

Lemma across_add_all l self : R self (exec (add_all l) self).
Proof using All.
  revert self. induction l as [|[p c] l IH]; intros self; [apply R_refl|].
  unfold exec. cbn [add_all]. unfold mbind, M_bind.
  pose proof (R_add p c self) as H. unfold exec in H.
  destruct (add_search p c self) as [[[]|e] self1]; [|done].
  eapply R_trans; [exact H|apply IH].
Qed.

Lemma across_setup self : R self (exec setup self).
Proof using All.
  destruct (setup_cases self) as (l & -> & _).
  eapply R_trans; [apply across_add_all|apply R_log].
Qed.

Lemma across_later self self' :
  later bot_send_message fetch_page self self' → R self self'.
Proof using All.
  induction 1 as [|self mid self' Hcall _ IH]; [apply R_refl|].
  eapply R_trans; [|exact IH]. destruct Hcall.
  - apply R_add.
  - apply R_remove.
  - apply across_setup.
  - apply across_process_offers.
  - apply across_run.
Qed.

End Footprint.

Lemma stored_with_event key e self : stored key (with_event e self) = stored key self.
Proof. reflexivity. Qed.

Lemma stored_alerted key bot offer d search self :
  stored key (alerted bot offer d search self) = stored key self.
Proof. reflexivity. Qed.

Lemma stored_add_search key p c self : stored key (exec (add_search p c) self) = stored key self.
Proof.
  unfold exec, stored. rewrite add_search_exec.
  destruct (redis_client self) eqn:Hr; cbn; by rewrite ?Hr.
Qed.

Lemma stored_remove_search key p c self :
  stored key (exec (remove_search p c) self) = stored key self.
Proof.
  unfold exec, stored. rewrite remove_search_exec.
  destruct (redis_client self) eqn:Hr; cbn; by rewrite ?Hr.
Qed.

(** X10. A record of the store is never changed and never removed: whatever the
    monitor does, the store keeps under a key the data first written there,
    also when the site later shows the offer with other data. *)
Theorem stored_record_kept bot_send_message fetch_page key d self self' :
  later bot_send_message fetch_page self self' →
  stored key self = Some d →
  stored key self' = Some d.
Proof.
  intros Hlater. revert Hlater.
  apply (across_later bot_send_message fetch_page
           (λ a b, stored key a = Some d → stored key b = Some d)); try done.
  - intros a b c Hab Hbc Ha. by apply Hbc, Hab.
  - intros offer d' search key' r a Hr Hx Ha.
    rewrite stored_alerted. unfold stored, recorded in *. rewrite Hr in Ha. cbn in *.
    rewrite lookup_insert_ne; [done|]. intros ->.
    unfold r_exists in Hx. apply bool_decide_eq_false in Hx. apply Hx. by eexists.
  - intros p c a. by rewrite stored_add_search.
  - intros p c a. by rewrite stored_remove_search.
Qed.

Lemma stored_record_kept_witness :
  later bot_up site_down demo_monitor_seen
    (exec (process_offers bot_up [demo_offer_retitled] demo_search) demo_monitor_seen)
  ∧ stored (store_key demo_search (py "42")) demo_monitor_seen = Some demo_data
  ∧ stored (store_key demo_search (py "42"))
      (exec (process_offers bot_up [demo_offer_retitled] demo_search) demo_monitor_seen)
    = Some demo_data.
Proof.
  assert (H1 : later bot_up site_down demo_monitor_seen
                 (exec (process_offers bot_up [demo_offer_retitled] demo_search)
                    demo_monitor_seen))
    by (apply rtc_once, call_process_offers).
  assert (H2 : stored (store_key demo_search (py "42")) demo_monitor_seen = Some demo_data)
    by (vm_compute; reflexivity).
  split; [exact H1|]. split; [exact H2|].
  exact (stored_record_kept _ _ _ _ _ _ H1 H2).
Defined.

(** X8. Whatever the monitor does, every entry of the registry stays filed under
    the identifier of its search, and no identifier is there twice. *)
Theorem registry_ok_kept bot_send_message fetch_page self self' :
  later bot_send_message fetch_page self self' →
  registry_ok (searches self) →
  registry_ok (searches self').
Proof.
  intros Hlater. revert Hlater.
  apply (across_later bot_send_message fetch_page
           (λ a b, registry_ok (searches a) → registry_ok (searches b))); try done.
  - intros a b c Hab Hbc Ha. by apply Hbc, Hab.
  - intros p c a Ha. rewrite add_search_searches. by apply registry_ok_set.
  - intros p c a Ha. rewrite remove_search_searches. by apply registry_ok_pop.
Qed.

Lemma registry_ok_kept_witness :
  later bot_up site_down (demo_monitor None) (exec setup (demo_monitor None))
  ∧ registry_ok (searches (demo_monitor None))
  ∧ registry_ok (searches (exec setup (demo_monitor None))).
Proof.
  assert (H1 : later bot_up site_down (demo_monitor None) (exec setup (demo_monitor None)))
    by (apply rtc_once, call_setup).
  assert (H2 : registry_ok (searches (demo_monitor None)))
    by (split; constructor).
  split; [exact H1|]. split; [exact H2|].
  exact (registry_ok_kept _ _ _ _ H1 H2).
Defined.

(** X9. With a store, a search that is in the registry is in the saved set too,
    and this stays so whatever the monitor does. *)
Theorem all_saved_kept bot_send_message fetch_page self self' :
  later bot_send_message fetch_page self self' →
  all_saved self → all_saved self'.
Proof.
  intros Hlater. revert Hlater.
  apply (across_later bot_send_message fetch_page (λ a b, all_saved a → all_saved b));
    try done.
  - intros a b c Hab Hbc Ha. by apply Hbc, Hab.
  - intros offer d search key r a Hr Hx Ha r' k Hr' Hk.
    cbn in Hr'. injection Hr' as <-. cbn in *. by apply (Ha r k).
  - intros p c a Ha r' k Hr' Hk. rewrite add_search_searches in Hk.
    pose proof (add_search_saved p c a) as Hs. unfold saved in Hs. rewrite Hr' in Hs.
    destruct (redis_client a) as [r|] eqn:Hr; [|discriminate]. cbn in Hs.
    injection Hs as ->. apply elem_of_union.
    destruct (decide (k = get_search_id (search_of p c))) as [->|Hne].
    + left. by apply elem_of_singleton.
    + right. apply (Ha r k); [done|]. by rewrite dict_get_set_ne in Hk.
  - intros p c a Ha r' k Hr' Hk. rewrite remove_search_searches in Hk.
    pose proof (remove_search_saved p c a) as Hs. unfold saved in Hs. rewrite Hr' in Hs.
    destruct (redis_client a) as [r|] eqn:Hr; [|discriminate]. cbn in Hs.
    injection Hs as ->. apply elem_of_difference.
    destruct (decide (k = get_search_id (search_of p c))) as [->|Hne].
    + rewrite dict_get_pop in Hk. by destruct Hk.
    + split; [|by rewrite elem_of_singleton].
      apply (Ha r k); [done|]. by rewrite dict_get_pop_ne in Hk.
Qed.

Lemma all_saved_kept_witness :
  later bot_up site_down (demo_monitor (Some empty_redis))
    (exec setup (demo_monitor (Some empty_redis)))
  ∧ all_saved (demo_monitor (Some empty_redis))
  ∧ all_saved (exec setup (demo_monitor (Some empty_redis))).
Proof.
  assert (H1 : later bot_up site_down (demo_monitor (Some empty_redis))
                 (exec setup (demo_monitor (Some empty_redis))))
    by (apply rtc_once, call_setup).
  assert (H2 : all_saved (demo_monitor (Some empty_redis))).
  { intros r k _ [v Hv]. discriminate. }
  split; [exact H1|]. split; [exact H2|].
  exact (all_saved_kept _ _ _ _ H1 H2).
Defined.

(** X14. The polling loop only reads the registry and its settings: after any
    number of cycles the registry, the saved set, the chat and the interval
    are what they were. *)
Theorem run_leaves_registry bot_send_message fetch_page n self :
  let self' := exec (run bot_send_message fetch_page n) self in
  searches self' = searches self
  ∧ saved self' = saved self
  ∧ chat_id self' = chat_id self
  ∧ check_interval self' = check_interval self.
Proof.
  apply (across_run bot_send_message fetch_page
           (λ a b, searches b = searches a ∧ saved b = saved a
                   ∧ chat_id b = chat_id a ∧ check_interval b = check_interval a));
    try done.
  - intros a b c (H1 & H2 & H3 & H4) (H5 & H6 & H7 & H8).
    by rewrite H5, H6, H7, H8.
  - intros offer d search key r a Hr Hx. unfold saved. cbn. by rewrite Hr.
Qed.

Lemma add_search_trace p c self :
  trace (exec (add_search p c) self)
  = trace self
    ++ match redis_client self with
       | Some _ => [Sadd (get_search_id (search_of p c))]
       | None => []
       end
    ++ [Log (InfoAdded (get_search_id (search_of p c)))].
Proof.
  unfold exec. rewrite add_search_exec.
  destruct (redis_client self); cbn; by rewrite <- ?app_assoc.
Qed.

Lemma remove_search_trace p c self :
  trace (exec (remove_search p c) self)
  = trace self
    ++ match redis_client self with
       | Some _ => [Srem (get_search_id (search_of p c))]
       | None => []
       end
    ++ [Log (InfoRemoved (get_search_id (search_of p c)))].
Proof.
  unfold exec. rewrite remove_search_exec.
  destruct (redis_client self); cbn; by rewrite <- ?app_assoc.
Qed.

Lemma trace_alerted_recorded bot offer d search key r self :
  trace (alerted bot offer d search (recorded key d r self))
  = trace self
    ++ [Hmset key d;
        SendMessage (chat_id self) (alert_of offer d search)
          (bot (trace self ++ [Hmset key d]) (chat_id self) (alert_of offer d search));
        Log (if bot (trace self ++ [Hmset key d]) (chat_id self) (alert_of offer d search)
             then InfoSentAlert (OfferData.jobTitle d) else ErrorSendingAlert)].
Proof. rewrite trace_alerted. cbn. by rewrite <- app_assoc. Qed.

Lemma has_store_saved self : is_Some (redis_client self) ↔ is_Some (saved self).
Proof. unfold saved. destruct (redis_client self); split; intros [? ?]; by eauto. Qed.

(** X11. With a store, writes and notifications go in pairs: over any sequence of
    calls and cycles the monitor has made as many store writes as it has
    called the bot. *)
Theorem notifications_match_writes bot_send_message fetch_page self self' :
  later bot_send_message fetch_page self self' →
  is_Some (redis_client self) →
  length (writes (new_events self self')) = length (notifications (new_events self self')).
Proof.
  intros Hlater Hstore.
  enough (is_Some (redis_client self') ∧
          ∃ l, trace self' = trace self ++ l
               ∧ length (writes l) = length (notifications l)) as (_ & l & Ht & Hl).
  { by rewrite (new_events_app _ _ _ Ht). }
  revert Hlater Hstore.
  apply (across_later bot_send_message fetch_page
           (λ a b, is_Some (redis_client a) →
                   is_Some (redis_client b) ∧
                   ∃ l, trace b = trace a ++ l
                        ∧ length (writes l) = length (notifications l))).
  - intros a Ha. split; [done|]. exists []. by rewrite app_nil_r.
  - intros a b c Hab Hbc Ha.
    destruct (Hab Ha) as (Hb & l1 & Ht1 & Hl1). destruct (Hbc Hb) as (Hc & l2 & Ht2 & Hl2).
    split; [done|]. exists (l1 ++ l2). rewrite Ht2, Ht1, <- app_assoc. split; [done|].
    unfold writes, notifications in *. rewrite !List.filter_app, !length_app. lia.
  - intros line a Ha. split; [done|]. by exists [Log line].
  - intros offer d search key r a Hr Hx Ha. split; [by eexists|].
    eexists. split; [apply trace_alerted_recorded|done].
  - intros offer d search a Hr [r Ha]. congruence.
  - intros search a Ha. split; [done|]. by exists [Get search].
  - intros seconds a Ha. split; [done|]. by exists [Sleep seconds].
  - intros p c a Ha. split.
    + apply has_store_saved. rewrite add_search_saved.
      apply has_store_saved in Ha as [s ->]. by eexists.
    + eexists. split; [apply add_search_trace|]. by destruct (redis_client a).
  - intros p c a Ha. split.
    + apply has_store_saved. rewrite remove_search_saved.
      apply has_store_saved in Ha as [s ->]. by eexists.
    + eexists. split; [apply remove_search_trace|]. by destruct (redis_client a).
Qed.

Lemma notifications_match_writes_witness :
  later bot_down (λ _ _, GroupedOffers [demo_offer; demo_offer_broken; demo_offer_paid])
    (exec (add_search (py "DevOps Engineer") None) (demo_monitor (Some empty_redis)))
    (exec (run bot_down (λ _ _, GroupedOffers [demo_offer; demo_offer_broken; demo_offer_paid]) 2)
       (exec (add_search (py "DevOps Engineer") None) (demo_monitor (Some empty_redis))))
  ∧ is_Some (redis_client
       (exec (add_search (py "DevOps Engineer") None) (demo_monitor (Some empty_redis))))
  ∧ length (writes (new_events
       (exec (add_search (py "DevOps Engineer") None) (demo_monitor (Some empty_redis)))
       (exec (run bot_down (λ _ _, GroupedOffers [demo_offer; demo_offer_broken; demo_offer_paid]) 2)
          (exec (add_search (py "DevOps Engineer") None) (demo_monitor (Some empty_redis))))))
    = 2%nat.
Proof.
  set (fetch := λ (_ : list event) (_ : JobSearch),
                  GroupedOffers [demo_offer; demo_offer_broken; demo_offer_paid]).
  set (self := exec (add_search (py "DevOps Engineer") None) (demo_monitor (Some empty_redis))).
  assert (H1 : later bot_down fetch self (exec (run bot_down fetch 2) self))
    by (apply rtc_once, call_run).
  assert (H2 : is_Some (redis_client self)) by (by eexists).
  split; [exact H1|]. split; [exact H2|].
  rewrite (notifications_match_writes _ _ _ _ H1 H2). vm_compute. reflexivity.
Defined.

Lemma written_keys_app l1 l2 : written_keys (l1 ++ l2) = written_keys l1 ++ written_keys l2.
Proof. apply omap_app. Qed.

Lemma written_keys_none l : Forall (λ e, is_write e = false) l → written_keys l = [].
Proof.
  induction 1 as [|e l He _ IH]; [done|]. unfold written_keys in *. cbn.
  destruct e; try discriminate; exact IH.
Qed.

(** X12. No key is written twice.  Over any sequence of calls and cycles the keys
    written are pairwise different; each was absent from the store before and
    is in it afterwards. *)
Theorem no_key_written_twice bot_send_message fetch_page self self' :
  later bot_send_message fetch_page self self' →
  NoDup (written_keys (new_events self self'))
  ∧ ∀ key, key ∈ written_keys (new_events self self') →
           stored key self = None ∧ is_Some (stored key self').
Proof.
  intros Hlater.
  enough (∃ l, trace self' = trace self ++ l
               ∧ NoDup (written_keys l)
               ∧ (∀ key, key ∈ written_keys l →
                         stored key self = None ∧ is_Some (stored key self'))
               ∧ (∀ key, is_Some (stored key self) → is_Some (stored key self')))
    as (l & Ht & Hnd & Hk & _).
  { by rewrite (new_events_app _ _ _ Ht). }
  revert Hlater.
  apply (across_later bot_send_message fetch_page
           (λ a b, ∃ l, trace b = trace a ++ l
                        ∧ NoDup (written_keys l)
                        ∧ (∀ key, key ∈ written_keys l →
                                  stored key a = None ∧ is_Some (stored key b))
                        ∧ (∀ key, is_Some (stored key a) → is_Some (stored key b)))).
  - intros a. exists []. rewrite app_nil_r. split; [done|]. split; [constructor|].
    split; [by intros key ?%elem_of_nil|done].
  - intros a b c (l1 & Ht1 & Hnd1 & Hk1 & Hm1) (l2 & Ht2 & Hnd2 & Hk2 & Hm2).
    exists (l1 ++ l2). rewrite Ht2, Ht1, <- app_assoc. split; [done|].
    rewrite written_keys_app. split; [|split].
    + apply NoDup_app. split; [done|]. split; [|done].
      intros key H1 H2. destruct (Hk1 key H1) as [_ [d Hd]].
      destruct (Hk2 key H2) as [Hn _]. congruence.
    + intros key Hin. apply elem_of_app in Hin as [Hin|Hin].
      * destruct (Hk1 key Hin) as [Ha Hb]. split; [done|by apply Hm2].
      * destruct (Hk2 key Hin) as [Hb Hc]. split; [|done].
        destruct (stored key a) as [d|] eqn:Ha; [|done].
        destruct (Hm1 key) as [d' Hd']; [by eexists|congruence].
    + intros key Ha. by apply Hm2, Hm1.
  - intros line a. exists [Log line]. split; [done|]. split; [constructor|].
    split; [by intros key ?%elem_of_nil|done].
  - intros offer d search key r a Hr Hx.
    eexists. split; [apply trace_alerted_recorded|].
    set (l := [Hmset key d; _; _]). change (written_keys l) with [key]. clear l.
    split; [apply NoDup_singleton|]. unfold stored, recorded.
    cbn [redis_client alerted with_event with_redis]. rewrite Hr.
    cbn [mbind option_bind hashes r_hmset]. split.
    + intros key' ->%list_elem_of_singleton. rewrite lookup_insert_eq.
      split; [|by eexists]. unfold r_exists in Hx. apply bool_decide_eq_false in Hx.
      destruct (hashes r !! key) eqn:Hl; [|done]. exfalso. apply Hx. by eexists.
    + intros key' [d' Hd']. destruct (decide (key = key')) as [->|Hne].
      * rewrite lookup_insert_eq. by eexists.
      * rewrite lookup_insert_ne by done. by eexists.
  - intros offer d search a Hr. eexists. split; [apply trace_alerted|].
    set (l := [_; _]). change (written_keys l) with (@nil pystr). clear l.
    split; [constructor|]. split; [by intros key ?%elem_of_nil|done].
  - intros search a. exists [Get search]. split; [done|]. split; [constructor|].
    split; [by intros key ?%elem_of_nil|done].
  - intros seconds a. exists [Sleep seconds]. split; [done|]. split; [constructor|].
    split; [by intros key ?%elem_of_nil|done].
  - intros p c a. eexists. split; [apply add_search_trace|].
    rewrite written_keys_none by (destruct (redis_client a); repeat constructor).
    split; [constructor|]. split; [by intros key ?%elem_of_nil|].
    intros key. by rewrite stored_add_search.
  - intros p c a. eexists. split; [apply remove_search_trace|].
    rewrite written_keys_none by (destruct (redis_client a); repeat constructor).
    split; [constructor|]. split; [by intros key ?%elem_of_nil|].
    intros key. by rewrite stored_remove_search.
Qed.

Lemma no_key_written_twice_witness :
  later bot_up site_down (demo_monitor (Some empty_redis))
    (exec (process_offers bot_up [demo_offer; demo_offer_retitled; demo_offer] demo_search)
       (demo_monitor (Some empty_redis)))
  ∧ written_keys (new_events (demo_monitor (Some empty_redis))
      (exec (process_offers bot_up [demo_offer; demo_offer_retitled; demo_offer] demo_search)
         (demo_monitor (Some empty_redis))))
    = [store_key demo_search (py "42")]
  ∧ NoDup (written_keys (new_events (demo_monitor (Some empty_redis))
      (exec (process_offers bot_up [demo_offer; demo_offer_retitled; demo_offer] demo_search)
         (demo_monitor (Some empty_redis))))).
Proof.
  assert (H1 : later bot_up site_down (demo_monitor (Some empty_redis))
    (exec (process_offers bot_up [demo_offer; demo_offer_retitled; demo_offer] demo_search)
       (demo_monitor (Some empty_redis))))
    by (apply rtc_once, call_process_offers).
  split; [exact H1|]. split; [vm_compute; reflexivity|].
  exact (proj1 (no_key_written_twice _ _ _ _ H1)).
Defined.

(** X13. Without a store the monitor sends no command to one: no write, nothing
    added to or removed from the saved set, whatever it does; and it stays
    without a store. *)
Theorem without_store_no_store_command bot_send_message fetch_page self self' :
  later bot_send_message fetch_page self self' →
  redis_client self = None →
  redis_client self' = None
  ∧ Forall (λ e, is_store_event e = false) (new_events self self').
Proof.
  intros Hlater Hnone.
  enough (redis_client self' = None
          ∧ ∃ l, trace self' = trace self ++ l ∧ Forall (λ e, is_store_event e = false) l)
    as (Hr & l & Ht & Hl).
  { by rewrite (new_events_app _ _ _ Ht). }
  revert Hlater Hnone.
  apply (across_later bot_send_message fetch_page
           (λ a b, redis_client a = None →
                   redis_client b = None
                   ∧ ∃ l, trace b = trace a ++ l
                          ∧ Forall (λ e, is_store_event e = false) l)).
  - intros a Ha. split; [done|]. exists []. by rewrite app_nil_r.
  - intros a b c Hab Hbc Ha.
    destruct (Hab Ha) as (Hb & l1 & Ht1 & Hl1). destruct (Hbc Hb) as (Hc & l2 & Ht2 & Hl2).
    split; [done|]. exists (l1 ++ l2). rewrite Ht2, Ht1, <- app_assoc. split; [done|].
    by apply Forall_app.
  - intros line a Ha. split; [done|]. exists [Log line]. split; [done|]. by repeat constructor.
  - intros offer d search key r a Hr Hx Ha. congruence.
  - intros offer d search a _ Ha. split; [done|].
    eexists. split; [apply trace_alerted|]. by repeat constructor.
  - intros search a Ha. split; [done|]. exists [Get search]. split; [done|].
    by repeat constructor.
  - intros seconds a Ha. split; [done|]. exists [Sleep seconds]. split; [done|].
    by repeat constructor.
  - intros p c a Ha. split.
    + pose proof (add_search_saved p c a) as Hs. unfold saved in Hs. rewrite Ha in Hs.
      by destruct (redis_client (exec (add_search p c) a)).
    + eexists. split; [apply add_search_trace|]. rewrite Ha. by repeat constructor.
  - intros p c a Ha. split.
    + pose proof (remove_search_saved p c a) as Hs. unfold saved in Hs. rewrite Ha in Hs.
      by destruct (redis_client (exec (remove_search p c) a)).
    + eexists. split; [apply remove_search_trace|]. rewrite Ha. by repeat constructor.
Qed.

Lemma without_store_no_store_command_witness :
  later bot_up (λ _ _, GroupedOffers [demo_offer])
    (demo_monitor None)
    (exec (run bot_up (λ _ _, GroupedOffers [demo_offer]) 2) (exec setup (demo_monitor None)))
  ∧ redis_client (demo_monitor None) = None
  ∧ redis_client
      (exec (run bot_up (λ _ _, GroupedOffers [demo_offer]) 2) (exec setup (demo_monitor None)))
    = None.
Proof.
  set (fetch := λ (_ : list event) (_ : JobSearch), GroupedOffers [demo_offer]).
  assert (H1 : later bot_up fetch (demo_monitor None)
                 (exec (run bot_up fetch 2) (exec setup (demo_monitor None)))).
  { eapply rtc_l; [apply call_setup|]. apply rtc_once, call_run. }
  assert (H2 : redis_client (demo_monitor None) = None) by reflexivity.
  split; [exact H1|]. split; [exact H2|].
  exact (proj1 (without_store_no_store_command _ _ _ _ H1 H2)).
Defined.

(** ** The polling loop *)

Lemma run_cycle_interval bot_send_message fetch_page self :
  check_interval (exec (run_cycle bot_send_message fetch_page) self) = check_interval self.
Proof.
  apply (across_run_cycle bot_send_message fetch_page
           (λ a b, check_interval b = check_interval a)); try done.
  intros a b c H1 H2. by rewrite H2.
Qed.

Lemma run_cycle_ends_asleep bot_send_message fetch_page self :
  sleepable (check_interval self) →
  (run_cycle bot_send_message fetch_page self).1 = Ok ()
  ∧ last (trace (exec (run_cycle bot_send_message fetch_page) self))
    = Some (Sleep (check_interval self)).
Proof.
  intros Hs. unfold exec. rewrite run_cycle_cases.
  destruct (poll bot_send_message fetch_page (values (searches self)) self)
    as [[[]|e] self1]; rewrite sleepable_ok by done; cbn; by rewrite last_snoc.
Qed.

(** X15. With a check interval that [time.sleep] takes, the loop does not end
    by itself: every cycle returns normally, also one in which processing
    raised, and the last thing a cycle does is sleep for the check
    interval. *)
Theorem run_never_raises bot_send_message fetch_page n self :
  sleepable (check_interval self) →
  (run bot_send_message fetch_page (S n) self).1 = Ok ()
  ∧ last (trace (exec (run bot_send_message fetch_page (S n)) self))
    = Some (Sleep (check_interval self)).
Proof.
  revert self. induction n as [|n IH]; intros self Hs.
  - unfold exec. rewrite run_S.
    pose proof (run_cycle_ends_asleep bot_send_message fetch_page self Hs) as [H1 H2].
    unfold exec in H2.
    by destruct (run_cycle bot_send_message fetch_page self) as [[[]|e] self1].
  - unfold exec. rewrite run_S.
    pose proof (run_cycle_ends_asleep bot_send_message fetch_page self Hs) as [H1 _].
    pose proof (run_cycle_interval bot_send_message fetch_page self) as Hi.
    unfold exec in Hi.
    destruct (run_cycle bot_send_message fetch_page self) as [[[]|e] self1];
      [|discriminate].
    cbn in Hi. rewrite <- Hi. apply IH. by rewrite Hi.
Qed.

Lemma run_never_raises_witness :
  sleepable (check_interval (with_searches [(py "devops engineer:wroclaw", demo_search)]
                               (demo_monitor (Some empty_redis))))
  ∧ (run bot_up (site_down_for demo_search [demo_offer]) 3
       (with_searches [(py "devops engineer:wroclaw", demo_search)]
          (demo_monitor (Some empty_redis)))).1 = Ok ().
Proof.
  assert (H1 : sleepable (check_interval
                            (with_searches [(py "devops engineer:wroclaw", demo_search)]
                               (demo_monitor (Some empty_redis)))))
    by (unfold sleepable; cbn; lia).
  split; [exact H1|].
  exact (proj1 (run_never_raises bot_up (site_down_for demo_search [demo_offer]) 2 _ H1)).
Defined.



Lemma process_offers_fetches_nothing bot_send_message offers search self :
  ∃ l, trace (exec (process_offers bot_send_message offers search) self) = trace self ++ l
       ∧ fetched l = [].
Proof.
  apply (across_process_offers bot_send_message
           (λ a b, ∃ l, trace b = trace a ++ l ∧ fetched l = [])).
  - intros a. exists []. by rewrite app_nil_r.
  - intros a b c (l1 & H1 & F1) (l2 & H2 & F2). exists (l1 ++ l2).
    rewrite H2, H1, <- app_assoc. split; [done|].
    unfold fetched in *. by rewrite omap_app, F1, F2.
  - intros line a. by exists [Log line].
  - intros offer d search' key r a _ _. eexists. by split; [apply trace_alerted_recorded|].
  - intros offer d search' a _. eexists. by split; [apply trace_alerted|].
Qed.

Lemma has_url_true search : is_Some (get_url search) → has_url search = true.
Proof. intros H. by apply bool_decide_eq_true. Qed.

Lemma has_url_false search : get_url search = None → has_url search = false.
Proof.
  intros H. apply bool_decide_eq_false. rewrite H. intros [u Hu]. discriminate.
Qed.

Lemma poll_fetched bot_send_message fetch_page todo self :
  ∃ l, trace (poll bot_send_message fetch_page todo self).2 = trace self ++ l
       ∧ fetched l `prefix_of` List.filter has_url todo
       ∧ ((poll bot_send_message fetch_page todo self).1 = Ok () →
          fetched l = List.filter has_url todo).
Proof.
  revert self. induction todo as [|search rest IH]; intros self.
  - exists []. by rewrite app_nil_r.
  - rewrite poll_cons. cbn [List.filter].
    set (pre := if has_url search then [search] else []).
    replace (if has_url search then search :: List.filter has_url rest
             else List.filter has_url rest)
      with (pre ++ List.filter has_url rest) by (unfold pre; by destruct (has_url search)).
    assert (Hget : ∃ offers l0, get_job_offers fetch_page search self
                     = (Ok offers, {| redis_client := redis_client self;
                                      chat_id := chat_id self;
                                      check_interval := check_interval self;
                                      searches := searches self;
                                      trace := trace self ++ l0 |})
                     ∧ fetched l0 = pre).
    { unfold pre.
      destruct (get_job_offers_cases fetch_page search self)
        as [[Hu [line ->]]|[Hu [[os ->]|[line ->]]]].
      - rewrite (has_url_false _ Hu). by exists [], [Log line].
      - rewrite (has_url_true _ Hu). by exists os, [Get search].
      - rewrite (has_url_true _ Hu). exists [], [Get search; Log line].
        unfold with_event. cbn. by rewrite <- app_assoc. }
    destruct Hget as (offers & l0 & -> & F0).
    set (self1 := {| trace := trace self ++ l0 |}).
    assert (Hfetch : ∀ l', fetched (l0 ++ l') = pre ++ fetched l').
    { intros l'. unfold fetched in *. by rewrite omap_app, F0. }
    destruct offers as [|o os].
    + destruct (IH (with_event (Sleep 1) self1)) as (l & Ht & Hp & Hok).
      exists (l0 ++ Sleep 1 :: l). split.
      { rewrite Ht. cbn. by rewrite <- !app_assoc. }
      rewrite Hfetch. change (fetched (Sleep 1 :: l)) with (fetched l).
      split; [by apply prefix_app|]. intros H. by rewrite Hok.
    + destruct (process_offers_fetches_nothing bot_send_message (o :: os) search self1)
        as (lp & Htp & Fp).
      unfold exec in Htp.
      destruct (process_offers bot_send_message (o :: os) search self1)
        as [[[]|e] self2].
      * destruct (IH (with_event (Sleep 1)
                        (with_event (Log (InfoProcessed (length (o :: os))
                                            (get_search_id search))) self2)))
          as (l & Ht & Hp & Hok).
        exists (l0 ++ lp
                ++ Log (InfoProcessed (length (o :: os)) (get_search_id search))
                   :: Sleep 1 :: l).
        split.
        { rewrite Ht. cbn in *. rewrite Htp. cbn. by rewrite <- !app_assoc. }
        rewrite Hfetch.
        assert (Hl : fetched (lp ++ Log (InfoProcessed (length (o :: os))
                                          (get_search_id search)) :: Sleep 1 :: l)
                     = fetched l).
        { unfold fetched in *. by rewrite omap_app, Fp. }
        rewrite Hl. split; [by apply prefix_app|]. intros H. by rewrite Hok.
      * exists (l0 ++ lp). split.
        { cbn in *. rewrite Htp. cbn. by rewrite <- !app_assoc. }
        rewrite Hfetch. unfold fetched in *. rewrite Fp, app_nil_r.
        split; [|done]. by apply prefix_app_r.
Qed.

(** X16. In a cycle the searches whose address can be built are requested
    one after the other in the order of the registry, each once; a search
    whose address cannot be built is logged and no request is made for it.
    When the loop over the searches returns normally every such search was
    requested; when processing raised, those before it and the one at which
    it raised. *)
Theorem poll_fetches_in_order bot_send_message fetch_page todo self :
  fetched (new_events self (exec (poll bot_send_message fetch_page todo) self))
    `prefix_of` List.filter has_url todo
  ∧ ((poll bot_send_message fetch_page todo self).1 = Ok () →
     fetched (new_events self (exec (poll bot_send_message fetch_page todo) self))
     = List.filter has_url todo).
Proof.
  destruct (poll_fetched bot_send_message fetch_page todo self) as (l & Ht & Hp & Hok).
  unfold exec. by rewrite (new_events_app _ _ _ Ht).
Qed.

Lemma poll_fetches_in_order_witness :
  (poll bot_up (site_down_for demo_search [demo_offer])
     [{| position := [0xD800]; city := None |}; demo_search;
      {| position := py "Cloud Engineer"; city := None |}]
     (demo_monitor (Some empty_redis))).1 = Ok ()
  ∧ fetched (new_events (demo_monitor (Some empty_redis))
               (exec (poll bot_up (site_down_for demo_search [demo_offer])
                        [{| position := [0xD800]; city := None |}; demo_search;
                         {| position := py "Cloud Engineer"; city := None |}])
                  (demo_monitor (Some empty_redis))))
    = [demo_search; {| position := py "Cloud Engineer"; city := None |}].
Proof.
  assert (H1 : (poll bot_up (site_down_for demo_search [demo_offer])
                  [{| position := [0xD800]; city := None |}; demo_search;
                   {| position := py "Cloud Engineer"; city := None |}]
                  (demo_monitor (Some empty_redis))).1 = Ok ())
    by (vm_compute; reflexivity).
  split; [exact H1|].
  rewrite (proj2 (poll_fetches_in_order _ _ _ _) H1). vm_compute. reflexivity.
Defined.

(** ** What the alert says *)

Lemma contains_refl s : contains s s = true.
Proof. rewrite <- (app_nil_r s) at 1. apply contains_here, starts_with_app. Qed.

(** X19. The alert has the job title, the position searched for, the company, the
    workplace, the levels and the technologies, each list joined by a comma
    and a space, the link and the publication date, whatever their text. *)
Theorem alert_shows_offer job search :
  let text := alert_message job search in
  contains text (Job.jobTitle job) = true
  ∧ contains text (position search) = true
  ∧ contains text (Job.companyName job) = true
  ∧ contains text (Job.displayWorkplace job) = true
  ∧ contains text (join (py ", ") (Job.positionLevels job)) = true
  ∧ contains text (join (py ", ") (Job.technologies job)) = true
  ∧ contains text (Job.offerAbsoluteUri job) = true
  ∧ contains text (Job.lastPublicated job) = true.
Proof.
  intros text. unfold text, alert_message.
  repeat split;
    repeat first
      [ solve [apply contains_here, starts_with_app]
      | solve [apply contains_refl]
      | apply contains_skip ].
Qed.

(** ** Setting up the registry *)

Lemma add_all_cons p c l self :
  exec (add_all ((p, c) :: l)) self = exec (add_all l) (exec (add_search p c) self).
Proof.
  unfold exec. cbn [add_all]. unfold mbind, M_bind. by rewrite add_search_exec.
Qed.

Lemma add_all_keys l self k :
  k ∈ keys (searches (exec (add_all l) self))
  ↔ k ∈ keys (searches self) ∨ ∃ p c, (p, c) ∈ l ∧ k = get_search_id (search_of p c).
Proof.
  revert self. induction l as [|[p c] l IH]; intros self.
  - split; [by left|]. intros [?|(p & c & Hin & _)]; [done|by apply elem_of_nil in Hin].
  - rewrite add_all_cons, IH, add_search_searches, dict_set_keys. split.
    + intros [Hk|(p' & c' & Hin & ->)].
      * destruct (decide (get_search_id (search_of p c) ∈ keys (searches self)));
          [by left|].
        apply elem_of_app in Hk as [Hk|Hk]; [by left|].
        apply list_elem_of_singleton in Hk as ->. right. exists p, c. split; [constructor|done].
      * right. exists p', c'. split; [by constructor|done].
    + intros [Hk|(p' & c' & Hin & ->)].
      * left. destruct (decide (get_search_id (search_of p c) ∈ keys (searches self)));
          [done|]. apply elem_of_app. by left.
      * apply elem_of_cons in Hin as [[= -> ->]|Hin].
        -- left. destruct (decide (get_search_id (search_of p c) ∈ keys (searches self)));
             [done|]. apply elem_of_app. right. constructor.
        -- right. by exists p', c'.
Qed.

Lemma add_all_saved l self s :
  saved self = Some s →
  ∃ s', saved (exec (add_all l) self) = Some s'
        ∧ ∀ k, k ∈ s' ↔ k ∈ s ∨ ∃ p c, (p, c) ∈ l ∧ k = get_search_id (search_of p c).
Proof.
  revert self s. induction l as [|[p c] l IH]; intros self s Hs.
  - exists s. split; [done|]. intros k. split; [by left|].
    intros [?|(p & c & Hin & _)]; [done|by apply elem_of_nil in Hin].
  - rewrite add_all_cons.
    destruct (IH (exec (add_search p c) self) ({[get_search_id (search_of p c)]} ∪ s))
      as (s' & Hs' & Hk).
    { by rewrite add_search_saved, Hs. }
    exists s'. split; [done|]. intros k. rewrite Hk, elem_of_union, elem_of_singleton.
    split.
    + intros [[->|?]|(p' & c' & Hin & ->)].
      * right. exists p, c. split; [constructor|done].
      * by left.
      * right. exists p', c'. split; [by constructor|done].
    + intros [?|(p' & c' & Hin & ->)]; [by left; right|].
      apply elem_of_cons in Hin as [[= -> ->]|Hin]; [by left; left|].
      right. by exists p', c'.
Qed.

Lemma add_all_no_store l self :
  saved self = None → saved (exec (add_all l) self) = None.
Proof.
  revert self. induction l as [|[p c] l IH]; intros self Hs; [done|].
  rewrite add_all_cons. apply IH. by rewrite add_search_saved, Hs.
Qed.

Lemma setup_searches self :
  searches (exec setup self)
  = searches (exec (add_all match redis_client self with
                            | Some r => match elements (job_searches r) with
                                        | [] => DEFAULT_SEARCHES
                                        | saved_searches => map parse_saved saved_searches
                                        end
                            | None => DEFAULT_SEARCHES
                            end) self).
Proof. destruct (setup_cases self) as (l & -> & ->). reflexivity. Qed.

Lemma setup_saved self :
  saved (exec setup self)
  = saved (exec (add_all match redis_client self with
                         | Some r => match elements (job_searches r) with
                                     | [] => DEFAULT_SEARCHES
                                     | saved_searches => map parse_saved saved_searches
                                     end
                         | None => DEFAULT_SEARCHES
                         end) self).
Proof. destruct (setup_cases self) as (l & -> & ->). reflexivity. Qed.

(** X20. Without a store, or with a store in which no search is saved, [setup] on
    an empty registry registers the three default searches, in their order,
    and with a store saves exactly their identifiers.  In particular the
    defaults come back at the next start once the last search has been
    removed. *)
Theorem setup_uses_defaults self :
  searches self = [] →
  saved self = None ∨ saved self = Some ∅ →
  searches (exec setup self)
  = [ (py "devops engineer:wroclaw",
       search_of (py "DevOps Engineer") (Some (py "Wroclaw")));
      (py "cloud engineer:warszawa",
       search_of (py "Cloud Engineer") (Some (py "Warszawa")));
      (py "devops engineer", search_of (py "DevOps Engineer") None) ]
  ∧ ∀ s, saved (exec setup self) = Some s →
         ∀ k, k ∈ s ↔ k ∈ keys (searches (exec setup self)).
Proof.
  intros Hempty Hstore.
  assert (Hl : match redis_client self with
               | Some r => match elements (job_searches r) with
                           | [] => DEFAULT_SEARCHES
                           | saved_searches => map parse_saved saved_searches
                           end
               | None => DEFAULT_SEARCHES
               end = DEFAULT_SEARCHES).
  { unfold saved in Hstore. destruct (redis_client self) as [r|]; [|done].
    destruct Hstore as [?|Hs]; [done|]. cbn in Hs. injection Hs as ->.
    by rewrite elements_empty. }
  rewrite setup_searches, setup_saved, Hl.
  assert (Hreg : searches (exec (add_all DEFAULT_SEARCHES) self)
                 = [ (py "devops engineer:wroclaw",
                      search_of (py "DevOps Engineer") (Some (py "Wroclaw")));
                     (py "cloud engineer:warszawa",
                      search_of (py "Cloud Engineer") (Some (py "Warszawa")));
                     (py "devops engineer", search_of (py "DevOps Engineer") None) ]).
  { unfold DEFAULT_SEARCHES. rewrite !add_all_cons. unfold add_all, exec at 1, mret, M_ret.
    cbn [snd]. rewrite !add_search_searches, Hempty. vm_compute. reflexivity. }
  split; [exact Hreg|].
  intros s Hs k. destruct Hstore as [Hn|Hs0].
  - by rewrite (add_all_no_store _ _ Hn) in Hs.
  - destruct (add_all_saved DEFAULT_SEARCHES self ∅ Hs0) as (s' & Hs' & Hk).
    rewrite Hs in Hs'. injection Hs' as <-.
    rewrite Hk, add_all_keys, Hempty. split.
    + intros [?%elem_of_empty|?]; [done|by right].
    + intros [?%elem_of_nil|?]; [done|by right].
Qed.

Lemma setup_uses_defaults_witness :
  searches (exec (remove_search (py "Cloud Engineer") None)
              (exec (add_search (py "Cloud Engineer") None)
                 (with_searches [] (demo_monitor (Some empty_redis)))))
  = []
  ∧ saved (with_searches []
             (exec (remove_search (py "Cloud Engineer") None)
                (exec (add_search (py "Cloud Engineer") None)
                   (demo_monitor (Some empty_redis)))))
    = Some ∅
  ∧ keys (searches (exec setup (with_searches []
             (exec (remove_search (py "Cloud Engineer") None)
                (exec (add_search (py "Cloud Engineer") None)
                   (demo_monitor (Some empty_redis)))))))
    = [py "devops engineer:wroclaw"; py "cloud engineer:warszawa"; py "devops engineer"].
Proof.
  set (self := with_searches []
                 (exec (remove_search (py "Cloud Engineer") None)
                    (exec (add_search (py "Cloud Engineer") None)
                       (demo_monitor (Some empty_redis))))).
  assert (H1 : searches self = []) by reflexivity.
  assert (H2 : saved self = None ∨ saved self = Some ∅) by (right; vm_compute; reflexivity).
  split; [vm_compute; reflexivity|]. split; [vm_compute; reflexivity|].
  by rewrite (proj1 (setup_uses_defaults self H1 H2)).
Defined.

(** X21. With a store in which searches are saved, [setup] on an empty registry
    registers the searches rebuilt from the saved identifiers and nothing
    else: no default is added. *)
Theorem setup_restores_saved self r :
  redis_client self = Some r →
  job_searches r ≠ ∅ →
  searches self = [] →
  ∀ k, k ∈ keys (searches (exec setup self))
       ↔ ∃ s, s ∈ job_searches r
              ∧ k = get_search_id (search_of (parse_saved s).1 (parse_saved s).2).
Proof.
  intros Hr Hne Hempty k. rewrite setup_searches, Hr.
  destruct (elements (job_searches r)) as [|s0 ss] eqn:Hel.
  { exfalso. apply Hne. by apply elements_empty_inv, leibniz_equiv in Hel. }
  rewrite <- Hel, add_all_keys, Hempty. split.
  - intros [?%elem_of_nil|(p & c & Hin & ->)]; [done|].
    apply list_elem_of_fmap in Hin as (s & Hs & Hin). apply elem_of_elements in Hin.
    exists s. split; [done|]. by rewrite <- Hs.
  - intros (s & Hin & ->). right.
    exists (parse_saved s).1, (parse_saved s).2. split; [|done].
    apply list_elem_of_fmap. exists s. split; [by destruct (parse_saved s)|].
    by apply elem_of_elements.
Qed.

Lemma setup_restores_saved_witness :
  redis_client (demo_monitor (Some {| job_searches := {[ py "devops:krakow" ]}; hashes := ∅ |}))
  = Some {| job_searches := {[ py "devops:krakow" ]}; hashes := ∅ |}
  ∧ ({[ py "devops:krakow" ]} : gset pystr) ≠ ∅
  ∧ searches (demo_monitor (Some {| job_searches := {[ py "devops:krakow" ]}; hashes := ∅ |}))
    = []
  ∧ (py "devops engineer"
     ∉ keys (searches (exec setup
          (demo_monitor (Some {| job_searches := {[ py "devops:krakow" ]}; hashes := ∅ |}))))).
Proof.
  set (r := {| job_searches := {[ py "devops:krakow" ]}; hashes := ∅ |}).
  assert (H1 : redis_client (demo_monitor (Some r)) = Some r) by reflexivity.
  assert (H2 : job_searches r ≠ ∅).
  { intros H. apply (f_equal elements) in H. vm_compute in H. discriminate. }
  assert (H3 : searches (demo_monitor (Some r)) = []) by reflexivity.
  split; [exact H1|]. split; [exact H2|]. split; [exact H3|].
  intros Hin. apply (setup_restores_saved _ r H1 H2 H3) in Hin as (s & Hs & Hk).
  unfold r in Hs. cbn [job_searches] in Hs.
  apply elem_of_singleton in Hs as ->. vm_compute in Hk. discriminate.
Defined.

(** ** Saving a search and reading it back *)

Lemma latin1_lower_cp c :
  c < 0x100 →
  c ≠ capital_sigma
  ∧ Forall (λ x, x < 0x100) (lower_cp c)
  ∧ flat_map lower_cp (lower_cp c) = lower_cp c
  ∧ (colon ∈ lower_cp c → c = colon).
Proof.
  intros Hc.
  assert (H : forallb
                (λ c, negb (c =? capital_sigma)
                      && forallb (λ x, x <? 0x100) (lower_cp c)
                      && bool_decide (flat_map lower_cp (lower_cp c) = lower_cp c)
                      && (negb (existsb (N.eqb colon) (lower_cp c)) || (c =? colon)))
                (map N.of_nat (seq 0 256)) = true) by (vm_compute; reflexivity).
  apply (forall_below 256 _ H c) in Hc.
  apply andb_true_iff in Hc as [Hc H4]. apply andb_true_iff in Hc as [Hc H3].
  apply andb_true_iff in Hc as [H1 H2].
  split; [by apply N.eqb_neq, negb_true_iff|]. split.
  { apply Forall_forall. intros x Hx. rewrite forallb_forall in H2.
    by apply N.ltb_lt, H2, list_elem_of_In. }
  split; [by apply bool_decide_eq_true in H3|].
  intros Hin. apply orb_true_iff in H4 as [H4|H4]; [|by apply N.eqb_eq].
  apply negb_true_iff in H4. exfalso.
  assert (Hex : existsb (N.eqb colon) (lower_cp c) = true); [|congruence].
  apply existsb_exists. exists colon. split; [by apply list_elem_of_In|apply N.eqb_refl].
Qed.

Lemma latin1_sigma_free s : latin1 s → sigma_free s.
Proof.
  unfold latin1. induction 1 as [|c s Hc Hs IH]; [apply not_elem_of_nil|].
  apply sigma_free_cons. split; [|done]. by apply latin1_lower_cp.
Qed.

Lemma lower_latin1 s : latin1 s → latin1 (lower s).
Proof.
  intros Hs. rewrite lower_sigma_free by by apply latin1_sigma_free.
  unfold latin1 in *. induction Hs as [|c s Hc Hs IH]; [constructor|].
  cbn [flat_map]. apply Forall_app. split; [by apply latin1_lower_cp|done].
Qed.

Lemma lower_idem s : latin1 s → lower (lower s) = lower s.
Proof.
  intros Hs. rewrite (lower_sigma_free (lower s)) by by apply latin1_sigma_free, lower_latin1.
  rewrite lower_sigma_free by by apply latin1_sigma_free.
  unfold latin1 in Hs. induction Hs as [|c s Hc Hs IH]; [done|].
  cbn [flat_map]. rewrite flat_map_app, IH. f_equal. by apply latin1_lower_cp.
Qed.

Lemma lower_no_colon s : latin1 s → colon ∉ s → colon ∉ lower s.
Proof.
  intros Hs. rewrite lower_sigma_free by by apply latin1_sigma_free.
  unfold latin1 in Hs. induction Hs as [|c s Hc Hs IH]; [done|]. intros Hn.
  cbn [flat_map]. intros [Hin|Hin]%elem_of_app.
  - apply latin1_lower_cp in Hin; [|done]. apply Hn. subst. constructor.
  - apply IH; [|done]. intros ?. apply Hn. by constructor.
Qed.

Lemma split_first_no_colon s : colon ∉ s → split_first s = (s, None).
Proof.
  induction s as [|c s IH]; [done|]. intros Hn. cbn [split_first].
  destruct (N.eqb c colon) eqn:Hc.
  - apply N.eqb_eq in Hc. exfalso. apply Hn. subst. constructor.
  - rewrite IH; [done|]. intros ?. apply Hn. by constructor.
Qed.

Lemma split_first_colon a b : colon ∉ a → split_first (a ++ colon :: b) = (a, Some b).
Proof.
  induction a as [|c a IH]; [done|]. intros Hn. cbn [split_first app].
  destruct (N.eqb c colon) eqn:Hc.
  - apply N.eqb_eq in Hc. exfalso. apply Hn. subst. constructor.
  - rewrite IH; [done|]. intros ?. apply Hn. by constructor.
Qed.

Lemma truthy_lower s : truthy (Some (lower s)) = truthy (Some s).
Proof.
  destruct s as [|c s]; [done|]. unfold lower. cbn [lower_from].
  destruct (c =? capital_sigma); [done|].
  pose proof (lower_cp_nonempty c). by destruct (lower_cp c).
Qed.

(** X22. A search whose position and city have no colon is read back from its
    saved identifier with position and city in lower case, and so under the
    same identifier: saving and restarting keeps the search. *)
Theorem saved_identifier_read_back search :
  latin1 (position search) → latin1 (city_text search) →
  colon ∉ position search → colon ∉ city_text search →
  parse_saved (get_search_id search)
  = (lower (position search),
     if truthy (city search) then Some (lower (city_text search)) else None)
  ∧ get_search_id (search_of (parse_saved (get_search_id search)).1
                             (parse_saved (get_search_id search)).2)
    = get_search_id search.
Proof.
  intros Lp Lc Hp Hc.
  assert (Hparse : parse_saved (get_search_id search)
                   = (lower (position search),
                      if truthy (city search) then Some (lower (city_text search))
                      else None)).
  { unfold parse_saved, get_search_id, city_text in *. rewrite split_split_first.
    destruct (truthy (city search)).
    - rewrite lower_colon by by apply latin1_sigma_free.
      rewrite split_first_colon by by apply lower_no_colon.
      cbn [fst snd]. rewrite split_split_first, split_first_no_colon by by apply lower_no_colon.
      done.
    - by rewrite split_first_no_colon by by apply lower_no_colon. }
  split; [exact Hparse|]. rewrite Hparse. cbn [fst snd].
  unfold get_search_id, search_of, city_text in *. cbn [position city].
  destruct (city search) as [[|c s]|]; cbn [truthy] in *; try by apply lower_idem.
  change (default [] (Some (c :: s))) with (c :: s) in *.
  pose proof (truthy_lower (c :: s)) as Ht. cbn [truthy] in Ht. rewrite Ht.
  change (default [] (Some (lower (c :: s)))) with (lower (c :: s)).
  rewrite (lower_colon (lower (position search)))
    by by apply latin1_sigma_free, lower_latin1.
  rewrite (lower_colon (position search)) by by apply latin1_sigma_free.
  by rewrite !lower_idem.
Qed.

Lemma saved_identifier_read_back_witness :
  latin1 (position demo_search) ∧ latin1 (city_text demo_search)
  ∧ (colon ∉ position demo_search) ∧ (colon ∉ city_text demo_search)
  ∧ parse_saved (get_search_id demo_search)
    = (py "devops engineer", Some (py "wroclaw")).
Proof.
  assert (H1 : latin1 (position demo_search)) by (by vm_compute; repeat constructor).
  assert (H2 : latin1 (city_text demo_search)) by (by vm_compute; repeat constructor).
  assert (H3 : colon ∉ position demo_search).
  { intros Hin. apply list_elem_of_In in Hin. vm_compute in Hin. intuition discriminate. }
  assert (H4 : colon ∉ city_text demo_search).
  { intros Hin. apply list_elem_of_In in Hin. vm_compute in Hin. intuition discriminate. }
  split; [exact H1|]. split; [exact H2|]. split; [exact H3|]. split; [exact H4|].
  exact (proj1 (saved_identifier_read_back demo_search H1 H2 H3 H4)).
Defined.

(** ** More on notifications and on the cycle *)

(** X18. Every message goes to the chat the monitor was configured with, which
    nothing the monitor does ever changes. *)
Theorem alerts_go_to_configured_chat bot_send_message fetch_page self self' :
  later bot_send_message fetch_page self self' →
  chat_id self' = chat_id self
  ∧ Forall (sent_to (chat_id self)) (new_events self self').
Proof.
  intros Hlater.
  enough (chat_id self' = chat_id self
          ∧ ∃ l, trace self' = trace self ++ l ∧ Forall (sent_to (chat_id self)) l)
    as (Hc & l & Ht & Hl).
  { by rewrite (new_events_app _ _ _ Ht). }
  revert Hlater.
  apply (across_later bot_send_message fetch_page
           (λ a b, chat_id b = chat_id a
                   ∧ ∃ l, trace b = trace a ++ l ∧ Forall (sent_to (chat_id a)) l)).
  - intros a. split; [done|]. exists []. by rewrite app_nil_r.
  - intros a b c (Hb & l1 & Ht1 & Hl1) (Hc & l2 & Ht2 & Hl2).
    split; [congruence|]. exists (l1 ++ l2). rewrite Ht2, Ht1, <- app_assoc.
    split; [done|]. apply Forall_app. split; [done|]. by rewrite <- Hb.
  - intros line a. split; [done|]. exists [Log line]. split; [done|]. by repeat constructor.
  - intros offer d search key r a _ _. split; [done|].
    eexists. split; [apply trace_alerted_recorded|]. by repeat constructor.
  - intros offer d search a _. split; [done|].
    eexists. split; [apply trace_alerted|]. by repeat constructor.
  - intros search a. split; [done|]. exists [Get search]. split; [done|].
    by repeat constructor.
  - intros seconds a. split; [done|]. exists [Sleep seconds]. split; [done|].
    by repeat constructor.
  - intros p c a. split.
    + unfold exec. rewrite add_search_exec. by destruct (redis_client a).
    + eexists. split; [apply add_search_trace|].
      destruct (redis_client a); by repeat constructor.
  - intros p c a. split.
    + unfold exec. rewrite remove_search_exec. by destruct (redis_client a).
    + eexists. split; [apply remove_search_trace|].
      destruct (redis_client a); by repeat constructor.
Qed.

Lemma alerts_go_to_configured_chat_witness :
  later bot_up (site_with [demo_offer; demo_offer_paid])
    (exec setup (demo_monitor None))
    (exec (run bot_up (site_with [demo_offer; demo_offer_paid]) 1)
       (exec setup (demo_monitor None)))
  ∧ chat_id (exec (run bot_up (site_with [demo_offer; demo_offer_paid]) 1)
               (exec setup (demo_monitor None)))
    = py "1234".
Proof.
  assert (H1 : later bot_up (site_with [demo_offer; demo_offer_paid])
                 (exec setup (demo_monitor None))
                 (exec (run bot_up (site_with [demo_offer; demo_offer_paid]) 1)
                    (exec setup (demo_monitor None))))
    by (apply rtc_once, call_run).
  split; [exact H1|].
  rewrite (proj1 (alerts_go_to_configured_chat _ _ _ _ H1)). vm_compute. reflexivity.
Defined.

(** X17. An offer record without [groupId] is not skipped: the [KeyError] leaves
    [process_offers], the offers after it are not looked at, and the loop over
    the searches ends there, so that the searches after this one are not
    fetched in this cycle; the cycle itself logs the error and goes to its
    pause, from which it returns when the check interval is one that
    [time.sleep] takes. *)
Theorem missing_group_id_ends_cycle
    bot_send_message fetch_page search rest offer others self :
  is_Some (get_url search) →
  fetch_page (trace self) search = GroupedOffers (offer :: others) →
  Offer.groupId offer = None →
  process_offers bot_send_message (offer :: others) search (with_event (Get search) self)
  = (Raise (KeyError (py "groupId")), with_event (Get search) self)
  ∧ poll bot_send_message fetch_page (search :: rest) self
    = (Raise (KeyError (py "groupId")), with_event (Get search) self)
  ∧ (values (searches self) = search :: rest →
     run_cycle bot_send_message fetch_page self
     = sleep (check_interval self)
         (with_event (Log (ErrorOccurred (KeyError (py "groupId"))))
            (with_event (Get search) self)))
  ∧ (values (searches self) = search :: rest →
     sleepable (check_interval self) →
     run_cycle bot_send_message fetch_page self
     = (Ok (), with_event (Sleep (check_interval self))
                 (with_event (Log (ErrorOccurred (KeyError (py "groupId"))))
                    (with_event (Get search) self)))).
Proof.
  intros [url Hurl] Hfetch Hg.
  assert (Hp : process_offers bot_send_message (offer :: others) search
                 (with_event (Get search) self)
               = (Raise (KeyError (py "groupId")), with_event (Get search) self)).
  { rewrite process_offers_cons. by rewrite process_offer_no_group_id. }
  assert (Hget : get_job_offers fetch_page search self
                 = (Ok (offer :: others), with_event (Get search) self)).
  { unfold get_job_offers. rewrite Hurl. unfold_m. by rewrite Hfetch. }
  assert (Hpoll : poll bot_send_message fetch_page (search :: rest) self
                  = (Raise (KeyError (py "groupId")), with_event (Get search) self)).
  { rewrite poll_cons, Hget. by rewrite Hp. }
  split; [exact Hp|]. split; [exact Hpoll|].
  assert (Hcycle : values (searches self) = search :: rest →
                   run_cycle bot_send_message fetch_page self
                   = sleep (check_interval self)
                       (with_event (Log (ErrorOccurred (KeyError (py "groupId"))))
                          (with_event (Get search) self))).
  { intros Hv. rewrite run_cycle_cases, Hv. by rewrite Hpoll. }
  split; [exact Hcycle|].
  intros Hv Hs. rewrite (Hcycle Hv). by apply sleepable_ok.
Qed.

Lemma missing_group_id_ends_cycle_witness :
  is_Some (get_url demo_search)
  ∧ site_with [demo_offer_anonymous; demo_offer] (trace (demo_monitor (Some empty_redis)))
      demo_search
    = GroupedOffers [demo_offer_anonymous; demo_offer]
  ∧ Offer.groupId demo_offer_anonymous = None
  ∧ poll bot_up (site_with [demo_offer_anonymous; demo_offer])
      [demo_search; search_of (py "Cloud Engineer") None] (demo_monitor (Some empty_redis))
    = (Raise (KeyError (py "groupId")),
       with_event (Get demo_search) (demo_monitor (Some empty_redis))).
Proof.
  assert (H0 : is_Some (get_url demo_search)) by (eexists; vm_compute; reflexivity).
  assert (H1 : site_with [demo_offer_anonymous; demo_offer]
                 (trace (demo_monitor (Some empty_redis))) demo_search
               = GroupedOffers [demo_offer_anonymous; demo_offer]) by reflexivity.
  assert (H2 : Offer.groupId demo_offer_anonymous = None) by reflexivity.
  split; [exact H0|]. split; [exact H1|]. split; [exact H2|].
  exact (proj1 (proj2 (missing_group_id_ends_cycle bot_up _ _
                         [search_of (py "Cloud Engineer") None] _ _ _ H0 H1 H2))).
Defined.
